(** * ScriptCuentas: the transaction ledger script, embedded and verified

    A shallow embedding of [src/ScriptCuentas.py]: the parsing and formatting
    helpers, the per-event aggregation ([calculateEvent] and the functions it
    calls) and the cross-event summary sheet ([writeEvents]).

    Conventions of the embedding:
    - a Python [int] is a [Z] (Python integers are unbounded);
    - a Python [str] is a [string], one [ascii] for one character; the
      script's own text is ASCII but for the euro sign that [formatAmount]
      appends, which stands as the bytes of its UTF-8 encoding (no function
      here cuts through it, and [int] rejects it either way);
    - a Python list is a [list], a dict keyed by strings is a [gmap string];
    - an exception is a value of [exn], and a computation that may raise
      returns a [result]. *)

From Stdlib Require Import ZArith Ascii String List.
From stdpp Require Import base decidable option list gmap strings pretty.

Local Open Scope Z_scope.

(** ** Exceptions *)

Inductive exn : Type :=
| IndexError
| ValueError
| KeyError
| StopIteration.

Inductive result (A : Type) : Type :=
| Ok (a : A)
| Raise (e : exn).

Arguments Ok {A} a.
Arguments Raise {A} e.

(** Sequencing: the first exception raised ends the computation. With this
    instance [x ← r; k] is stdpp's notation for it. *)
#[global] Instance result_bind : MBind result := fun A B k r =>
  match r with
  | Ok a => k a
  | Raise e => Raise e
  end.

Definition succeeds {A : Type} (r : result A) : Prop :=
  match r with Ok _ => True | Raise _ => False end.

Definition raises {A : Type} (r : result A) : Prop :=
  match r with Ok _ => False | Raise _ => True end.

Definition of_option {A : Type} (e : exn) (o : option A) : result A :=
  match o with
  | Some a => Ok a
  | None => Raise e
  end.

(** ** The Python builtins the script relies on *)

Module Py.

(** [str(n)] for an integer: decimal digits, a leading '-' when negative. *)
Definition str (n : Z) : string := pretty n.

(** [len(s)]. *)
Definition len (s : string) : nat := String.length s.

Fixpoint take (n : nat) (s : string) : string :=
  match n, s with
  | S n', String c r => String c (take n' r)
  | _, _ => EmptyString
  end.

Fixpoint drop (n : nat) (s : string) : string :=
  match n, s with
  | S n', String _ r => drop n' r
  | _, _ => s
  end.

(** [s[:-k]] for a literal [k > 0]: everything but the last [k] characters,
    the empty string when [s] has at most [k] characters. *)
Definition slice_until_neg (k : nat) (s : string) : string :=
  take (len s - k) s.

(** [s[-k:]] for a literal [k > 0]: the last [k] characters, the whole of
    [s] when it has fewer. *)
Definition slice_from_neg (k : nat) (s : string) : string :=
  drop (len s - k) s.

(** [s[1:]]. *)
Definition slice_from (k : nat) (s : string) : string := drop k s.

(** [s[0]]: raises IndexError on the empty string. *)
Definition first_char (s : string) : result ascii :=
  match s with
  | EmptyString => Raise IndexError
  | String c _ => Ok c
  end.

(** [s.replace(c, '')] for a one-character [c]: every occurrence goes. *)
Fixpoint remove_char (c : ascii) (s : string) : string :=
  match s with
  | EmptyString => EmptyString
  | String a r =>
      if Ascii.eqb a c then remove_char c r else String a (remove_char c r)
  end.

(** [s.split(sep)] for a one-character separator: always at least one field,
    empty fields are kept. *)
Fixpoint split (sep : ascii) (s : string) : list string :=
  match s with
  | EmptyString => [EmptyString]
  | String a r =>
      if Ascii.eqb a sep then EmptyString :: split sep r
      else match split sep r with
           | f :: fs => String a f :: fs
           | [] => [String a EmptyString]
           end
  end.

(** [l[i]] on a list: IndexError out of range (the script only uses
    non-negative literal indices). *)
Definition item {A : Type} (l : list A) (i : nat) : result A :=
  of_option IndexError (nth_error l i).

(** *** [int(s)]

    Base-10 conversion of a string: blanks are stripped at both ends, one
    sign is allowed, and what follows must be decimal digits, where single
    underscores may separate digits. Anything else raises ValueError.

    This is [int] on ASCII text. On other text Python also takes the
    decimal digits and the blanks of other scripts, which this model
    rejects; and recent interpreters refuse numbers of more than 4300
    digits, which this model, like the interpreters the script was written
    for, reads. *)

(** The code point of a character. *)
Definition ord (c : ascii) : Z := Z.of_N (N_of_ascii c).

(** The blanks [int] strips: tab, line feed, vertical tab, form feed,
    carriage return (9 to 13) and the space (32). *)
Definition is_space (c : ascii) : bool :=
  ((9 <=? ord c) && (ord c <=? 13)) || (ord c =? 32).

(** The value of a decimal digit: '0' is character 48, '9' is 57. *)
Definition digit_value (c : ascii) : option Z :=
  if (48 <=? ord c) && (ord c <=? 57) then Some (ord c - 48) else None.

Fixpoint lstrip (s : string) : string :=
  match s with
  | EmptyString => EmptyString
  | String c r => if is_space c then lstrip r else s
  end.

Definition strip (s : string) : string :=
  String.rev (lstrip (String.rev (lstrip s))).

(** The digits after the first one; [after_us] records that the previous
    character was an underscore. *)
Fixpoint int_digits (acc : Z) (after_us : bool) (s : string) : option Z :=
  match s with
  | EmptyString => if after_us then None else Some acc
  | String c r =>
      match digit_value c with
      | Some d => int_digits (10 * acc + d) false r
      | None =>
          if Ascii.eqb c "_" && negb after_us then int_digits acc true r
          else None
      end
  end.

Definition int_unsigned (s : string) : option Z :=
  match s with
  | EmptyString => None
  | String c r =>
      match digit_value c with
      | Some d => int_digits d false r
      | None => None
      end
  end.

Definition int_signed (s : string) : option Z :=
  match s with
  | EmptyString => None
  | String c r =>
      if Ascii.eqb c "-" then Z.opp <$> int_unsigned r
      else if Ascii.eqb c "+" then int_unsigned r
      else int_unsigned s
  end.

Definition int (s : string) : result Z :=
  of_option ValueError (int_signed (strip s)).

End Py.

(** ** Parsing and formatting *)

(** The euro sign that [formatAmount] appends, after a blank. *)
Definition euro_suffix : string := " €".

Definition formatAmount (amount : Z) : string :=
  if amount =? 0 then "0,00"%string
  else
    let amountStr := Py.str amount in
    Py.slice_until_neg 2 amountStr +:+ "," +:+
    Py.slice_from_neg 2 amountStr +:+ euro_suffix.

Definition parseAmount (amount : string) : result Z :=
  c ← Py.first_char amount;
  if Ascii.eqb c "-" then
    n ← Py.int (Py.remove_char "." (Py.remove_char "," (Py.slice_from 1 amount)));
    Ok (-1 * n)
  else
    Py.int (Py.remove_char "." (Py.remove_char "," amount)).

Definition parseAdvance (advance : string) : bool :=
  bool_decide (advance = "Y"%string).

(** ** The data model *)

(** One ledger line. [date] holds the value of [timestamp()*1000]; it is a
    whole number of milliseconds, kept here as an integer. *)
Record Transaction : Type := {
  movement : string;
  date : Z;
  info : string;
  amount : Z;
  name : string;
  event : string;
  concept : string;
  advance : bool;
  origin : string;
  comment : string
}.

(** What [calulcateGross] returns. *)
Record Gross : Type := {
  grossLoss : Z;
  grossProfit : Z;
  grossBalance : Z
}.

(** One entry of 'netLossConcepts': the dict with keys 'name' and 'amount'. *)
Module Concept.
Record t : Type := { name : string; amount : Z }.
End Concept.

(** What [calculateEvent] returns. *)
Record EventAggregate : Type := {
  transactionsProfit : list Transaction;
  transactionsLoss : list Transaction;
  caixaGross : Gross;
  paypalGross : Gross;
  totalGrossLoss : Z;
  totalGrossProfit : Z;
  totalGrossBalance : Z;
  netLossConcepts : list Concept.t;
  netLossTotal : Z
}.

(** ** Reading the ledger *)

(** [for ... in l] with a body that may raise: the state is threaded through
    the iterations and the first exception ends the loop. *)
Fixpoint for_each {S A : Type} (body : S -> A -> result S) (l : list A) (s : S)
  : result S :=
  match l with
  | [] => Ok s
  | x :: r => s' ← body s x; for_each body r s'
  end.

(** [next(it)] on the iterator over the lines of the file. *)
Definition next (inputFile : list string) : result (string * list string) :=
  match inputFile with
  | [] => Raise StopIteration
  | line :: rest => Ok (line, rest)
  end.

(** [x not in l] then [l.append(x)]. *)
Definition append_if_new (l : list string) (x : string) : list string :=
  if bool_decide (x ∉ l) then l ++ [x] else l.

Section Reading.

(** [parseDate] only wraps [datetime.strptime(date, '%d/%m/%Y')] and
    [timestamp()], library code outside the script: it is a parameter of
    the reader. *)
Variable parseDate : string -> result Z.

(** The dict built from one line, fields evaluated in the order of the
    source. *)
Definition parseLine (line : string) : result Transaction :=
  let dataArray := Py.split ";" (Py.slice_until_neg 1 line) in
  f_movement ← Py.item dataArray 0;
  f_date ← Py.item dataArray 1;
  v_date ← parseDate f_date;
  f_info ← Py.item dataArray 2;
  f_amount ← Py.item dataArray 3;
  v_amount ← parseAmount f_amount;
  f_name ← Py.item dataArray 4;
  f_event ← Py.item dataArray 5;
  f_concept ← Py.item dataArray 6;
  f_advance ← Py.item dataArray 7;
  f_origin ← Py.item dataArray 8;
  f_comment ← Py.item dataArray 9;
  Ok {| movement := f_movement; date := v_date; info := f_info;
        amount := v_amount; name := f_name; event := f_event;
        concept := f_concept; advance := parseAdvance f_advance;
        origin := f_origin; comment := f_comment |}.

(** The body of the loop over the data lines. *)
Definition parseTransactions_body
    (st : list Transaction * list string) (line : string)
  : result (list Transaction * list string) :=
  let '(transactions, eventNames) := st in
  transaction ← parseLine line;
  Ok (transactions ++ [transaction], append_if_new eventNames (event transaction)).

(** [inputFile] is the sequence of lines the open file yields, each with
    its line terminator when it has one. *)
Definition parseTransactions (inputFile : list string)
  : result (list Transaction * list string) :=
  '(_, inputFile) ← next inputFile;
  '(_, inputFile) ← next inputFile;
  for_each parseTransactions_body inputFile ([], []).

End Reading.

(** ** Aggregation *)

(** [reduce(f, l)] on a non-empty list. *)
Definition reduce {A : Type} (f : A -> A -> A) (l : list A) : option A :=
  match l with
  | [] => None
  | x :: r => Some (fold_left f r x)
  end.

Definition sumAmounts (transactions : list Transaction) : Z :=
  if (0 <? length transactions)%nat then
    default 0 (reduce (fun x y => x + y) (amount <$> transactions))
  else 0.

Definition calulcateGross
    (transactionsEventLoss transactionsEventProfit : list Transaction)
    (origin_ : string) : Gross :=
  let transactionsLoss :=
    filter (fun transaction => origin transaction = origin_) transactionsEventLoss in
  let transactionsProfit :=
    filter (fun transaction => origin transaction = origin_) transactionsEventProfit in
  let grossLoss := sumAmounts transactionsLoss in
  let grossProfit := sumAmounts transactionsProfit in
  let grossBalance := grossLoss + grossProfit in
  {| grossLoss := grossLoss;
     grossProfit := grossProfit;
     grossBalance := grossBalance |}.

Definition getEventConceptNames (transactions : list Transaction) : list string :=
  fold_left (fun conceptNames transaction =>
               append_if_new conceptNames (concept transaction))
            transactions [].

Definition calculateEventLossConcepts
    (conceptNames : list string) (transactionsLoss : list Transaction)
  : list Concept.t * Z :=
  fold_left
    (fun '(concepts, total) conceptName =>
       let transactionsLossConcept :=
         filter (fun t => concept t = conceptName /\ advance t = false)
                transactionsLoss in
       let amount := sumAmounts transactionsLossConcept in
       (concepts ++ [ {| Concept.name := conceptName; Concept.amount := amount |} ],
        total + amount))
    conceptNames ([], 0).

Definition calculateEvent (eventName : string) (transactions : list Transaction)
  : EventAggregate :=
  let transactionsEvent :=
    filter (fun transaction => event transaction = eventName) transactions in
  let transactionsEventLoss :=
    filter (fun transaction => amount transaction < 0) transactionsEvent in
  let transactionsEventProfit :=
    filter (fun transaction => amount transaction > 0) transactionsEvent in
  let caixaGross :=
    calulcateGross transactionsEventLoss transactionsEventProfit "CAIXA" in
  let paypalGross :=
    calulcateGross transactionsEventLoss transactionsEventProfit "PAYPAL" in
  let grossLoss_ := grossLoss caixaGross + grossLoss paypalGross in
  let grossProfit_ := grossProfit caixaGross + grossProfit paypalGross in
  let grossBalance_ := grossProfit_ + grossLoss_ in
  let conceptNames := getEventConceptNames transactionsEventLoss in
  let '(netLossConcepts, netLossTotal) :=
    calculateEventLossConcepts conceptNames transactionsEventLoss in
  {| transactionsProfit := transactionsEventProfit;
     transactionsLoss := transactionsEventLoss;
     caixaGross := caixaGross;
     paypalGross := paypalGross;
     totalGrossLoss := grossLoss_;
     totalGrossProfit := grossProfit_;
     totalGrossBalance := grossBalance_;
     netLossConcepts := netLossConcepts;
     netLossTotal := netLossTotal |}.

(** ** The summary sheet *)

(** The key of a worksheet cell: ['A'+str(i)]. *)
Definition cell (col : string) (i : Z) : string := col +:+ Py.str i.

Arguments cell : simpl never.

(** What the summary loops carry along: the cell values of the sheet, the
    current row and the three running totals. Styles and column widths do
    not touch a cell's value and are left out. *)
Record Summary : Type := {
  sheet : gmap string string;
  i : Z;
  totalCaixa : Z;
  totalPaypal : Z;
  total : Z
}.

(** [sheet[key] = value]. *)
Definition setCell (key value : string) (st : Summary) : Summary :=
  {| sheet := <[key := value]> (sheet st);
     i := i st;
     totalCaixa := totalCaixa st;
     totalPaypal := totalPaypal st;
     total := total st |}.

(** [i += k]. *)
Definition skipRows (k : Z) (st : Summary) : Summary :=
  {| sheet := sheet st;
     i := i st + k;
     totalCaixa := totalCaixa st;
     totalPaypal := totalPaypal st;
     total := total st |}.

(** [balances[eventName]]. *)
Definition getBalance (balances : gmap string EventAggregate) (eventName : string)
  : result EventAggregate :=
  of_option KeyError (balances !! eventName).

(** The body shared by the three loops of [writeEvents]: one row for the
    event, and its three gross balances added to the running totals. *)
Definition writeEventRow (balances : gmap string EventAggregate)
    (st : Summary) (eventName : string) : result Summary :=
  let st := setCell (cell "A" (i st)) eventName st in
  b ← getBalance balances eventName;
  let st := setCell (cell "B" (i st)) (formatAmount (grossBalance (caixaGross b))) st in
  let st := setCell (cell "C" (i st)) (formatAmount (grossBalance (paypalGross b))) st in
  let st := setCell (cell "D" (i st)) (formatAmount (totalGrossBalance b)) st in
  Ok {| sheet := sheet st;
        i := i st + 1;
        totalCaixa := totalCaixa st + grossBalance (caixaGross b);
        totalPaypal := totalPaypal st + grossBalance (paypalGross b);
        total := total st + totalGrossBalance b |}.

(** A loop over the event names that writes the rows of those passing the
    test [keep]. *)
Definition writeSection (keep : string -> bool)
    (balances : gmap string EventAggregate) (eventNames : list string)
    (st : Summary) : result Summary :=
  for_each (fun st eventName =>
              if keep eventName then writeEventRow balances st eventName
              else Ok st)
           eventNames st.

(** A row with the three running totals, under the label in column A. *)
Definition writeTotals (label : string) (st : Summary) : Summary :=
  let st := setCell (cell "A" (i st)) label st in
  let st := setCell (cell "B" (i st)) (formatAmount (totalCaixa st)) st in
  let st := setCell (cell "C" (i st)) (formatAmount (totalPaypal st)) st in
  setCell (cell "D" (i st)) (formatAmount (total st)) st.

(** The three membership tests of the loops. *)
Definition isOrdinary (taxNames grantNames : list string) (eventName : string) : bool :=
  bool_decide (eventName ∉ taxNames) && bool_decide (eventName ∉ grantNames).

Definition isGrant (grantNames : list string) (eventName : string) : bool :=
  bool_decide (eventName ∈ grantNames).

Definition isTax (taxNames : list string) (eventName : string) : bool :=
  bool_decide (eventName ∈ taxNames).

(** [writeEvents] down to the 'Net Total' row. *)
Definition writeEventsTotals (eventNames : list string)
    (balances : gmap string EventAggregate) (sheet0 : gmap string string)
    (taxNames grantNames : list string) : result Summary :=
  let st := {| sheet := sheet0; i := 2; totalCaixa := 0; totalPaypal := 0; total := 0 |} in
  let st := setCell "A1" "Events" st in
  let st := setCell "B1" "Caixa" st in
  let st := setCell "C1" "Paypal" st in
  let st := setCell "D1" "Total" st in
  st ← writeSection (isOrdinary taxNames grantNames) balances eventNames st;
  let st := skipRows 2 st in
  let st := setCell (cell "A" (i st)) "Grants" st in
  let st := skipRows 1 st in
  st ← writeSection (isGrant grantNames) balances eventNames st;
  let st := skipRows 2 st in
  let st := writeTotals "Gross Total" st in
  let st := skipRows 2 st in
  let st := setCell (cell "A" (i st)) "Taxes" st in
  let st := skipRows 1 st in
  st ← writeSection (isTax taxNames) balances eventNames st;
  let st := skipRows 2 st in
  Ok (writeTotals "Net Total" st).

(** The liquidity block that ends [writeEvents]; the four balances are the
    integers read from the console. *)
Definition writeLiquidity (initialBank finalBank initialPaypal finalPaypal : Z)
    (st : Summary) : Summary :=
  let st := skipRows 4 st in
  let st := setCell (cell "B" (i st)) "Caixa" st in
  let st := setCell (cell "C" (i st)) "Paypal" st in
  let st := setCell (cell "D" (i st)) "Total" st in
  let st := skipRows 1 st in
  let st := setCell (cell "A" (i st)) "Initial liquidity" st in
  let st := setCell (cell "B" (i st)) (formatAmount initialBank) st in
  let st := setCell (cell "C" (i st)) (formatAmount initialPaypal) st in
  let st := setCell (cell "D" (i st)) (formatAmount (initialPaypal + initialBank)) st in
  let st := skipRows 1 st in
  let st := setCell (cell "A" (i st)) "Final liquidity" st in
  let st := setCell (cell "B" (i st)) (formatAmount finalBank) st in
  let st := setCell (cell "C" (i st)) (formatAmount finalPaypal) st in
  let st := setCell (cell "D" (i st)) (formatAmount (finalPaypal + finalBank)) st in
  let st := skipRows 1 st in
  let st := setCell (cell "A" (i st)) "Theoretical difference" st in
  let st := setCell (cell "B" (i st)) (formatAmount (finalBank - initialBank)) st in
  let st := setCell (cell "C" (i st)) (formatAmount (finalPaypal - initialPaypal)) st in
  let st := setCell (cell "D" (i st))
              (formatAmount (finalPaypal + finalBank - initialBank - initialPaypal)) st in
  let st := skipRows 1 st in
  writeTotals "Real difference" st.

Definition writeEvents (eventNames : list string)
    (balances : gmap string EventAggregate) (sheet0 : gmap string string)
    (taxNames grantNames : list string)
    (initialBank finalBank initialPaypal finalPaypal : Z)
  : result (gmap string string) :=
  st ← writeEventsTotals eventNames balances sheet0 taxNames grantNames;
  Ok (sheet (writeLiquidity initialBank finalBank initialPaypal finalPaypal st)).

(** The dict [balances] that the main block fills, one entry per event
    name, each as [calculateEvent] returns it. ([printTrans] later sorts
    the two transaction lists of an entry by date, in place; the figures
    are not touched.) *)
Definition calculateBalances (eventNames : list string)
    (transactions : list Transaction) : gmap string EventAggregate :=
  fold_left (fun balances eventName =>
               <[eventName := calculateEvent eventName transactions]> balances)
            eventNames ∅.

(** ** A date reader to run the ledger reader on concrete lines *)

(** Every character of the string passes the test. *)
Fixpoint all_chars (P : ascii -> bool) (s : string) : bool :=
  match s with
  | EmptyString => true
  | String c r => P c && all_chars P r
  end.

(** Some character of the string passes the test. *)
Fixpoint has_char (P : ascii -> bool) (s : string) : bool :=
  match s with
  | EmptyString => false
  | String c r => P c || has_char P r
  end.

(** The decimal digits, each at the place of its value, and the blanks:
    tab, line feed, vertical tab, form feed, carriage return and space. *)
Definition decimal_chars : list ascii :=
  ["0"; "1"; "2"; "3"; "4"; "5"; "6"; "7"; "8"; "9"]%char.

Definition blank_chars : list ascii :=
  ["009"; "010"; "011"; "012"; "013"; " "]%char.

Definition is_digit (c : ascii) : bool := bool_decide (c ∈ decimal_chars).

Definition is_blank (c : ascii) : bool := bool_decide (c ∈ blank_chars).

(** The place of a character in a list, counted from 0. *)
Fixpoint place_in (l : list ascii) (c : ascii) : option nat :=
  match l with
  | [] => None
  | d :: r => if Ascii.eqb d c then Some 0%nat else S <$> place_in r c
  end.

(** The value of a decimal digit: its place among the digits (0 for any
    other character). *)
Definition digit_place (c : ascii) : Z :=
  default 0 (Z.of_nat <$> place_in decimal_chars c).

(** The characters of a string that pass the test. *)
Fixpoint keep_chars (P : ascii -> bool) (s : string) : string :=
  match s with
  | EmptyString => EmptyString
  | String c r => if P c then String c (keep_chars P r) else keep_chars P r
  end.

Definition all_digits (s : string) : bool := all_chars is_digit s.

(** The number a string of decimal digits denotes, digit by digit with its
    power of ten. *)
Fixpoint decimal_value (s : string) : Z :=
  match s with
  | EmptyString => 0
  | String c r =>
      digit_place c * 10 ^ Z.of_nat (String.length r) + decimal_value r
  end.

Definition is_leap (y : Z) : bool :=
  (y mod 4 =? 0) && (negb (y mod 100 =? 0) || (y mod 400 =? 0)).

Definition days_in_month (y m : Z) : Z :=
  if m =? 2 then (if is_leap y then 29 else 28)
  else if (m =? 4) || (m =? 6) || (m =? 9) || (m =? 11) then 30
  else 31.

(** Days from 1970-01-01 to the given day of the proleptic Gregorian
    calendar. *)
Definition days_from_civil (y m d : Z) : Z :=
  let y' := if m <=? 2 then y - 1 else y in
  let era := y' / 400 in
  let yoe := y' - era * 400 in
  let mp := (m + 9) mod 12 in
  let doy := (153 * mp + 2) / 5 + d - 1 in
  let doe := yoe * 365 + yoe / 4 - yoe / 100 + doy in
  era * 146097 + doe - 719468.

(** Modelled from the spec: [datetime.strptime] and [timestamp()], which
    [parseDate] wraps, are library code that is not in the repository. This
    reader follows the spec's words for [parseDate], "text in
    day/month/4-digit-year format; fails with a FormatError if unparsable",
    and takes the day at midnight UTC. The theorems about the ledger reader
    hold for any date reader; this one instantiates them on concrete
    ledgers. *)
Definition parseDate_dmy (date : string) : result Z :=
  match Py.split "/" date with
  | [d; m; y] =>
      if all_digits d && all_digits m && all_digits y
         && bool_decide (1 <= String.length d <= 2)%nat
         && bool_decide (1 <= String.length m <= 2)%nat
         && bool_decide (String.length y = 4)%nat
      then
        let dv := decimal_value d in
        let mv := decimal_value m in
        let yv := decimal_value y in
        if (1 <=? yv) && (1 <=? mv) && (mv <=? 12)
           && (1 <=? dv) && (dv <=? days_in_month yv mv)
        then Ok (days_from_civil yv mv dv * 86400000)
        else Raise ValueError
      else Raise ValueError
  | _ => Raise ValueError
  end.

(** ** Vocabulary of the statements *)

(** The sum of a list of integers. *)
Definition sumZ (l : list Z) : Z := foldr Z.add 0 l.

(** The elements of a list, each kept at its first occurrence only. *)
Fixpoint first_occurrences (l : list string) : list string :=
  match l with
  | [] => []
  | x :: r => x :: filter (fun y => y <> x) (first_occurrences r)
  end.

(** The two payment channels that [calculateEvent] adds up. *)
Definition isChannel (o : string) : Prop := o = "CAIXA"%string \/ o = "PAYPAL"%string.

#[global] Instance isChannel_dec o : Decision (isChannel o).
Proof. unfold isChannel. apply _. Defined.

(** The distinct event names of a list of transactions, accumulated the
    way the reading loop does it. *)
Definition eventNamesOf (transactions : list Transaction) : list string :=
  fold_left append_if_new (event <$> transactions) [].

(** What the claims require of the three figures of a [Gross] record. *)
Definition gross_consistent (g : Gross) : Prop :=
  grossBalance g = grossLoss g + grossProfit g /\ grossLoss g <= 0 /\ 0 <= grossProfit g.

(** A transaction with the given amount, origin and event, the other
    fields taken from [t]. *)
Definition with_amount_origin_event (t : Transaction) (a : Z) (o e : string)
  : Transaction :=
  {| movement := movement t; date := date t; info := info t; amount := a;
     name := name t; event := e; concept := concept t; advance := advance t;
     origin := o; comment := comment t |}.

(** ** Vocabulary for amounts *)

(** The separators of an amount: the comma and the dot. *)
Definition is_separator (c : ascii) : bool := Ascii.eqb c "," || Ascii.eqb c ".".

(** The amount without its commas and dots, every one of them. *)
Definition unseparated (s : string) : string :=
  keep_chars (fun c => negb (is_separator c)) s.

(** The amount without the leading '-' that [parseAmount] takes off. *)
Definition amount_body (s : string) : string :=
  match s with
  | EmptyString => EmptyString
  | String c r => if Ascii.eqb c "-" then r else s
  end.

(** The characters [int] can accept somewhere in its argument: digits, the
    two signs, the underscore and blanks. *)
Definition int_char (c : ascii) : bool :=
  is_digit c || Ascii.eqb c "+" || Ascii.eqb c "-" || Ascii.eqb c "_" || Py.is_space c.

(** The characters allowed after the first digit of a number. *)
Definition digit_or_underscore (c : ascii) : bool := is_digit c || Ascii.eqb c "_".

(** A run of decimal digits, at least one. *)
Definition digit_run (s : string) : Prop := s <> ""%string /\ all_digits s = true.

(** Runs of digits joined by single underscores: "12", "1_000", "1_2_3". *)
Inductive digit_groups : string -> Prop :=
  | digit_groups_one (g : string) : digit_run g -> digit_groups g
  | digit_groups_more (g r : string) :
      digit_run g -> digit_groups r -> digit_groups (g +:+ "_" +:+ r).

(** The text of an integer as Python's [int] takes it, with the integer it
    denotes: runs of digits joined by single underscores, behind at most
    one sign, with blanks allowed before the sign and after the last digit
    and nowhere else; the integer is the number that the digits denote,
    negated behind a '-'. *)
Definition int_text (s : string) (v : Z) : Prop :=
  exists lead sign body trail,
    s = lead +:+ sign +:+ body +:+ trail /\
    all_chars is_blank lead = true /\
    all_chars is_blank trail = true /\
    (sign = ""%string \/ sign = "+"%string \/ sign = "-"%string) /\
    digit_groups body /\
    v = (if decide (sign = "-"%string) then -1 else 1)
        * decimal_value (keep_chars is_digit body).

(** The amount starts with the '-' that [parseAmount] looks for. *)
Definition leading_minus (s : string) : bool :=
  match s with
  | String c _ => Ascii.eqb c "-"
  | EmptyString => false
  end.

(** A character of the ASCII set, and a text made of such characters. *)
Definition is_ascii (c : ascii) : bool := (N_of_ascii c <? 128)%N.

Definition ascii_text (s : string) : bool := all_chars is_ascii s.

(** The cents values the round-trip claim names. *)
Definition representative_cents : list Z := [1; -1; 99; 100; 12345; -12345].

(** ** Vocabulary for the ledger reader *)

(** The transaction that the ten leading fields of a line make, once the
    date and the amount are read. *)
Definition transaction_of_fields
    (f0 f2 f4 f5 f6 f7 f8 f9 : string) (d a : Z) : Transaction :=
  {| movement := f0; date := d; info := f2; amount := a; name := f4;
     event := f5; concept := f6; advance := parseAdvance f7;
     origin := f8; comment := f9 |}.

(** A string with one more character at its end. *)
Definition snoc_char (s : string) (c : ascii) : string := s +:+ String c EmptyString.

(** The line terminator, and a line closed by it. *)
Definition newline : ascii := "010"%char.

Definition terminated (s : string) : string := snoc_char s newline.

(** ** Vocabulary for the summary sheet *)

Definition caixaBalance (b : EventAggregate) : Z := grossBalance (caixaGross b).

Definition paypalBalance (b : EventAggregate) : Z := grossBalance (paypalGross b).

(** The sum of one figure over a list of event names. *)
Definition sumOver (f : EventAggregate -> Z) (agg : string -> EventAggregate)
    (names : list string) : Z :=
  sumZ ((fun e => f (agg e)) <$> names).

(** Row [r] of the sheet is the row of event [e] with aggregate [b]. *)
Definition row_holds (sh : gmap string string) (r : Z) (e : string)
    (b : EventAggregate) : Prop :=
  sh !! cell "A" r = Some e /\
  sh !! cell "B" r = Some (formatAmount (caixaBalance b)) /\
  sh !! cell "C" r = Some (formatAmount (paypalBalance b)) /\
  sh !! cell "D" r = Some (formatAmount (totalGrossBalance b)).

(** Row [r] of the sheet is a row of totals under a label. *)
Definition totals_row (sh : gmap string string) (r : Z) (label : string)
    (caixa paypal all : Z) : Prop :=
  sh !! cell "A" r = Some label /\
  sh !! cell "B" r = Some (formatAmount caixa) /\
  sh !! cell "C" r = Some (formatAmount paypal) /\
  sh !! cell "D" r = Some (formatAmount all).

(** How many of the three loops of [writeEvents] take an event name. *)
Definition times_counted (taxNames grantNames : list string) (e : string) : Z :=
  (if isOrdinary taxNames grantNames e then 1 else 0)
  + (if isGrant grantNames e then 1 else 0)
  + (if isTax taxNames e then 1 else 0).

(** The sum of one figure over the event names, each as many times as the
    loops take it. *)
Definition sumCounted (taxNames grantNames : list string)
    (f : EventAggregate -> Z) (agg : string -> EventAggregate)
    (names : list string) : Z :=
  sumZ ((fun e => times_counted taxNames grantNames e * f (agg e)) <$> names).

(** The event names each loop of [writeEvents] takes, in the order of
    [eventNames]. *)
Definition ordinaryEvents (taxNames grantNames eventNames : list string) : list string :=
  filter (fun e => isOrdinary taxNames grantNames e = true) eventNames.

Definition grantEvents (grantNames eventNames : list string) : list string :=
  filter (fun e => isGrant grantNames e = true) eventNames.

Definition taxEvents (taxNames eventNames : list string) : list string :=
  filter (fun e => isTax taxNames e = true) eventNames.

(** The layout of the summary sheet. The rows of the ordinary events start
    at row 2; the 'Grants' header follows two rows below the last of them,
    then the rows of the grants; 'Gross Total' stands two rows below, with
    the sums over the ordinary events and the grants; then the 'Taxes'
    header, the rows of the taxes, and 'Net Total' with the sums over the
    three sections. *)
Definition summary_layout (taxNames grantNames eventNames : list string)
    (agg : string -> EventAggregate) (sh : gmap string string) : Prop :=
  let ordinary := ordinaryEvents taxNames grantNames eventNames in
  let grants := grantEvents grantNames eventNames in
  let taxes := taxEvents taxNames eventNames in
  let n_o := Z.of_nat (length ordinary) in
  let n_g := Z.of_nat (length grants) in
  let n_t := Z.of_nat (length taxes) in
  (forall k e, ordinary !! k = Some e -> row_holds sh (2 + Z.of_nat k) e (agg e)) /\
  sh !! cell "A" (4 + n_o) = Some "Grants"%string /\
  (forall k e, grants !! k = Some e -> row_holds sh (5 + n_o + Z.of_nat k) e (agg e)) /\
  totals_row sh (7 + n_o + n_g) "Gross Total"
    (sumOver caixaBalance agg ordinary + sumOver caixaBalance agg grants)
    (sumOver paypalBalance agg ordinary + sumOver paypalBalance agg grants)
    (sumOver totalGrossBalance agg ordinary + sumOver totalGrossBalance agg grants) /\
  sh !! cell "A" (9 + n_o + n_g) = Some "Taxes"%string /\
  (forall k e, taxes !! k = Some e ->
     row_holds sh (10 + n_o + n_g + Z.of_nat k) e (agg e)) /\
  totals_row sh (12 + n_o + n_g + n_t) "Net Total"
    (sumOver caixaBalance agg ordinary + sumOver caixaBalance agg grants
     + sumOver caixaBalance agg taxes)
    (sumOver paypalBalance agg ordinary + sumOver paypalBalance agg grants
     + sumOver paypalBalance agg taxes)
    (sumOver totalGrossBalance agg ordinary + sumOver totalGrossBalance agg grants
     + sumOver totalGrossBalance agg taxes).

(** ** A small ledger to run the summary on *)

Definition demo_transaction (e : string) (a : Z) (o : string) : Transaction :=
  {| movement := "1"; date := 1672617600000; info := ""; amount := a;
     name := "n"; event := e; concept := "c"; advance := false;
     origin := o; comment := "" |}.

Definition demo_transactions : list Transaction :=
  [ demo_transaction "Gala" (-1000) "CAIXA";
    demo_transaction "Gala" 500 "PAYPAL";
    demo_transaction "Subsidy" 30000 "CAIXA";
    demo_transaction "IVA" (-2100) "CAIXA" ].

Definition demo_eventNames : list string := eventNamesOf demo_transactions.

Definition demo_balances : gmap string EventAggregate :=
  calculateBalances demo_eventNames demo_transactions.

Definition demo_agg (e : string) : EventAggregate :=
  calculateEvent e demo_transactions.

(** ** Vocabulary for formatted amounts *)

(** The character of a decimal digit. *)
Definition digit_char (d : Z) : ascii := ascii_of_N (Z.to_N (48 + d)).

(** A number below 100 written with two digits. *)
Definition two_digits (n : Z) : string :=
  String (digit_char (n / 10)) (String (digit_char (n mod 10)) EmptyString).

(** ** Vocabulary for the aggregates *)

(** The aggregate of an event without transactions. *)
Definition empty_aggregate : EventAggregate :=
  {| transactionsProfit := [];
     transactionsLoss := [];
     caixaGross := {| grossLoss := 0; grossProfit := 0; grossBalance := 0 |};
     paypalGross := {| grossLoss := 0; grossProfit := 0; grossBalance := 0 |};
     totalGrossLoss := 0;
     totalGrossProfit := 0;
     totalGrossBalance := 0;
     netLossConcepts := [];
     netLossTotal := 0 |}.

(** A ledger of one event with a loss paid in advance. *)
Definition demo_advance_transactions : list Transaction :=
  [ demo_transaction "Gala" (-1000) "CAIXA";
    {| movement := "2"; date := 1672704000000; info := ""; amount := -500;
       name := "n"; event := "Gala"; concept := "c"; advance := true;
       origin := "PAYPAL"; comment := "" |} ].

(** ** The loss and profit sheet *)

(** What the loops of [writeLossProfit] carry along: the cell values of
    the sheet, the current row and the two running totals. *)
Module LossProfit.

Record t : Type := {
  sheet : gmap string string;
  i : Z;
  totalProfit : Z;
  totalLoss : Z
}.

(** [sheet[key] = value]. *)
Definition setCell (key value : string) (st : t) : t :=
  {| sheet := <[key := value]> (sheet st);
     i := i st;
     totalProfit := totalProfit st;
     totalLoss := totalLoss st |}.

(** [i += k]. *)
Definition skipRows (k : Z) (st : t) : t :=
  {| sheet := sheet st;
     i := i st + k;
     totalProfit := totalProfit st;
     totalLoss := totalLoss st |}.

(** [totalProfit += x]. *)
Definition addProfit (x : Z) (st : t) : t :=
  {| sheet := sheet st;
     i := i st;
     totalProfit := totalProfit st + x;
     totalLoss := totalLoss st |}.

(** [totalLoss += x]. *)
Definition addLoss (x : Z) (st : t) : t :=
  {| sheet := sheet st;
     i := i st;
     totalProfit := totalProfit st;
     totalLoss := totalLoss st + x |}.

(** The body of a loop of [writeLossProfit]: a row with the event name and
    one figure of its aggregate, which is added to one of the totals. *)
Definition writeFigureRow (figure : EventAggregate -> Z) (add : Z -> t -> t)
    (balances : gmap string EventAggregate) (st : t) (eventName : string)
  : result t :=
  let st := setCell (cell "A" (i st)) eventName st in
  b ← getBalance balances eventName;
  let st := setCell (cell "B" (i st)) (formatAmount (figure b)) st in
  let st := add (figure b) st in
  Ok (skipRows 1 st).

(** A loop over the event names that writes the rows of those passing the
    test [keep]. *)
Definition writeFigures (keep : string -> bool) (figure : EventAggregate -> Z)
    (add : Z -> t -> t) (balances : gmap string EventAggregate)
    (eventNames : list string) (st : t) : result t :=
  for_each (fun st eventName =>
              if keep eventName then writeFigureRow figure add balances st eventName
              else Ok st)
           eventNames st.

(** A row with a label in column A and a text in column B. *)
Definition writeRow (label value : string) (st : t) : t :=
  let st := setCell (cell "A" (i st)) label st in
  setCell (cell "B" (i st)) value st.

End LossProfit.

Definition writeLossProfit (eventNames : list string)
    (balances : gmap string EventAggregate) (sheet0 : gmap string string)
    (taxNames grantNames : list string) : result (gmap string string) :=
  let st := {| LossProfit.sheet := sheet0; LossProfit.i := 2;
               LossProfit.totalProfit := 0; LossProfit.totalLoss := 0 |} in
  let st := LossProfit.setCell "A1" "Net Import [255]" st in
  let st := LossProfit.setCell "B1" "Sells [256]" st in
  st ← LossProfit.writeFigures (isOrdinary taxNames grantNames) totalGrossProfit
          LossProfit.addProfit balances eventNames st;
  let st := LossProfit.skipRows 1 st in
  let st := LossProfit.writeRow "Other incomes [265]" "Grants" st in
  let st := LossProfit.skipRows 1 st in
  st ← LossProfit.writeFigures (isGrant grantNames) totalGrossProfit
          LossProfit.addProfit balances eventNames st;
  let st := LossProfit.skipRows 1 st in
  let st := LossProfit.writeRow "Income Total"
              (formatAmount (LossProfit.totalProfit st)) st in
  let st := LossProfit.skipRows 3 st in
  let st := LossProfit.writeRow "Other expenses [279]" "Expenses" st in
  let st := LossProfit.skipRows 1 st in
  st ← LossProfit.writeFigures (isOrdinary taxNames grantNames) totalGrossLoss
          LossProfit.addLoss balances eventNames st;
  let st := LossProfit.skipRows 1 st in
  let st := LossProfit.writeRow "Loss Total"
              (formatAmount (LossProfit.totalLoss st)) st in
  let st := LossProfit.skipRows 2 st in
  let st := LossProfit.writeRow "Result before tax [325]"
              (formatAmount (LossProfit.totalProfit st + LossProfit.totalLoss st)) st in
  let st := LossProfit.skipRows 2 st in
  let st := LossProfit.writeRow "Taxes" "Expenses" st in
  let st := LossProfit.skipRows 1 st in
  st ← LossProfit.writeFigures (isTax taxNames) totalGrossBalance
          LossProfit.addLoss balances eventNames st;
  let st := LossProfit.skipRows 2 st in
  let st := LossProfit.writeRow "Account Result"
              (formatAmount (LossProfit.totalProfit st + LossProfit.totalLoss st)) st in
  Ok (LossProfit.sheet st).

(** A row of the loss and profit sheet: a label and an amount. *)
Definition figure_row (sh : gmap string string) (r : Z) (label : string) (x : Z)
  : Prop :=
  sh !! cell "A" r = Some label /\ sh !! cell "B" r = Some (formatAmount x).

(** The layout of the loss and profit sheet. The profits of the ordinary
    events start at row 2; the profits of the grants follow under their
    header, then 'Income Total'; three rows below, under a header, the
    losses of the ordinary events and 'Loss Total'; then 'Result before
    tax [325]', the balances of the taxes under their header, and 'Account
    Result'. *)
Definition loss_profit_layout (taxNames grantNames eventNames : list string)
    (agg : string -> EventAggregate) (sh : gmap string string) : Prop :=
  let ordinary := ordinaryEvents taxNames grantNames eventNames in
  let grants := grantEvents grantNames eventNames in
  let taxes := taxEvents taxNames eventNames in
  let n_o := Z.of_nat (length ordinary) in
  let n_g := Z.of_nat (length grants) in
  let n_t := Z.of_nat (length taxes) in
  let income := sumOver totalGrossProfit agg ordinary
                + sumOver totalGrossProfit agg grants in
  let loss := sumOver totalGrossLoss agg ordinary in
  (forall k e, ordinary !! k = Some e ->
     figure_row sh (2 + Z.of_nat k) e (totalGrossProfit (agg e))) /\
  (sh !! cell "A" (3 + n_o) = Some "Other incomes [265]"%string /\
   sh !! cell "B" (3 + n_o) = Some "Grants"%string) /\
  (forall k e, grants !! k = Some e ->
     figure_row sh (4 + n_o + Z.of_nat k) e (totalGrossProfit (agg e))) /\
  figure_row sh (5 + n_o + n_g) "Income Total" income /\
  (sh !! cell "A" (8 + n_o + n_g) = Some "Other expenses [279]"%string /\
   sh !! cell "B" (8 + n_o + n_g) = Some "Expenses"%string) /\
  (forall k e, ordinary !! k = Some e ->
     figure_row sh (9 + n_o + n_g + Z.of_nat k) e (totalGrossLoss (agg e))) /\
  figure_row sh (10 + 2 * n_o + n_g) "Loss Total" loss /\
  figure_row sh (12 + 2 * n_o + n_g) "Result before tax [325]" (income + loss) /\
  (sh !! cell "A" (14 + 2 * n_o + n_g) = Some "Taxes"%string /\
   sh !! cell "B" (14 + 2 * n_o + n_g) = Some "Expenses"%string) /\
  (forall k e, taxes !! k = Some e ->
     figure_row sh (15 + 2 * n_o + n_g + Z.of_nat k) e (totalGrossBalance (agg e))) /\
  figure_row sh (17 + 2 * n_o + n_g + n_t) "Account Result"
    (income + loss + sumOver totalGrossBalance agg taxes).

(** The row of the 'Net Total' in the summary sheet and the row of the
    'Account Result' in the loss and profit sheet. *)
Definition net_total_row (taxNames grantNames eventNames : list string) : Z :=
  12 + Z.of_nat (length (ordinaryEvents taxNames grantNames eventNames))
  + Z.of_nat (length (grantEvents grantNames eventNames))
  + Z.of_nat (length (taxEvents taxNames eventNames)).

Definition account_result_row (taxNames grantNames eventNames : list string) : Z :=
  17 + 2 * Z.of_nat (length (ordinaryEvents taxNames grantNames eventNames))
  + Z.of_nat (length (grantEvents grantNames eventNames))
  + Z.of_nat (length (taxEvents taxNames eventNames)).

(** ** The net-loss block of an event sheet *)

(** The body of the loop of the main block over 'netLossConcepts': a
    concept with an amount other than 0 gets the next row, in columns L and
    M. The state is the sheet and the row [i]. *)
Definition writeConceptRow (st : gmap string string * Z) (netLossConcept : Concept.t)
  : gmap string string * Z :=
  let '(sheet, i) := st in
  if decide (Concept.amount netLossConcept <> 0) then
    let sheet := <[cell "L" i := Concept.name netLossConcept]> sheet in
    let sheet := <[cell "M" i := formatAmount (Concept.amount netLossConcept)]> sheet in
    (sheet, i + 1)
  else (sheet, i).

(** The net-loss block that the main block writes on the sheet of an
    event: the rows of the concepts from row 8 on, and the 'Total' row
    below them. *)
Definition writeNetLoss (balance : EventAggregate) (sheet0 : gmap string string)
  : gmap string string :=
  let '(sheet, i) := fold_left writeConceptRow (netLossConcepts balance) (sheet0, 8) in
  let sheet := <[cell "L" i := "Total"%string]> sheet in
  <[cell "M" i := formatAmount (netLossTotal balance)]> sheet.

(** The loss of a concept that the event bore itself: the sum of the
    amounts of the loss transactions of the concept that are not
    advances. *)
Definition ownLoss (loss : list Transaction) (c : string) : Z :=
  sumZ (amount <$> filter (fun t => concept t = c /\ advance t = false) loss).

(** The concepts with a loss transaction that is not an advance, in the
    order of their first occurrence among the loss transactions. *)
Definition ownConcepts (loss : list Transaction) : list string :=
  filter (fun c => Exists (fun t => concept t = c /\ advance t = false) loss)
         (first_occurrences (concept <$> loss)).

(** ** The transaction rows of an event sheet *)

(** [transactions.sort(key=lambda t: t['date'])]. The built-in sort is
    ascending and stable: transactions with the same date keep their
    order. A transaction is put before the first of the ones after it
    whose date is not below its own. *)
Fixpoint insert_by_date (t : Transaction) (l : list Transaction) : list Transaction :=
  match l with
  | [] => [t]
  | u :: r => if date t <=? date u then t :: u :: r else u :: insert_by_date t r
  end.

Definition sort_by_date (l : list Transaction) : list Transaction :=
  foldr insert_by_date [] l.

(** The five column letters [c1] to [c5] of [printTrans]. *)
Record PrintColumns : Type := {
  c1 : string; c2 : string; c3 : string; c4 : string; c5 : string
}.

Definition printColumns (col : string) : PrintColumns :=
  if decide (col = "A"%string)
  then {| c1 := "A"; c2 := "B"; c3 := "C"; c4 := "D"; c5 := "E" |}
  else {| c1 := "F"; c2 := "G"; c3 := "H"; c4 := "I"; c5 := "J" |}.

Section PrintTrans.

(** [formatDate] wraps [datetime.fromtimestamp] and [strftime], library
    code that is not in the repository: the rows are written for any date
    formatter. *)
Variable formatDate : Z -> result string.

(** The body of the loop of [printTrans]; the state is the sheet and the
    row [i]. *)
Definition printRow (cols : PrintColumns) (st : gmap string string * Z)
    (transaction : Transaction) : result (gmap string string * Z) :=
  let '(sheet, i) := st in
  let sheet := <[cell (c1 cols) i := name transaction]> sheet in
  let sheet := <[cell (c2 cols) i := concept transaction]> sheet in
  d ← formatDate (date transaction);
  let sheet := <[cell (c3 cols) i := d]> sheet in
  let sheet := <[cell (c4 cols) i := formatAmount (amount transaction)]> sheet in
  let sheet := <[cell (c5 cols) i := comment transaction]> sheet in
  Ok (sheet, i + 1).

(** [printTrans] sorts the list it is given in place: the result is the
    list as the caller sees it afterwards, and the sheet. *)
Definition printTrans (transactions : list Transaction) (col : string)
    (sheet : gmap string string)
  : result (list Transaction * gmap string string) :=
  let transactions := sort_by_date transactions in
  let cols := printColumns col in
  st ← for_each (printRow cols) transactions (sheet, 3);
  Ok (transactions, fst st).

End PrintTrans.

(** A list of transactions in the order of their dates. *)
Fixpoint by_date (l : list Transaction) : Prop :=
  match l with
  | [] => True
  | t :: r => Forall (fun u => date t <= date u) r /\ by_date r
  end.

(** Row [r] of the sheet is the row of transaction [t] in the columns
    [cols], with the date shown as [d]. *)
Definition transaction_row (sh : gmap string string) (cols : PrintColumns) (r : Z)
    (t : Transaction) (d : string) : Prop :=
  sh !! cell (c1 cols) r = Some (name t) /\
  sh !! cell (c2 cols) r = Some (concept t) /\
  sh !! cell (c3 cols) r = Some d /\
  sh !! cell (c4 cols) r = Some (formatAmount (amount t)) /\
  sh !! cell (c5 cols) r = Some (comment t).

(** The day of the proleptic Gregorian calendar that lies the given number
    of days after 1970-01-01, as year, month and day. *)
Definition civil_from_days (days : Z) : Z * Z * Z :=
  let z := days + 719468 in
  let era := z / 146097 in
  let doe := z - era * 146097 in
  let yoe := (doe - doe / 1460 + doe / 36524 - doe / 146096) / 365 in
  let doy := doe - (365 * yoe + yoe / 4 - yoe / 100) in
  let mp := (5 * doy + 2) / 153 in
  let d := doy - (153 * mp + 2) / 5 + 1 in
  let m := if mp <? 10 then mp + 3 else mp - 9 in
  let y := yoe + era * 400 + (if m <=? 2 then 1 else 0) in
  (y, m, d).

(** Modelled from the library's documentation: a date formatter for the
    pattern of [formatDate], day/month/year, that takes the timestamp in
    milliseconds at UTC. The theorems about [printTrans] hold for any date
    formatter; this one instantiates them on concrete ledgers. *)
Definition formatDate_utc (date : Z) : result string :=
  let '(y, m, d) := civil_from_days (date / 86400000) in
  Ok (two_digits d +:+ "/" +:+ two_digits m +:+ "/" +:+ Py.str y).

(** Two loss transactions of one day and an earlier one between them. *)
Definition demo_dated_transactions : list Transaction :=
  [ {| movement := "1"; date := 1672617600000; info := ""; amount := -1000;
       name := "Ann"; event := "Gala"; concept := "Food"; advance := false;
       origin := "CAIXA"; comment := "first" |};
    {| movement := "2"; date := 1672531200000; info := ""; amount := -250;
       name := "Bob"; event := "Gala"; concept := "Room"; advance := false;
       origin := "CAIXA"; comment := "" |};
    {| movement := "3"; date := 1672617600000; info := ""; amount := -5;
       name := "Cid"; event := "Gala"; concept := "Food"; advance := false;
       origin := "PAYPAL"; comment := "second" |} ].

(** * Properties of the script *)

Example parseDate_dmy_christmas : parseDate_dmy "25/12/2023" = Ok 1703462400000.
Proof. vm_compute. reflexivity. Qed.
Example parseDate_dmy_bad : parseDate_dmy "31/02/2023" = Raise ValueError.
Proof. vm_compute. reflexivity. Qed.

(** ** Sanity checks of the builtins *)

Example split_keeps_empty_fields : Py.split ";" "a;;b;" = ["a"; ""; "b"; ""]%string.
Proof. reflexivity. Qed.

Example int_accepts_blanks_and_sign : Py.int "  -42 " = Ok (-42).
Proof. reflexivity. Qed.

Example int_rejects_double_underscore : Py.int "1__0" = Raise ValueError.
Proof. reflexivity. Qed.

Example formatAmount_12345 : formatAmount 12345 = "123,45 €"%string.
Proof. vm_compute. reflexivity. Qed.

Example formatAmount_minus_1 : formatAmount (-1) = ",-1 €"%string.
Proof. vm_compute. reflexivity. Qed.

(** ** Sums of amounts *)

Section Sums.

Lemma fold_left_add (l : list Z) (a : Z) :
  fold_left (fun x y => x + y) l a = a + sumZ l.
Proof.
  revert a; induction l as [|b l IH]; intros a; cbn.
  - lia.
  - rewrite IH. unfold sumZ; cbn. lia.
Qed.

Lemma sumAmounts_sumZ (l : list Transaction) :
  sumAmounts l = sumZ (amount <$> l).
Proof.
  destruct l as [|t l]; [reflexivity|].
  unfold sumAmounts; cbn. apply fold_left_add.
Qed.

Lemma sumAmounts_nil : sumAmounts [] = 0.
Proof. reflexivity. Qed.

Lemma sumAmounts_cons (t : Transaction) (l : list Transaction) :
  sumAmounts (t :: l) = amount t + sumAmounts l.
Proof. rewrite !sumAmounts_sumZ. reflexivity. Qed.

Lemma sumAmounts_app (l k : list Transaction) :
  sumAmounts (l ++ k) = sumAmounts l + sumAmounts k.
Proof.
  induction l as [|t l IH]; cbn [app].
  - rewrite sumAmounts_nil. lia.
  - rewrite !sumAmounts_cons, IH. lia.
Qed.

Lemma sumAmounts_filter_cons (P : Transaction -> Prop) `{!forall t, Decision (P t)}
    (t : Transaction) (l : list Transaction) :
  sumAmounts (filter P (t :: l))
  = (if decide (P t) then amount t else 0) + sumAmounts (filter P l).
Proof.
  rewrite filter_cons. destruct (decide (P t)).
  - apply sumAmounts_cons.
  - lia.
Qed.

(** A list of amounts splits into the part that passes a test and the part
    that fails it. *)
Lemma sumAmounts_filter_split (P : Transaction -> Prop) `{!forall t, Decision (P t)}
    (l : list Transaction) :
  sumAmounts l = sumAmounts (filter P l) + sumAmounts (filter (fun t => ~ P t) l).
Proof.
  induction l as [|t l IH].
  - reflexivity.
  - rewrite !sumAmounts_filter_cons, sumAmounts_cons, IH.
    destruct (decide (P t)), (decide (~ P t)); try tauto; lia.
Qed.

Lemma sumAmounts_nonpos (l : list Transaction) :
  Forall (fun t => amount t < 0) l -> sumAmounts l <= 0.
Proof.
  induction 1 as [|t l Ht _ IH].
  - rewrite sumAmounts_nil. lia.
  - rewrite sumAmounts_cons. lia.
Qed.

Lemma sumAmounts_nonneg (l : list Transaction) :
  Forall (fun t => amount t > 0) l -> 0 <= sumAmounts l.
Proof.
  induction 1 as [|t l Ht _ IH].
  - rewrite sumAmounts_nil. lia.
  - rewrite sumAmounts_cons. lia.
Qed.

End Sums.

(** ** The fields of an event aggregate *)

Section Aggregate.

Variables (eventName : string) (transactions : list Transaction).

Let lossOf := filter (fun t => amount t < 0)
                (filter (fun t => event t = eventName) transactions).
Let profitOf := filter (fun t => amount t > 0)
                  (filter (fun t => event t = eventName) transactions).

Lemma calculateEvent_transactionsLoss :
  transactionsLoss (calculateEvent eventName transactions) = lossOf.
Proof. unfold calculateEvent. by destruct (calculateEventLossConcepts _ _). Qed.

Lemma calculateEvent_transactionsProfit :
  transactionsProfit (calculateEvent eventName transactions) = profitOf.
Proof. unfold calculateEvent. by destruct (calculateEventLossConcepts _ _). Qed.

Lemma calculateEvent_caixaGross :
  caixaGross (calculateEvent eventName transactions)
  = calulcateGross lossOf profitOf "CAIXA".
Proof. unfold calculateEvent. by destruct (calculateEventLossConcepts _ _). Qed.

Lemma calculateEvent_paypalGross :
  paypalGross (calculateEvent eventName transactions)
  = calulcateGross lossOf profitOf "PAYPAL".
Proof. unfold calculateEvent. by destruct (calculateEventLossConcepts _ _). Qed.

Lemma calculateEvent_totalGrossLoss :
  totalGrossLoss (calculateEvent eventName transactions)
  = grossLoss (calulcateGross lossOf profitOf "CAIXA")
    + grossLoss (calulcateGross lossOf profitOf "PAYPAL").
Proof. unfold calculateEvent. by destruct (calculateEventLossConcepts _ _). Qed.

Lemma calculateEvent_totalGrossProfit :
  totalGrossProfit (calculateEvent eventName transactions)
  = grossProfit (calulcateGross lossOf profitOf "CAIXA")
    + grossProfit (calulcateGross lossOf profitOf "PAYPAL").
Proof. unfold calculateEvent. by destruct (calculateEventLossConcepts _ _). Qed.

Lemma calculateEvent_totalGrossBalance :
  totalGrossBalance (calculateEvent eventName transactions)
  = totalGrossProfit (calculateEvent eventName transactions)
    + totalGrossLoss (calculateEvent eventName transactions).
Proof. unfold calculateEvent. by destruct (calculateEventLossConcepts _ _). Qed.

Lemma calculateEvent_netLoss :
  (netLossConcepts (calculateEvent eventName transactions),
   netLossTotal (calculateEvent eventName transactions))
  = calculateEventLossConcepts (getEventConceptNames lossOf) lossOf.
Proof. unfold calculateEvent. by destruct (calculateEventLossConcepts _ _). Qed.

Lemma lossOf_Forall : Forall (fun t => amount t < 0) lossOf.
Proof. apply Forall_forall. intros t Ht. by apply list_elem_of_filter in Ht as [? _]. Qed.

Lemma profitOf_Forall : Forall (fun t => amount t > 0) profitOf.
Proof. apply Forall_forall. intros t Ht. by apply list_elem_of_filter in Ht as [? _]. Qed.

Lemma calulcateGross_consistent (o : string) :
  gross_consistent (calulcateGross lossOf profitOf o).
Proof.
  unfold gross_consistent, calulcateGross; cbn. split; [reflexivity|]. split.
  - apply sumAmounts_nonpos, Forall_forall. intros t Ht.
    apply list_elem_of_filter in Ht as [_ Ht].
    by apply list_elem_of_filter in Ht as [? _].
  - apply sumAmounts_nonneg, Forall_forall. intros t Ht.
    apply list_elem_of_filter in Ht as [_ Ht].
    by apply list_elem_of_filter in Ht as [? _].
Qed.

End Aggregate.

(** ** Gross figures of one event *)

(** C3. In the aggregate of any event, the CAIXA figures, the PAYPAL
    figures and the totals each satisfy balance = loss + profit with
    loss <= 0 and profit >= 0; the loss list is exactly the event's
    transactions of negative amount, the profit list exactly those of
    positive amount (same order, same multiplicity), and a transaction of
    amount zero is in neither list. *)
Theorem gross_figures_consistent (eventName : string) (transactions : list Transaction) :
  let agg := calculateEvent eventName transactions in
  gross_consistent (caixaGross agg) /\
  gross_consistent (paypalGross agg) /\
  (totalGrossBalance agg = totalGrossLoss agg + totalGrossProfit agg
   /\ totalGrossLoss agg <= 0 /\ 0 <= totalGrossProfit agg) /\
  transactionsLoss agg
    = filter (fun t => event t = eventName /\ amount t < 0) transactions /\
  transactionsProfit agg
    = filter (fun t => event t = eventName /\ amount t > 0) transactions /\
  (forall t, (t ∈ transactionsLoss agg)
             <-> (t ∈ transactions) /\ event t = eventName /\ amount t < 0) /\
  (forall t, (t ∈ transactionsProfit agg)
             <-> (t ∈ transactions) /\ event t = eventName /\ amount t > 0) /\
  (forall t, amount t = 0 -> (t ∉ transactionsLoss agg) /\ (t ∉ transactionsProfit agg)).
Proof.
  intros agg; subst agg.
  rewrite calculateEvent_caixaGross, calculateEvent_paypalGross.
  pose proof (calulcateGross_consistent eventName transactions "CAIXA") as Hc.
  pose proof (calulcateGross_consistent eventName transactions "PAYPAL") as Hp.
  split; [exact Hc|]. split; [exact Hp|]. split.
  { rewrite calculateEvent_totalGrossBalance, calculateEvent_totalGrossLoss,
      calculateEvent_totalGrossProfit.
    destruct Hc as (_ & ? & ?), Hp as (_ & ? & ?). lia. }
  rewrite calculateEvent_transactionsLoss, calculateEvent_transactionsProfit.
  rewrite !list_filter_filter.
  assert (Hl : filter (fun t => amount t < 0 /\ event t = eventName) transactions
               = filter (fun t => event t = eventName /\ amount t < 0) transactions)
    by (apply list_filter_iff; tauto).
  assert (Hg : filter (fun t => amount t > 0 /\ event t = eventName) transactions
               = filter (fun t => event t = eventName /\ amount t > 0) transactions)
    by (apply list_filter_iff; tauto).
  rewrite Hl, Hg.
  split; [reflexivity|]. split; [reflexivity|].
  split; [intros t; rewrite list_elem_of_filter; tauto|].
  split; [intros t; rewrite list_elem_of_filter; tauto|].
  intros t Hz. rewrite !list_elem_of_filter. lia.
Qed.

(** C4. In the aggregate of any event the CAIXA and PAYPAL figures add up,
    figure by figure, to the totals. In the scenario of the spec (a loss of
    1000 through CAIXA and a profit of 500 through PAYPAL, both of event
    Gala, whatever the other fields) the Gala aggregate has CAIXA figures
    (-1000, 0, -1000), PAYPAL figures (0, 500, 500) and total balance
    -500. *)
Theorem channels_add_up_to_totals (eventName : string) (transactions : list Transaction) :
  let agg := calculateEvent eventName transactions in
  (grossLoss (caixaGross agg) + grossLoss (paypalGross agg) = totalGrossLoss agg /\
   grossProfit (caixaGross agg) + grossProfit (paypalGross agg) = totalGrossProfit agg /\
   grossBalance (caixaGross agg) + grossBalance (paypalGross agg) = totalGrossBalance agg) /\
  (forall t1 t2 : Transaction,
     let gala :=
       calculateEvent "Gala"
         [ with_amount_origin_event t1 (-1000) "CAIXA" "Gala";
           with_amount_origin_event t2 500 "PAYPAL" "Gala" ] in
     caixaGross gala = {| grossLoss := -1000; grossProfit := 0; grossBalance := -1000 |} /\
     paypalGross gala = {| grossLoss := 0; grossProfit := 500; grossBalance := 500 |} /\
     totalGrossBalance gala = -500).
Proof.
  intros agg; subst agg. split.
  - rewrite calculateEvent_totalGrossBalance, calculateEvent_totalGrossLoss,
      calculateEvent_totalGrossProfit, calculateEvent_caixaGross,
      calculateEvent_paypalGross.
    unfold calulcateGross; cbn. lia.
  - intros t1 t2 gala; subst gala.
    rewrite calculateEvent_totalGrossBalance, calculateEvent_totalGrossLoss,
      calculateEvent_totalGrossProfit, calculateEvent_caixaGross,
      calculateEvent_paypalGross.
    repeat split.
Qed.

(** ** Distinct names in first-occurrence order *)

Section Distinct.

Lemma first_occurrences_elem (l : list string) (x : string) :
  x ∈ first_occurrences l <-> x ∈ l.
Proof.
  induction l as [|a l IH]; cbn; [reflexivity|].
  rewrite !elem_of_cons, list_elem_of_filter, IH.
  destruct (decide (x = a)); tauto.
Qed.

Lemma first_occurrences_NoDup (l : list string) : NoDup (first_occurrences l).
Proof.
  induction l as [|a l IH]; cbn; [constructor|].
  apply NoDup_cons. split.
  - rewrite list_elem_of_filter. tauto.
  - by apply NoDup_filter.
Qed.

(** The accumulating loop, started from any list of names already seen. *)
Lemma append_loop_spec (l acc : list string) :
  fold_left append_if_new l acc
  = acc ++ filter (fun x => x ∉ acc) (first_occurrences l).
Proof.
  revert acc; induction l as [|a l IH]; intros acc; cbn [fold_left first_occurrences].
  - by rewrite app_nil_r.
  - rewrite IH. unfold append_if_new. case_bool_decide as Ha.
    + rewrite filter_cons_True by done. rewrite <- app_assoc; cbn [app].
      apply (f_equal (fun k => acc ++ a :: k)).
      rewrite list_filter_filter. apply list_filter_iff.
      intros x. rewrite not_elem_of_app, list_elem_of_singleton. tauto.
    + rewrite filter_cons_False by tauto. f_equal.
      rewrite list_filter_filter. apply list_filter_iff.
      intros x. split; [|tauto]. intros Hx. split; [done|].
      intros ->. tauto.
Qed.

Lemma append_loop_first_occurrences (l : list string) :
  fold_left append_if_new l [] = first_occurrences l.
Proof.
  rewrite append_loop_spec; cbn.
  induction (first_occurrences l) as [|x k IH]; [done|].
  rewrite filter_cons_True by apply not_elem_of_nil. by rewrite IH.
Qed.

Lemma eventNamesOf_first_occurrences (transactions : list Transaction) :
  eventNamesOf transactions = first_occurrences (event <$> transactions).
Proof. apply append_loop_first_occurrences. Qed.

Lemma getEventConceptNames_first_occurrences (transactions : list Transaction) :
  getEventConceptNames transactions = first_occurrences (concept <$> transactions).
Proof.
  unfold getEventConceptNames.
  rewrite <- append_loop_first_occurrences.
  generalize (@nil string).
  induction transactions as [|t l IH]; intros acc; cbn; [done|apply IH].
Qed.

End Distinct.

(** ** Sums grouped by a key *)

Section Grouping.

Lemma sumZ_zero {A : Type} (l : list A) : sumZ ((fun _ => 0) <$> l) = 0.
Proof. induction l as [|x l IH]; cbn; [done|]. unfold sumZ in *; cbn. lia. Qed.

Lemma sumZ_fmap_add {A : Type} (f g : A -> Z) (l : list A) :
  sumZ ((fun x => f x + g x) <$> l) = sumZ (f <$> l) + sumZ (g <$> l).
Proof. induction l as [|x l IH]; cbn; [done|]. unfold sumZ in *; cbn in *. lia. Qed.

(** In a list without duplicates a name is met once. *)
Lemma sumZ_indicator (names : list string) (k : string) (a : Z) :
  NoDup names -> k ∈ names ->
  sumZ ((fun c => if decide (k = c) then a else 0) <$> names) = a.
Proof.
  induction 1 as [|c names Hc Hnd IH]; intros Hk.
  - by apply elem_of_nil in Hk.
  - unfold sumZ in *; cbn. destruct (decide (k = c)) as [->|Hne].
    + assert (foldr Z.add 0 ((fun c0 => if decide (c = c0) then a else 0) <$> names) = 0)
        as ->; [|lia].
      clear IH Hnd Hk. induction names as [|d names IH]; cbn; [done|].
      apply not_elem_of_cons in Hc as [? ?].
      rewrite decide_False by done. rewrite IH by done. lia.
    + apply elem_of_cons in Hk as [?|Hk]; [done|]. rewrite IH by done. lia.
Qed.

(** Grouping the transactions by a key loses and repeats nothing, as long
    as the list of names has every key once. *)
Lemma sum_by_key (key : Transaction -> string) (names : list string)
    (l : list Transaction) :
  NoDup names -> (forall t, t ∈ l -> key t ∈ names) ->
  sumZ ((fun c => sumAmounts (filter (fun t => key t = c) l)) <$> names)
  = sumAmounts l.
Proof.
  intros Hnd. induction l as [|t l IH]; intros Hin.
  - cbn. apply sumZ_zero.
  - rewrite sumAmounts_cons, <- IH
      by (intros u Hu; apply Hin; apply elem_of_cons; by right).
    rewrite <- (sumZ_indicator names (key t) (amount t) Hnd)
      by (apply Hin; apply elem_of_cons; by left).
    rewrite <- sumZ_fmap_add. f_equal. apply list_fmap_ext.
    intros _ c _. apply sumAmounts_filter_cons.
Qed.

End Grouping.

(** ** The whole ledger against the per-event totals *)

(** What one event's total balance adds up: the amounts of the event's
    transactions through CAIXA or PAYPAL. *)
Lemma totalGrossBalance_channels (eventName : string) (transactions : list Transaction) :
  totalGrossBalance (calculateEvent eventName transactions)
  = sumAmounts
      (filter (fun t => event t = eventName)
         (filter (fun t => amount t <> 0 /\ isChannel (origin t)) transactions)).
Proof.
  rewrite calculateEvent_totalGrossBalance, calculateEvent_totalGrossLoss,
    calculateEvent_totalGrossProfit.
  unfold calulcateGross; cbn [grossLoss grossProfit].
  rewrite !list_filter_filter.
  induction transactions as [|t l IH].
  - reflexivity.
  - rewrite !sumAmounts_filter_cons.
    assert (Hne : "CAIXA"%string <> "PAYPAL"%string) by discriminate.
    unfold isChannel in *.
    destruct (decide (amount t > 0)), (decide (amount t < 0));
      repeat case_decide; try lia; exfalso; intuition (try congruence; try lia).
Qed.

(** What one event's total loss and total profit add up: the negative and
    the positive amounts of the event's transactions through CAIXA or
    PAYPAL. *)
Lemma totalGrossLoss_channels (eventName : string) (transactions : list Transaction) :
  totalGrossLoss (calculateEvent eventName transactions)
  = sumZ (amount <$> filter (fun t => event t = eventName /\ amount t < 0
                                      /\ isChannel (origin t)) transactions).
Proof.
  rewrite calculateEvent_totalGrossLoss.
  unfold calulcateGross; cbn [grossLoss].
  rewrite !list_filter_filter, <- sumAmounts_sumZ.
  induction transactions as [|t l IH].
  - reflexivity.
  - rewrite !sumAmounts_filter_cons.
    assert (Hne : "CAIXA"%string <> "PAYPAL"%string) by discriminate.
    unfold isChannel in *.
    repeat case_decide; try lia; exfalso; intuition (try congruence; try lia).
Qed.

Lemma totalGrossProfit_channels (eventName : string) (transactions : list Transaction) :
  totalGrossProfit (calculateEvent eventName transactions)
  = sumZ (amount <$> filter (fun t => event t = eventName /\ amount t > 0
                                      /\ isChannel (origin t)) transactions).
Proof.
  rewrite calculateEvent_totalGrossProfit.
  unfold calulcateGross; cbn [grossProfit].
  rewrite !list_filter_filter, <- sumAmounts_sumZ.
  induction transactions as [|t l IH].
  - reflexivity.
  - rewrite !sumAmounts_filter_cons.
    assert (Hne : "CAIXA"%string <> "PAYPAL"%string) by discriminate.
    unfold isChannel in *.
    repeat case_decide; try lia; exfalso; intuition (try congruence; try lia).
Qed.

Lemma totalGrossBalance_channels_sumZ (eventName : string)
    (transactions : list Transaction) :
  totalGrossBalance (calculateEvent eventName transactions)
  = sumZ (amount <$> filter (fun t => event t = eventName /\ amount t <> 0
                                      /\ isChannel (origin t)) transactions).
Proof.
  rewrite totalGrossBalance_channels, list_filter_filter, sumAmounts_sumZ.
  reflexivity.
Qed.

(** The amounts of a list do not change when a transaction that fails the
    test of the filter is put into it. *)
Lemma sumZ_filter_insert (P : Transaction -> Prop) `{!forall t, Decision (P t)}
    (before after : list Transaction) (t : Transaction) :
  ~ P t ->
  sumZ (amount <$> filter P (before ++ t :: after))
  = sumZ (amount <$> filter P (before ++ after)).
Proof.
  intros Ht. by rewrite !filter_app, filter_cons_False.
Qed.

(** C1, as the code has it. The total gross loss, profit and balance of
    any event are the sums of the negative, the positive and the nonzero
    amounts of the event's transactions whose origin is CAIXA or PAYPAL, so
    that a transaction of any other origin, wherever it stands in the
    ledger, changes no event's gross totals. The event names of the ledger
    are distinct and hold the event of every transaction; over them the
    total gross balances add up to the sum of the amounts of the
    transactions of nonzero amount whose origin is CAIXA or PAYPAL: none of
    those is counted twice or left out. *)
Theorem total_balances_cover_channel_transactions (transactions : list Transaction) :
  (forall e,
     totalGrossLoss (calculateEvent e transactions)
     = sumZ (amount <$> filter (fun t => event t = e /\ amount t < 0
                                         /\ isChannel (origin t)) transactions) /\
     totalGrossProfit (calculateEvent e transactions)
     = sumZ (amount <$> filter (fun t => event t = e /\ amount t > 0
                                         /\ isChannel (origin t)) transactions) /\
     totalGrossBalance (calculateEvent e transactions)
     = sumZ (amount <$> filter (fun t => event t = e /\ amount t <> 0
                                         /\ isChannel (origin t)) transactions)) /\
  (forall e before after t,
     transactions = before ++ t :: after -> ~ isChannel (origin t) ->
     totalGrossLoss (calculateEvent e transactions)
     = totalGrossLoss (calculateEvent e (before ++ after)) /\
     totalGrossProfit (calculateEvent e transactions)
     = totalGrossProfit (calculateEvent e (before ++ after)) /\
     totalGrossBalance (calculateEvent e transactions)
     = totalGrossBalance (calculateEvent e (before ++ after))) /\
  NoDup (eventNamesOf transactions) /\
  (forall t, t ∈ transactions -> event t ∈ eventNamesOf transactions) /\
  sumZ ((fun e => totalGrossBalance (calculateEvent e transactions))
          <$> eventNamesOf transactions)
  = sumZ (amount <$> filter (fun t => amount t <> 0 /\ isChannel (origin t))
                       transactions).
Proof.
  assert (Hnames : forall t, t ∈ transactions -> event t ∈ eventNamesOf transactions).
  { intros t Ht. rewrite eventNamesOf_first_occurrences, first_occurrences_elem.
    by apply list_elem_of_fmap_2. }
  split; [|split; [|split; [|split; [exact Hnames|]]]].
  - intros e. split; [apply totalGrossLoss_channels|].
    split; [apply totalGrossProfit_channels|apply totalGrossBalance_channels_sumZ].
  - intros e before after t -> Ht.
    rewrite !totalGrossLoss_channels, !totalGrossProfit_channels,
      !totalGrossBalance_channels_sumZ.
    repeat split; apply sumZ_filter_insert; tauto.
  - rewrite eventNamesOf_first_occurrences. apply first_occurrences_NoDup.
  - erewrite list_fmap_ext
      by (intros _ e _; apply totalGrossBalance_channels).
    rewrite <- sumAmounts_sumZ. apply (sum_by_key event).
    + rewrite eventNamesOf_first_occurrences. apply first_occurrences_NoDup.
    + intros t Ht. apply list_elem_of_filter in Ht as [_ Ht]. by apply Hnames.
Qed.

(** C1 as stated fails on a transaction of another origin: one transaction
    of 100 cents paid in cash gives its event a total balance of 0, while
    the amounts of the ledger add up to 100. *)
Lemma total_balances_drop_other_origins :
  let t := {| movement := "1"; date := 0; info := ""; amount := 100;
              name := "n"; event := "Gala"; concept := "c"; advance := false;
              origin := "CASH"; comment := "" |} in
  eventNamesOf [t] = ["Gala"%string] /\
  sumZ ((fun e => totalGrossBalance (calculateEvent e [t])) <$> eventNamesOf [t]) = 0 /\
  sumZ (amount <$> filter (fun t => amount t <> 0) [t]) = 100 /\
  sumZ ((fun e => totalGrossBalance (calculateEvent e [t])) <$> eventNamesOf [t])
  <> sumZ (amount <$> filter (fun t => amount t <> 0) [t]).
Proof. cbv zeta. repeat split. intros H; vm_compute in H; discriminate H. Qed.

(** ** The net-loss breakdown *)

Section NetLoss.

Variable transactionsLoss_ : list Transaction.

Let conceptAmount (conceptName : string) : Z :=
  sumAmounts (filter (fun t => concept t = conceptName /\ advance t = false)
                transactionsLoss_).

Lemma calculateEventLossConcepts_loop (conceptNames : list string)
    (concepts : list Concept.t) (total_ : Z) :
  fold_left
    (fun '(concepts, total) conceptName =>
       let transactionsLossConcept :=
         filter (fun t => concept t = conceptName /\ advance t = false)
                transactionsLoss_ in
       let amount := sumAmounts transactionsLossConcept in
       (concepts ++ [ {| Concept.name := conceptName; Concept.amount := amount |} ],
        total + amount))
    conceptNames (concepts, total_)
  = (concepts ++ ((fun c => {| Concept.name := c; Concept.amount := conceptAmount c |})
                    <$> conceptNames),
     total_ + sumZ (conceptAmount <$> conceptNames)).
Proof.
  revert concepts total_.
  induction conceptNames as [|c l IH]; intros concepts total_; cbn [fold_left].
  - cbn. by rewrite app_nil_r, Z.add_0_r.
  - rewrite IH. cbn [fmap list_fmap]. rewrite <- app_assoc. cbn [app].
    f_equal. unfold sumZ, conceptAmount; cbn. lia.
Qed.

Lemma calculateEventLossConcepts_spec (conceptNames : list string) :
  calculateEventLossConcepts conceptNames transactionsLoss_
  = ((fun c => {| Concept.name := c; Concept.amount := conceptAmount c |})
       <$> conceptNames,
     sumZ (conceptAmount <$> conceptNames)).
Proof.
  unfold calculateEventLossConcepts.
  rewrite calculateEventLossConcepts_loop. reflexivity.
Qed.

End NetLoss.

Example first_occurrences_order :
  first_occurrences ["b"; "a"; "b"; "c"; "a"]%string = ["b"; "a"; "c"]%string.
Proof. reflexivity. Qed.

(** C5. For any event, with its loss transactions taken from the ledger
    (the transactions of the event with a negative amount, in the order of
    the ledger): the names of the net-loss breakdown are the concepts of
    these transactions, each once and in the order of first occurrence;
    the amount of each entry is the sum of the amounts of the loss
    transactions of that concept that are not advances; and the net-loss
    total is the sum of the entries' amounts, which is the sum of the
    amounts of the loss transactions that are not advances. *)
Theorem net_loss_breakdown (eventName : string) (transactions : list Transaction) :
  let agg := calculateEvent eventName transactions in
  let loss := filter (fun t => event t = eventName /\ amount t < 0) transactions in
  transactionsLoss agg = loss /\
  Concept.name <$> netLossConcepts agg = first_occurrences (concept <$> loss) /\
  NoDup (Concept.name <$> netLossConcepts agg) /\
  (forall c, (c ∈ Concept.name <$> netLossConcepts agg)
             <-> exists t, (t ∈ transactions) /\ event t = eventName
                           /\ amount t < 0 /\ concept t = c) /\
  Forall (fun k => Concept.amount k
                   = sumZ (amount <$> filter (fun t => concept t = Concept.name k
                                                       /\ advance t = false) loss))
         (netLossConcepts agg) /\
  netLossTotal agg = sumZ (Concept.amount <$> netLossConcepts agg) /\
  netLossTotal agg = sumZ (amount <$> filter (fun t => advance t = false) loss).
Proof.
  intros agg loss; subst agg.
  pose proof (calculateEvent_netLoss eventName transactions) as Hnet.
  rewrite calculateEvent_transactionsLoss.
  assert (Hloss : filter (fun t => amount t < 0)
                    (filter (fun t => event t = eventName) transactions) = loss).
  { rewrite list_filter_filter. apply list_filter_iff. tauto. }
  rewrite Hloss in *.
  rewrite calculateEventLossConcepts_spec in Hnet.
  injection Hnet as Hconcepts Htotal.
  rewrite Hconcepts, Htotal, getEventConceptNames_first_occurrences.
  set (names := first_occurrences (concept <$> loss)).
  assert (Hnames : Concept.name <$>
            ((fun c => {| Concept.name := c;
                          Concept.amount :=
                            sumAmounts (filter (fun t => concept t = c /\ advance t = false)
                                          loss) |}) <$> names) = names).
  { rewrite <- list_fmap_compose. cbn. induction names; cbn; congruence. }
  rewrite Hnames.
  split; [reflexivity|]. split; [reflexivity|].
  split; [apply first_occurrences_NoDup|].
  split.
  { intros c. unfold names. rewrite first_occurrences_elem, list_elem_of_fmap.
    split.
    - intros (t & -> & Ht). apply list_elem_of_filter in Ht as [[? ?] ?].
      by exists t.
    - intros (t & Ht & He & Ha & <-). exists t. split; [done|].
      apply list_elem_of_filter. tauto. }
  split.
  { apply Forall_fmap, Forall_forall. intros c _. cbn. apply sumAmounts_sumZ. }
  split.
  { rewrite <- list_fmap_compose. reflexivity. }
  rewrite <- sumAmounts_sumZ.
  rewrite <- (sum_by_key concept names (filter (fun t => advance t = false) loss)).
  - f_equal. apply list_fmap_ext. intros _ c _.
    rewrite list_filter_filter. reflexivity.
  - apply first_occurrences_NoDup.
  - intros t Ht. apply list_elem_of_filter in Ht as [_ Ht].
    unfold names. rewrite first_occurrences_elem. by apply list_elem_of_fmap_2.
Qed.

(** ** Strings: characters, reversal, stripping *)

Section Strings.

Lemma string_app_empty_r (s : string) : s +:+ "" = s.
Proof. induction s as [|c s IH]; cbn; [done|]. unfold String.app in *. cbn. by rewrite IH. Qed.

Lemma rev_app_rev_app (s t u : string) :
  String.rev_app (String.rev_app s t) u = String.rev_app t (s +:+ u).
Proof.
  revert t; induction s as [|a s IH]; intros t; cbn; [done|].
  rewrite IH. reflexivity.
Qed.

Lemma string_rev_involutive (s : string) : String.rev (String.rev s) = s.
Proof. unfold String.rev. rewrite rev_app_rev_app. cbn. apply string_app_empty_r. Qed.

Lemma all_chars_rev_app (P : ascii -> bool) (s t : string) :
  all_chars P (String.rev_app s t) = all_chars P s && all_chars P t.
Proof.
  revert t; induction s as [|a s IH]; intros t; cbn; [done|].
  rewrite IH. cbn. destruct (P a), (all_chars P s), (all_chars P t); reflexivity.
Qed.

Lemma all_chars_rev (P : ascii -> bool) (s : string) :
  all_chars P (String.rev s) = all_chars P s.
Proof. unfold String.rev. rewrite all_chars_rev_app. cbn. apply andb_true_r. Qed.

Lemma has_char_rev_app (P : ascii -> bool) (s t : string) :
  has_char P (String.rev_app s t) = has_char P s || has_char P t.
Proof.
  revert t; induction s as [|a s IH]; intros t; cbn; [done|].
  rewrite IH. cbn. destruct (P a), (has_char P s), (has_char P t); reflexivity.
Qed.

Lemma has_char_rev (P : ascii -> bool) (s : string) :
  has_char P (String.rev s) = has_char P s.
Proof. unfold String.rev. rewrite has_char_rev_app. cbn. apply orb_false_r. Qed.

(** A character passing [P] cannot sit in a string whose characters all
    pass [Q], when [P] and [Q] exclude each other. *)
Lemma has_char_all_chars (P Q : ascii -> bool) (s : string) :
  (forall c, P c = true -> Q c = false) ->
  has_char P s = true -> all_chars Q s = false.
Proof.
  intros HPQ. induction s as [|c s IH]; cbn; [discriminate|].
  intros [Hc|Hs]%orb_true_iff.
  - by rewrite (HPQ c Hc).
  - rewrite (IH Hs). apply andb_false_r.
Qed.

Lemma lstrip_all_chars (s : string) :
  all_chars (fun c => negb (Py.is_space c)) s = true -> Py.lstrip s = s.
Proof.
  destruct s as [|c s]; cbn; [done|].
  intros [Hc _]%andb_true_iff. by destruct (Py.is_space c).
Qed.

Lemma strip_all_chars (s : string) :
  all_chars (fun c => negb (Py.is_space c)) s = true -> Py.strip s = s.
Proof.
  intros Hs. unfold Py.strip. rewrite (lstrip_all_chars s Hs).
  rewrite lstrip_all_chars by (by rewrite all_chars_rev).
  apply string_rev_involutive.
Qed.

Lemma has_char_lstrip (P : ascii -> bool) (s : string) :
  (forall c, P c = true -> Py.is_space c = false) ->
  has_char P (Py.lstrip s) = has_char P s.
Proof.
  intros HP. induction s as [|c s IH]; cbn; [done|].
  destruct (Py.is_space c) eqn:Hc; [|done].
  rewrite IH. destruct (P c) eqn:HPc; [|done].
  apply HP in HPc. congruence.
Qed.

Lemma has_char_strip (P : ascii -> bool) (s : string) :
  (forall c, P c = true -> Py.is_space c = false) ->
  has_char P (Py.strip s) = has_char P s.
Proof.
  intros HP. unfold Py.strip.
  by rewrite has_char_rev, has_char_lstrip, has_char_rev, has_char_lstrip.
Qed.

Lemma has_char_impl (P Q : ascii -> bool) (s : string) :
  (forall c, P c = true -> Q c = true) ->
  has_char P s = true -> has_char Q s = true.
Proof.
  intros HPQ. induction s as [|c s IH]; cbn; [done|].
  intros [Hc|Hs]%orb_true_iff.
  - by rewrite (HPQ c Hc).
  - rewrite (IH Hs). apply orb_true_r.
Qed.

Lemma all_chars_impl (P Q : ascii -> bool) (s : string) :
  (forall c, P c = true -> Q c = true) ->
  all_chars P s = true -> all_chars Q s = true.
Proof.
  intros HPQ. induction s as [|c s IH]; cbn; [done|].
  intros [Hc Hs]%andb_true_iff. by rewrite (HPQ c Hc), (IH Hs).
Qed.

Lemma string_app_assoc (a b c : string) : (a +:+ b) +:+ c = a +:+ (b +:+ c).
Proof.
  induction a as [|x a IH]; [reflexivity|].
  change (String x ((a +:+ b) +:+ c) = String x (a +:+ (b +:+ c))). by rewrite IH.
Qed.

Lemma string_app_cons (x : ascii) (a b : string) :
  String x a +:+ b = String x (a +:+ b).
Proof. reflexivity. Qed.

Lemma all_chars_app (P : ascii -> bool) (a b : string) :
  all_chars P (a +:+ b) = all_chars P a && all_chars P b.
Proof.
  induction a as [|x a IH]; [reflexivity|].
  rewrite string_app_cons. cbn [all_chars]. rewrite IH. by rewrite andb_assoc.
Qed.

End Strings.

(** ** [int] on digits, and where it must fail *)

Section IntOfString.

(** The digits and the blanks of the vocabulary are those of [int], and
    the place of a digit is its value. *)
Lemma is_digit_spec (c : ascii) :
  is_digit c = bool_decide (is_Some (Py.digit_value c)).
Proof. destruct c as [[] [] [] [] [] [] [] []]; vm_compute; reflexivity. Qed.

Lemma is_blank_spec (c : ascii) : is_blank c = Py.is_space c.
Proof. destruct c as [[] [] [] [] [] [] [] []]; vm_compute; reflexivity. Qed.

Lemma digit_place_spec (c : ascii) : digit_place c = default 0 (Py.digit_value c).
Proof. destruct c as [[] [] [] [] [] [] [] []]; vm_compute; reflexivity. Qed.

Lemma all_chars_ext (P Q : ascii -> bool) (s : string) :
  (forall c, P c = Q c) -> all_chars P s = all_chars Q s.
Proof. intros HPQ. induction s as [|c s IH]; cbn; [done|]. by rewrite HPQ, IH. Qed.

Lemma is_digit_value (c : ascii) :
  is_digit c = true -> exists d, Py.digit_value c = Some d /\ 0 <= d <= 9.
Proof.
  rewrite is_digit_spec. intros [d Hd]%bool_decide_eq_true. exists d. split; [done|].
  unfold Py.digit_value in Hd.
  destruct ((48 <=? Py.ord c) && (Py.ord c <=? 57)) eqn:Hrange; [|done].
  injection Hd as <-. lia.
Qed.

Lemma is_digit_not_space (c : ascii) : is_digit c = true -> Py.is_space c = false.
Proof.
  intros (d & Hd & _)%is_digit_value.
  unfold Py.digit_value in Hd. unfold Py.is_space.
  destruct ((48 <=? Py.ord c) && (Py.ord c <=? 57)) eqn:Hrange; [|done].
  lia.
Qed.

Lemma is_digit_not_sign (c : ascii) :
  is_digit c = true -> Ascii.eqb c "-" = false /\ Ascii.eqb c "+" = false.
Proof.
  intros (d & Hd & _)%is_digit_value.
  unfold Py.digit_value in Hd.
  destruct ((48 <=? Py.ord c) && (Py.ord c <=? 57)) eqn:Hrange; [|done].
  split; apply Ascii.eqb_neq; intros ->; vm_compute in Hrange; discriminate.
Qed.

Lemma int_digits_all_digits (s : string) (acc : Z) :
  all_digits s = true ->
  Py.int_digits acc false s
  = Some (acc * 10 ^ Z.of_nat (String.length s) + decimal_value s).
Proof.
  revert acc; induction s as [|c s IH]; intros acc; cbn [all_digits all_chars].
  - intros _. cbn. f_equal. lia.
  - intros [Hc Hs]%andb_true_iff.
    destruct (is_digit_value c Hc) as (d & Hd & _).
    cbn [Py.int_digits decimal_value String.length].
    rewrite digit_place_spec, Hd. cbn [default].
    rewrite (IH _ Hs). f_equal.
    rewrite Nat2Z.inj_succ, Z.pow_succ_r by lia. unfold id. ring.
Qed.

(** On a non-empty string of digits [int] returns the number the digits
    denote. *)
Lemma int_all_digits (s : string) :
  s <> ""%string -> all_digits s = true -> Py.int s = Ok (decimal_value s).
Proof.
  intros Hne Hs. unfold Py.int.
  rewrite strip_all_chars
    by (eapply all_chars_impl; [|exact Hs];
        intros c Hc; by rewrite (is_digit_not_space c Hc)).
  destruct s as [|c s]; [done|].
  cbn [all_digits all_chars] in Hs. apply andb_true_iff in Hs as [Hc Hs].
  destruct (is_digit_not_sign c Hc) as [Hm Hp].
  destruct (is_digit_value c Hc) as (d & Hd & _).
  unfold Py.int_signed. rewrite Hm, Hp. unfold Py.int_unsigned. rewrite Hd.
  rewrite (int_digits_all_digits s d Hs).
  cbn [decimal_value of_option]. rewrite digit_place_spec, Hd. reflexivity.
Qed.

Lemma int_digits_chars (s : string) (acc : Z) (b : bool) (v : Z) :
  Py.int_digits acc b s = Some v -> all_chars digit_or_underscore s = true.
Proof.
  revert acc b; induction s as [|c s IH]; intros acc b; cbn; [done|].
  unfold digit_or_underscore at 1. rewrite is_digit_spec.
  destruct (Py.digit_value c) as [d|] eqn:Hd.
  - intros H. rewrite (IH _ _ H). by rewrite bool_decide_eq_true_2.
  - destruct (Ascii.eqb c "_"); cbn; [|done].
    destruct (negb b); [|done]. intros H. by rewrite (IH _ _ H).
Qed.

Lemma int_unsigned_chars (s : string) (v : Z) :
  Py.int_unsigned s = Some v -> all_chars digit_or_underscore s = true.
Proof.
  destruct s as [|c s]; cbn; [done|].
  unfold digit_or_underscore at 1. rewrite is_digit_spec.
  destruct (Py.digit_value c) as [d|] eqn:Hd; [|done].
  intros H. rewrite (int_digits_chars _ _ _ _ H).
  by rewrite bool_decide_eq_true_2.
Qed.

Lemma digit_or_underscore_int_char (c : ascii) :
  digit_or_underscore c = true -> int_char c = true.
Proof.
  unfold digit_or_underscore, int_char.
  intros [Hc|Hc]%orb_true_iff; rewrite Hc; [done|]. by rewrite !orb_true_r.
Qed.

Lemma int_signed_chars (s : string) (v : Z) :
  Py.int_signed s = Some v -> all_chars int_char s = true.
Proof.
  destruct s as [|c s]; [done|]. unfold Py.int_signed.
  destruct (Ascii.eqb c "-") eqn:Hm; [|destruct (Ascii.eqb c "+") eqn:Hp].
  - destruct (Py.int_unsigned s) as [w|] eqn:Hw; [|done]. intros _.
    cbn. unfold int_char at 1. rewrite Hm.
    rewrite (all_chars_impl _ _ _ digit_or_underscore_int_char
               (int_unsigned_chars _ _ Hw)).
    by rewrite !orb_true_r.
  - intros Hw. cbn. unfold int_char at 1. rewrite Hp.
    rewrite (all_chars_impl _ _ _ digit_or_underscore_int_char
               (int_unsigned_chars _ _ Hw)).
    by rewrite !orb_true_r.
  - intros Hw.
    exact (all_chars_impl _ _ _ digit_or_underscore_int_char
             (int_unsigned_chars _ _ Hw)).
Qed.

(** [int] raises ValueError as soon as its argument holds a character that
    is no digit, sign, underscore or blank. *)
Lemma int_rejects (s : string) :
  has_char (fun c => negb (int_char c)) s = true -> Py.int s = Raise ValueError.
Proof.
  intros Hbad. unfold Py.int.
  destruct (Py.int_signed (Py.strip s)) as [v|] eqn:Hv; [|done].
  apply int_signed_chars in Hv.
  rewrite <- (has_char_strip _ s) in Hbad.
  - rewrite (has_char_all_chars _ int_char _ (fun c => proj1 (negb_true_iff _)) Hbad)
      in Hv. discriminate.
  - intros c Hc. apply negb_true_iff in Hc. unfold int_char in Hc.
    apply orb_false_iff in Hc as [_ Hc]. exact Hc.
Qed.

End IntOfString.

(** ** [int] against the texts of integers *)

Section IntText.

Lemma is_digit_not_underscore (c : ascii) : is_digit c = true -> Ascii.eqb c "_" = false.
Proof.
  intros (d & Hd & _)%is_digit_value.
  unfold Py.digit_value in Hd.
  destruct ((48 <=? Py.ord c) && (Py.ord c <=? 57)) eqn:Hrange; [|done].
  apply Ascii.eqb_neq; intros ->; vm_compute in Hrange; discriminate.
Qed.

Lemma digit_value_is_digit (c : ascii) (d : Z) : Py.digit_value c = Some d -> is_digit c = true.
Proof. intros Hd. rewrite is_digit_spec. apply bool_decide_eq_true. by exists d. Qed.

Lemma not_digit_value (c : ascii) : Py.digit_value c = None -> is_digit c = false.
Proof.
  intros Hd. rewrite is_digit_spec. apply bool_decide_eq_false. rewrite Hd. by intros [? ?].
Qed.

(** The digits read so far weigh in by their place: reading on from [acc]
    is reading on from 0 with [acc] shifted past the digits to come. *)
Lemma int_digits_shift (s : string) (acc : Z) (b : bool) :
  Py.int_digits acc b s
  = (fun v => acc * 10 ^ Z.of_nat (String.length (Py.remove_char "_" s)) + v)
      <$> Py.int_digits 0 b s.
Proof.
  revert acc b. induction s as [|c s IH]; intros acc b; cbn [Py.int_digits].
  - destruct b; cbn; [done|]. f_equal. lia.
  - destruct (Py.digit_value c) as [d|] eqn:Hd.
    + cbn [Py.remove_char].
      rewrite (is_digit_not_underscore c) by (by eapply digit_value_is_digit).
      cbn [String.length].
      rewrite (IH (10 * acc + d)), (IH (10 * 0 + d)).
      destruct (Py.int_digits 0 false s) as [w|]; cbn; [|done].
      f_equal. rewrite Nat2Z.inj_succ, Z.pow_succ_r by lia. ring.
    + destruct (Ascii.eqb c "_") eqn:Hc; cbn [andb]; [|done].
      destruct b; cbn [negb]; [done|].
      cbn [Py.remove_char]. rewrite Hc. apply IH.
Qed.

Lemma decimal_value_cons_digit (c : ascii) (d : Z) (s : string) :
  Py.digit_value c = Some d ->
  decimal_value (String c s) = d * 10 ^ Z.of_nat (String.length s) + decimal_value s.
Proof. intros Hd. cbn [decimal_value]. by rewrite digit_place_spec, Hd. Qed.

(** What a successful reading of digits returns. *)
Lemma int_digits_value (s : string) (acc : Z) (b : bool) (v : Z) :
  Py.int_digits acc b s = Some v ->
  v = acc * 10 ^ Z.of_nat (String.length (Py.remove_char "_" s))
      + decimal_value (Py.remove_char "_" s).
Proof.
  revert acc b. induction s as [|c s IH]; intros acc b; cbn [Py.int_digits].
  - destruct b; [done|]. intros [= <-]. cbn. lia.
  - destruct (Py.digit_value c) as [d|] eqn:Hd.
    + intros Hv. apply IH in Hv. cbn [Py.remove_char].
      rewrite (is_digit_not_underscore c) by (by eapply digit_value_is_digit).
      rewrite (decimal_value_cons_digit c d _ Hd). cbn [String.length].
      rewrite Nat2Z.inj_succ, Z.pow_succ_r by lia. lia.
    + destruct (Ascii.eqb c "_") eqn:Hc; cbn [andb]; [|done].
      destruct b; cbn [negb]; [done|].
      cbn [Py.remove_char]. rewrite Hc. apply IH.
Qed.

Lemma int_unsigned_value (s : string) (v : Z) :
  Py.int_unsigned s = Some v -> v = decimal_value (Py.remove_char "_" s).
Proof.
  destruct s as [|c s]; [done|]. unfold Py.int_unsigned.
  destruct (Py.digit_value c) as [d|] eqn:Hd; [|done].
  intros Hv. apply int_digits_value in Hv. cbn [Py.remove_char].
  rewrite (is_digit_not_underscore c) by (by eapply digit_value_is_digit).
  by rewrite (decimal_value_cons_digit c d _ Hd).
Qed.

Lemma digit_run_snoc (g : string) (c : ascii) :
  digit_run g -> is_digit c = true -> digit_run (g +:+ String c "").
Proof.
  intros [Hne Hg] Hc. split.
  - destruct g; [done|discriminate].
  - unfold all_digits in *. rewrite all_chars_app, Hg. cbn. by rewrite Hc.
Qed.

Lemma digit_run_single (c : ascii) : is_digit c = true -> digit_run (String c "").
Proof. intros Hc. split; [discriminate|]. cbn. by rewrite Hc. Qed.

(** The shape of what [int_digits] reads to the end: after a digit, the
    rest closes the current run and may open further ones; after an
    underscore, it is runs of its own. *)
Lemma int_digits_groups (s : string) :
  (forall acc v g, digit_run g -> Py.int_digits acc false s = Some v ->
                   digit_groups (g +:+ s)) /\
  (forall acc v, Py.int_digits acc true s = Some v -> digit_groups s).
Proof.
  induction s as [|c s [IHd IHu]]; split.
  - intros acc v g Hg _. rewrite string_app_empty_r. by constructor.
  - intros acc v. cbn. done.
  - intros acc v g Hg. cbn [Py.int_digits].
    destruct (Py.digit_value c) as [d|] eqn:Hd.
    + intros Hv.
      replace (g +:+ String c s) with ((g +:+ String c "") +:+ s)
        by (by rewrite string_app_assoc).
      eapply IHd; [|exact Hv].
      apply digit_run_snoc; [done|by eapply digit_value_is_digit].
    + destruct (Ascii.eqb c "_") eqn:Hc; cbn [andb negb]; [|done].
      apply Ascii.eqb_eq in Hc as ->. intros Hv.
      change (g +:+ String "_" s) with (g +:+ "_" +:+ s).
      apply digit_groups_more; [done|]. by eapply IHu.
  - intros acc v. cbn [Py.int_digits].
    destruct (Py.digit_value c) as [d|] eqn:Hd.
    + intros Hv. change (String c s) with (String c "" +:+ s).
      eapply IHd; [|exact Hv].
      apply digit_run_single. by eapply digit_value_is_digit.
    + destruct (Ascii.eqb c "_"); cbn; done.
Qed.

Lemma int_unsigned_groups (s : string) (v : Z) :
  Py.int_unsigned s = Some v -> digit_groups s.
Proof.
  destruct s as [|c s]; [done|]. unfold Py.int_unsigned.
  destruct (Py.digit_value c) as [d|] eqn:Hd; [|done].
  intros Hv. change (String c s) with (String c "" +:+ s).
  eapply (proj1 (int_digits_groups s)); [|exact Hv].
  apply digit_run_single. by eapply digit_value_is_digit.
Qed.

(** Whether the digits read to the end does not depend on what was read
    before. *)
Lemma int_digits_is_Some (s : string) (acc acc' : Z) (b : bool) :
  is_Some (Py.int_digits acc b s) -> is_Some (Py.int_digits acc' b s).
Proof.
  rewrite (int_digits_shift s acc), (int_digits_shift s acc').
  rewrite !fmap_is_Some. done.
Qed.

Lemma int_digits_app_digits (g rest : string) (acc : Z) :
  all_digits g = true ->
  Py.int_digits acc false (g +:+ rest)
  = Py.int_digits (acc * 10 ^ Z.of_nat (String.length g) + decimal_value g) false rest.
Proof.
  revert acc. unfold all_digits. induction g as [|c g IH]; intros acc; cbn [all_chars].
  - intros _. cbn. f_equal. lia.
  - intros [Hc Hg]%andb_true_iff.
    destruct (is_digit_value c Hc) as (d & Hd & _).
    change (String c g +:+ rest) with (String c (g +:+ rest)).
    cbn [Py.int_digits]. rewrite Hd, (IH _ Hg).
    rewrite (decimal_value_cons_digit c d g Hd). cbn [String.length].
    rewrite Nat2Z.inj_succ, Z.pow_succ_r by lia. f_equal. ring.
Qed.

Lemma int_unsigned_app_run (g rest : string) :
  digit_run g ->
  Py.int_unsigned (g +:+ rest) = Py.int_digits (decimal_value g) false rest.
Proof.
  intros [Hne Hg]. destruct g as [|c g]; [done|].
  unfold all_digits in Hg. cbn [all_chars] in Hg.
  apply andb_true_iff in Hg as [Hc Hg].
  destruct (is_digit_value c Hc) as (d & Hd & _).
  change (String c g +:+ rest) with (String c (g +:+ rest)).
  unfold Py.int_unsigned. rewrite Hd, (int_digits_app_digits g rest d Hg).
  by rewrite (decimal_value_cons_digit c d g Hd).
Qed.

Lemma digit_groups_first (s : string) :
  digit_groups s -> exists c r, s = String c r /\ is_digit c = true.
Proof.
  assert (Hrun : forall g t, digit_run g ->
            exists c r, g +:+ t = String c r /\ is_digit c = true).
  { intros g t [Hne Hg]. destruct g as [|c g]; [done|].
    unfold all_digits in Hg. cbn in Hg. apply andb_true_iff in Hg as [Hc _].
    by exists c, (g +:+ t). }
  intros [g Hg|g r Hg _].
  - rewrite <- (string_app_empty_r g). by apply Hrun.
  - by apply Hrun.
Qed.

Lemma digit_groups_int_unsigned (s : string) :
  digit_groups s -> is_Some (Py.int_unsigned s).
Proof.
  induction 1 as [g Hg|g r Hg Hr IH].
  - rewrite <- (string_app_empty_r g), (int_unsigned_app_run g "" Hg). by eexists.
  - rewrite (int_unsigned_app_run g _ Hg).
    change ("_" +:+ r) with (String "_" r). cbn [Py.int_digits].
    change (Py.digit_value "_") with (@None Z). cbn [Ascii.eqb Bool.eqb andb negb].
    destruct (digit_groups_first r Hr) as (c & r' & -> & Hc).
    destruct (is_digit_value c Hc) as (d & Hd & _).
    unfold Py.int_unsigned in IH. rewrite Hd in IH.
    cbn [Py.int_digits]. rewrite Hd.
    by eapply int_digits_is_Some.
Qed.

(** [int_unsigned] reads exactly the runs of digits joined by single
    underscores, as the number their digits denote. *)
Lemma int_unsigned_spec (s : string) (v : Z) :
  Py.int_unsigned s = Some v
  <-> digit_groups s /\ v = decimal_value (Py.remove_char "_" s).
Proof.
  split.
  - intros Hv. split; [by eapply int_unsigned_groups|by apply int_unsigned_value].
  - intros [Hs ->]. destruct (digit_groups_int_unsigned s Hs) as [w Hw].
    rewrite Hw. f_equal. by apply int_unsigned_value.
Qed.

(** [int_signed] reads the same behind at most one sign. *)
Lemma int_signed_spec (s : string) (v : Z) :
  Py.int_signed s = Some v
  <-> exists sign body,
        s = sign +:+ body /\
        (sign = ""%string \/ sign = "+"%string \/ sign = "-"%string) /\
        digit_groups body /\
        v = (if decide (sign = "-"%string) then -1 else 1)
            * decimal_value (Py.remove_char "_" body).
Proof.
  split.
  - destruct s as [|c r]; [done|]. unfold Py.int_signed.
    destruct (Ascii.eqb c "-") eqn:Hm; [|destruct (Ascii.eqb c "+") eqn:Hp].
    + apply Ascii.eqb_eq in Hm as ->.
      destruct (Py.int_unsigned r) as [w|] eqn:Hw; [|done].
      intros [= <-]. apply int_unsigned_spec in Hw as [Hr ->].
      exists "-"%string, r. split; [reflexivity|]. split; [tauto|]. split; [done|].
      rewrite decide_True by done. lia.
    + apply Ascii.eqb_eq in Hp as ->.
      intros [Hr ->]%int_unsigned_spec.
      exists "+"%string, r. split; [reflexivity|]. split; [tauto|]. split; [done|].
      rewrite decide_False by done. lia.
    + intros [Hr ->]%int_unsigned_spec.
      exists ""%string, (String c r). split; [reflexivity|]. split; [tauto|]. split; [done|].
      rewrite decide_False by done. lia.
  - intros (sign & body & -> & Hsign & Hbody & ->).
    destruct Hsign as [->|[->| ->]].
    + destruct (digit_groups_first body Hbody) as (c & r & -> & Hc).
      destruct (is_digit_not_sign c Hc) as [Hm Hp].
      change ("" +:+ String c r) with (String c r).
      unfold Py.int_signed. rewrite Hm, Hp.
      rewrite decide_False by done. apply int_unsigned_spec. split; [done|lia].
    + change ("+" +:+ body) with (String "+" body). cbn [Py.int_signed Ascii.eqb Bool.eqb].
      rewrite decide_False by done. apply int_unsigned_spec. split; [done|lia].
    + change ("-" +:+ body) with (String "-" body). cbn [Py.int_signed Ascii.eqb Bool.eqb].
      rewrite decide_True by done.
      rewrite (proj2 (int_unsigned_spec body _) (conj Hbody eq_refl)). cbn. f_equal; lia.
Qed.

Lemma rev_app_app (s t u : string) :
  String.rev_app (s +:+ t) u = String.rev_app t (String.rev_app s u).
Proof.
  revert u. induction s as [|c s IH]; intros u; [done|].
  change (String c s +:+ t) with (String c (s +:+ t)). cbn. apply IH.
Qed.

Lemma rev_app_spec (s u : string) : String.rev_app s u = String.rev s +:+ u.
Proof.
  unfold String.rev. revert u. induction s as [|c s IH]; intros u; cbn; [done|].
  rewrite IH, (IH (String c "")), string_app_assoc. reflexivity.
Qed.

Lemma string_rev_app (s t : string) :
  String.rev (s +:+ t) = String.rev t +:+ String.rev s.
Proof. unfold String.rev at 1. rewrite rev_app_app, rev_app_spec. reflexivity. Qed.

Lemma lstrip_blanks_app (lead s : string) :
  all_chars Py.is_space lead = true -> Py.lstrip (lead +:+ s) = Py.lstrip s.
Proof.
  induction lead as [|c lead IH]; cbn [all_chars]; [done|].
  intros [Hc Hl]%andb_true_iff.
  change (String c lead +:+ s) with (String c (lead +:+ s)).
  cbn [Py.lstrip]. rewrite Hc. by apply IH.
Qed.

Lemma lstrip_first (c : ascii) (s : string) :
  Py.is_space c = false -> Py.lstrip (String c s) = String c s.
Proof. intros Hc. cbn. by rewrite Hc. Qed.

(** What [lstrip] takes off is blanks. *)
Lemma lstrip_decompose (s : string) :
  exists lead, s = lead +:+ Py.lstrip s /\ all_chars Py.is_space lead = true.
Proof.
  induction s as [|c s (lead & Hs & Hlead)].
  - by exists ""%string.
  - cbn [Py.lstrip]. destruct (Py.is_space c) eqn:Hc.
    + exists (String c lead). split; [|by cbn; rewrite Hc].
      change (String c lead +:+ Py.lstrip s) with (String c (lead +:+ Py.lstrip s)).
      by rewrite <- Hs.
    + by exists ""%string.
Qed.

(** What [strip] takes off is blanks, at both ends. *)
Lemma strip_decompose (s : string) :
  exists lead trail,
    s = lead +:+ Py.strip s +:+ trail /\
    all_chars Py.is_space lead = true /\ all_chars Py.is_space trail = true.
Proof.
  destruct (lstrip_decompose s) as (lead & Hs & Hlead).
  destruct (lstrip_decompose (String.rev (Py.lstrip s))) as (tail & Hr & Htail).
  exists lead, (String.rev tail). split; [|split; [done|by rewrite all_chars_rev]].
  rewrite Hs at 1. f_equal. unfold Py.strip.
  rewrite <- string_rev_app, <- Hr. by rewrite string_rev_involutive.
Qed.

(** Blanks around a text that neither starts nor ends with a blank are
    what [strip] takes off. *)
Lemma strip_core (lead core trail : string) (c d : ascii) (r r' : string) :
  all_chars Py.is_space lead = true -> all_chars Py.is_space trail = true ->
  core = String c r -> Py.is_space c = false ->
  String.rev core = String d r' -> Py.is_space d = false ->
  Py.strip (lead +:+ core +:+ trail) = core.
Proof.
  intros Hlead Htrail Hcore Hc Hrev Hd. unfold Py.strip.
  rewrite (lstrip_blanks_app lead _ Hlead).
  rewrite Hcore at 1. change (String c r +:+ trail) with (String c (r +:+ trail)).
  rewrite (lstrip_first c _ Hc).
  change (String c (r +:+ trail)) with (String c r +:+ trail). rewrite <- Hcore.
  rewrite string_rev_app, lstrip_blanks_app by (by rewrite all_chars_rev).
  rewrite Hrev, (lstrip_first d _ Hd), <- Hrev. apply string_rev_involutive.
Qed.

Lemma digit_run_last (g t : string) :
  digit_run g -> exists d r, String.rev (t +:+ g) = String d r /\ is_digit d = true.
Proof.
  intros [Hne Hg]. rewrite string_rev_app.
  assert (Hrev : all_digits (String.rev g) = true) by (unfold all_digits; by rewrite all_chars_rev).
  destruct (String.rev g) as [|d r] eqn:Hr.
  - exfalso. apply Hne. rewrite <- (string_rev_involutive g), Hr. reflexivity.
  - unfold all_digits in Hrev. cbn in Hrev. apply andb_true_iff in Hrev as [Hd _].
    by exists d, (r +:+ String.rev t).
Qed.

Lemma digit_groups_last (s t : string) :
  digit_groups s -> exists d r, String.rev (t +:+ s) = String d r /\ is_digit d = true.
Proof.
  intros Hs. revert t. induction Hs as [g Hg|g r Hg Hr IH]; intros t.
  - by apply digit_run_last.
  - replace (t +:+ g +:+ "_" +:+ r) with ((t +:+ g +:+ "_") +:+ r)
      by (by rewrite !string_app_assoc).
    apply IH.
Qed.

(** The runs of digits hold digits and underscores only, and their digits
    are what is left when the underscores are removed. *)
Lemma digit_groups_chars (s : string) :
  digit_groups s -> all_chars digit_or_underscore s = true.
Proof.
  assert (Hrun : forall g, digit_run g -> all_chars digit_or_underscore g = true).
  { intros g [_ Hg]. eapply all_chars_impl; [|exact Hg].
    intros c Hc. unfold digit_or_underscore. by rewrite Hc. }
  induction 1 as [g Hg|g r Hg Hr IH]; [by apply Hrun|].
  rewrite !all_chars_app, (Hrun g Hg), IH. reflexivity.
Qed.

Lemma keep_digits (s : string) :
  all_chars digit_or_underscore s = true ->
  keep_chars is_digit s = Py.remove_char "_" s.
Proof.
  induction s as [|c s IH]; cbn [all_chars keep_chars Py.remove_char]; [done|].
  intros [Hc Hs]%andb_true_iff. rewrite (IH Hs).
  unfold digit_or_underscore in Hc. destruct (is_digit c) eqn:Hd.
  - by rewrite (is_digit_not_underscore c Hd).
  - cbn in Hc. by rewrite Hc.
Qed.

(** [int] reads exactly the texts of integers. *)
Lemma int_spec (s : string) (v : Z) : Py.int s = Ok v <-> int_text s v.
Proof.
  unfold Py.int, int_text. split.
  - destruct (Py.int_signed (Py.strip s)) as [w|] eqn:Hw; [|done].
    intros [= <-].
    apply int_signed_spec in Hw as (sign & body & Hcore & Hsign & Hbody & ->).
    destruct (strip_decompose s) as (lead & trail & Hs & Hlead & Htrail).
    exists lead, sign, body, trail.
    rewrite (all_chars_ext is_blank Py.is_space lead is_blank_spec).
    rewrite (all_chars_ext is_blank Py.is_space trail is_blank_spec).
    rewrite (keep_digits body (digit_groups_chars body Hbody)).
    split; [|by repeat split; tauto].
    rewrite Hs at 1. rewrite Hcore. by rewrite string_app_assoc.
  - intros (lead & sign & body & trail & -> & Hlead & Htrail & Hsign & Hbody & ->).
    rewrite (all_chars_ext is_blank Py.is_space lead is_blank_spec) in Hlead.
    rewrite (all_chars_ext is_blank Py.is_space trail is_blank_spec) in Htrail.
    rewrite (keep_digits body (digit_groups_chars body Hbody)).
    assert (Hsome : Py.int_signed (sign +:+ body)
                    = Some ((if decide (sign = "-"%string) then -1 else 1)
                            * decimal_value (Py.remove_char "_" body)))
      by (apply int_signed_spec; by exists sign, body).
    destruct (digit_groups_last body sign Hbody) as (d & r' & Hrev & Hd).
    assert (Hfirst : exists c r, sign +:+ body = String c r /\ Py.is_space c = false).
    { destruct (digit_groups_first body Hbody) as (c & r & -> & Hc).
      destruct Hsign as [->|[->| ->]].
      - exists c, r. split; [done|by apply is_digit_not_space].
      - by exists "+"%char, (String c r).
      - by exists "-"%char, (String c r). }
    destruct Hfirst as (c & r & Hcore & Hc).
    replace (lead +:+ sign +:+ body +:+ trail) with (lead +:+ (sign +:+ body) +:+ trail)
      by (by rewrite !string_app_assoc).
    rewrite (strip_core lead (sign +:+ body) trail c d r r' Hlead Htrail Hcore Hc Hrev
               (is_digit_not_space d Hd)).
    by rewrite Hsome.
Qed.

(** [int] either reads its argument or raises ValueError. *)
Lemma int_cases (s : string) :
  (exists v, Py.int s = Ok v /\ int_text s v)
  \/ (Py.int s = Raise ValueError /\ forall v, ~ int_text s v).
Proof.
  destruct (Py.int s) as [v|e] eqn:Hs.
  - left. exists v. split; [done|by apply int_spec].
  - right. unfold Py.int in Hs.
    destruct (Py.int_signed (Py.strip s)) eqn:Hw; [done|]. injection Hs as <-.
    split; [done|]. intros v Hv. apply int_spec in Hv. unfold Py.int in Hv.
    by rewrite Hw in Hv.
Qed.

End IntText.

(** ** Amounts *)

Section Amounts.

(** The amount without its separators is what the two calls of [replace]
    in [parseAmount] leave. *)
Lemma unseparated_spec (s : string) :
  unseparated s = Py.remove_char "." (Py.remove_char "," s).
Proof.
  unfold unseparated, is_separator.
  induction s as [|c s IH]; cbn [keep_chars Py.remove_char]; [done|].
  destruct (Ascii.eqb c ",") eqn:Hcomma; cbn [orb negb]; [exact IH|].
  cbn [Py.remove_char]. destruct (Ascii.eqb c "."); cbn [negb]; [exact IH|].
  by rewrite IH.
Qed.

Lemma unseparated_cons_minus (s : string) :
  unseparated (String "-" s) = String "-" (unseparated s).
Proof. reflexivity. Qed.

(** What [parseAmount] computes, case by case. *)
Lemma parseAmount_unfold (s : string) :
  parseAmount s
  = match s with
    | EmptyString => Raise IndexError
    | String c r =>
        if Ascii.eqb c "-" then n ← Py.int (unseparated r); Ok (-1 * n)
        else Py.int (unseparated s)
    end.
Proof. destruct s as [|c r]; [reflexivity|]. rewrite !unseparated_spec. reflexivity. Qed.

Lemma all_digits_first_not_minus (c : ascii) (r : string) :
  all_digits (unseparated (String c r)) = true -> Ascii.eqb c "-" = false.
Proof.
  destruct (Ascii.eqb c "-") eqn:Hc; [|done].
  apply Ascii.eqb_eq in Hc as ->. rewrite unseparated_cons_minus. cbn. done.
Qed.

End Amounts.

(** What [parseAmount] makes of a non-empty amount, by what [int] makes of
    the text it is handed. *)
Lemma parseAmount_int (s : string) :
  s <> ""%string ->
  parseAmount s
  = (n ← Py.int (unseparated (amount_body s));
     Ok (if leading_minus s then - n else n)).
Proof.
  intros Hne. rewrite parseAmount_unfold. destruct s as [|c r]; [done|].
  cbn [amount_body leading_minus]. destruct (Ascii.eqb c "-").
  - destruct (Py.int (unseparated r)) as [n|e]; cbn; [|done]. f_equal; lia.
  - by destruct (Py.int (unseparated (String c r))).
Qed.

(** C6, as the code has it. [parseAmount] removes every comma and dot,
    reads what is left as an integer number of cents and negates it when
    the amount starts with '-': "1.234,56" gives 123456 and "-12,00" gives
    -1200, and in general an amount whose characters besides commas and
    dots are digits (at least one) gives the number those digits denote,
    negated behind a leading '-'. It raises IndexError on the empty
    string. On any other ASCII amount (on other text [int] also takes the
    digits and blanks of other scripts), with the leading '-' taken off and
    the commas and dots removed: when what is left is the text of an
    integer (runs of digits joined by single underscores, behind at most
    one sign, between blanks) it gives that integer, negated behind a
    leading '-'; and when it is not, it raises ValueError. So "+5", "--5"
    and " 5" give 5 and "1_0" gives 10, while "5-", "1__0", "1 2", "+-5",
    "_1" and "1_" raise ValueError. *)
Theorem parseAmount_cents :
  parseAmount "1.234,56" = Ok 123456 /\
  parseAmount "-12,00" = Ok (-1200) /\
  (parseAmount "+5" = Ok 5 /\ parseAmount "--5" = Ok 5 /\
   parseAmount " 5" = Ok 5 /\ parseAmount "1_0" = Ok 10) /\
  (parseAmount "5-" = Raise ValueError /\ parseAmount "1__0" = Raise ValueError /\
   parseAmount "1 2" = Raise ValueError /\ parseAmount "+-5" = Raise ValueError /\
   parseAmount "_1" = Raise ValueError /\ parseAmount "1_" = Raise ValueError) /\
  (forall s, unseparated s <> ""%string -> all_digits (unseparated s) = true ->
     parseAmount s = Ok (decimal_value (unseparated s)) /\
     parseAmount ("-" +:+ s) = Ok (- decimal_value (unseparated s))) /\
  parseAmount "" = Raise IndexError /\
  (forall s, s <> ""%string -> ascii_text s = true ->
     let rest := unseparated (amount_body s) in
     (exists v, int_text rest v /\
                parseAmount s = Ok (if leading_minus s then - v else v))
     \/ ((forall v, ~ int_text rest v) /\ parseAmount s = Raise ValueError)).
Proof.
  split; [reflexivity|]. split; [reflexivity|].
  split; [repeat split; vm_compute; reflexivity|].
  split; [repeat split; vm_compute; reflexivity|].
  split; [|split; [reflexivity|]].
  - intros s Hne Hd. split.
    + rewrite parseAmount_unfold. destruct s as [|c r]; [done|].
      rewrite (all_digits_first_not_minus c r Hd).
      by apply int_all_digits.
    + rewrite parseAmount_unfold.
      change ("-" +:+ s) with (String "-" s). cbn [Ascii.eqb Bool.eqb].
      rewrite (int_all_digits _ Hne Hd). cbn. f_equal; lia.
  - intros s Hne _ rest. rewrite (parseAmount_int s Hne). fold rest.
    destruct (int_cases rest) as [(v & Hv & Htext)|[Hv Hnot]].
    + left. exists v. split; [exact Htext|]. by rewrite Hv.
    + right. split; [exact Hnot|]. by rewrite Hv.
Qed.

(** The general parts of [parseAmount_cents] at work: "2.500,00" and its
    negation; the amount "- 1_000,5 ", whose text behind the '-' is an
    integer between blanks; and amounts whose text is no integer, "12,5x",
    "5-", "1__0", "1 2", "+-5", "_1" and "1_". *)
Lemma parseAmount_cents_witness :
  (parseAmount "2.500,00" = Ok 250000 /\ parseAmount "-2.500,00" = Ok (-250000)) /\
  (int_text " 1_0005 " 10005 /\ parseAmount "- 1_000,5 " = Ok (-10005)) /\
  (parseAmount "12,5x" = Raise ValueError /\
   parseAmount "5-" = Raise ValueError /\
   parseAmount "1__0" = Raise ValueError /\
   parseAmount "1 2" = Raise ValueError /\
   parseAmount "+-5" = Raise ValueError /\
   parseAmount "_1" = Raise ValueError /\
   parseAmount "1_" = Raise ValueError).
Proof.
  destruct parseAmount_cents as (_ & _ & _ & _ & Hdigits & _ & Hint).
  assert (Hraise : forall s, s <> ""%string -> ascii_text s = true ->
            (forall v, parseAmount s <> Ok v) -> parseAmount s = Raise ValueError).
  { intros s Hne Hascii Hno.
    destruct (Hint s Hne Hascii) as [(v & _ & Hv)|[_ Hv]]; [|exact Hv].
    by destruct (Hno _ Hv). }
  split; [|split].
  - apply (Hdigits "2.500,00"%string); [discriminate|reflexivity].
  - destruct (Hint "- 1_000,5 "%string ltac:(discriminate) eq_refl)
      as [(v & Htext & Hv)|[_ Hv]]; [|vm_compute in Hv; discriminate].
    assert (v = 10005) as ->.
    { change (leading_minus "- 1_000,5 ") with true in Hv. cbv iota in Hv.
      assert (Hrun : parseAmount "- 1_000,5 " = Ok (-10005)) by reflexivity.
      rewrite Hrun in Hv. injection Hv as Hv. lia. }
    split; [exact Htext|exact Hv].
  - repeat split; apply Hraise; try discriminate; try reflexivity;
      intros v Hv; vm_compute in Hv; discriminate.
Defined.

(** C6 as stated fails: a sign, a blank or an underscore is content that
    is no digit, and still "+5", "--5", " 5" and "1_0" parse. *)
Lemma parseAmount_accepts_non_digits :
  (all_digits (unseparated "+5") = false /\ parseAmount "+5" = Ok 5) /\
  (all_digits (unseparated (amount_body "--5")) = false /\ parseAmount "--5" = Ok 5) /\
  (all_digits (unseparated " 5") = false /\ parseAmount " 5" = Ok 5) /\
  (all_digits (unseparated "1_0") = false /\ parseAmount "1_0" = Ok 10).
Proof. repeat split. Qed.

(** C7, as the code has it. For each of the cents values 1, -1, 99, 100,
    12345 and -12345, [formatAmount] ends in the euro suffix and
    [parseAmount] raises ValueError on its result; on the result without
    that suffix [parseAmount] succeeds and gives the value back with its
    sign. *)
Theorem parse_format_representatives :
  Forall (fun x =>
            parseAmount (formatAmount x) = Raise ValueError /\
            exists body, formatAmount x = body +:+ euro_suffix /\
                         parseAmount body = Ok x)
         representative_cents.
Proof.
  unfold representative_cents.
  repeat (apply Forall_cons; split;
          [split; [vm_compute; reflexivity|] |]);
    [ exists ",1"%string | exists ",-1"%string | exists ",99"%string
    | exists "1,00"%string | exists "123,45"%string | exists "-123,45"%string
    | apply Forall_nil ];
    (split; vm_compute; reflexivity).
Qed.

(** C7 as stated fails on every value it names: the euro suffix makes
    [parseAmount] raise. *)
Lemma parse_format_raises :
  formatAmount 12345 = "123,45 €"%string /\
  parseAmount (formatAmount 12345) = Raise ValueError /\
  parseAmount (formatAmount 1) = Raise ValueError /\
  parseAmount (formatAmount (-1)) = Raise ValueError.
Proof. repeat split; vm_compute; reflexivity. Qed.

(** ** Slicing and splitting *)

Section Slicing.

Lemma slice_until_neg_1_cons (c : ascii) (s : string) :
  Py.slice_until_neg 1 (String c s)
  = match s with
    | EmptyString => EmptyString
    | String _ _ => String c (Py.slice_until_neg 1 s)
    end.
Proof.
  unfold Py.slice_until_neg, Py.len. destruct s as [|c' r]; [reflexivity|].
  cbn [String.length]. rewrite !Nat.sub_1_r. cbn [Nat.pred Py.take]. reflexivity.
Qed.

(** Whatever the last character is, [s[:-1]] forgets it. *)
Lemma slice_until_neg_1_snoc (s : string) (c : ascii) :
  Py.slice_until_neg 1 (snoc_char s c) = s.
Proof.
  unfold snoc_char. induction s as [|a s IH].
  - reflexivity.
  - change (String a s +:+ String c "") with (String a (s +:+ String c "")).
    rewrite slice_until_neg_1_cons, IH.
    destruct s; reflexivity.
Qed.

Lemma split_nonempty (sep : ascii) (s : string) : Py.split sep s <> [].
Proof.
  destruct s as [|a r]; cbn; [done|].
  destruct (Ascii.eqb a sep); [done|]. by destruct (Py.split sep r).
Qed.

Lemma split_single_empty (sep : ascii) (s : string) :
  Py.split sep s = [""%string] -> s = ""%string.
Proof.
  destruct s as [|a r]; cbn; [done|].
  destruct (Ascii.eqb a sep).
  - intros [= Hr]. by destruct (split_nonempty sep r).
  - by destruct (Py.split sep r).
Qed.

(** Taking the last character off a string takes it off its last field,
    when that field is not empty. *)
Lemma split_slice_until_neg_1 (sep : ascii) (s : string) (fs : list string) (f : string) :
  Py.split sep s = fs ++ [f] -> f <> ""%string ->
  Py.split sep (Py.slice_until_neg 1 s) = fs ++ [Py.slice_until_neg 1 f].
Proof.
  revert fs f; induction s as [|a r IH]; intros fs f Hs Hf.
  - cbn in Hs. destruct fs as [|g [|? ?]]; cbn in Hs; congruence.
  - assert (Hr : r = ""%string \/ exists b r', r = String b r')
      by (destruct r; eauto).
    cbn [Py.split] in Hs. destruct (Ascii.eqb a sep) eqn:Ha.
    + destruct fs as [|g fs]; cbn [app] in Hs.
      { injection Hs as _ Hs. by destruct (split_nonempty sep r). }
      injection Hs as <- Hs.
      destruct Hr as [->|(b & r' & ->)].
      { cbn in Hs. destruct fs as [|? [|? ?]]; cbn in Hs; congruence. }
      rewrite slice_until_neg_1_cons. cbn [Py.split]. rewrite Ha.
      rewrite (IH fs f Hs Hf). reflexivity.
    + destruct (Py.split sep r) as [|g gs] eqn:Hsplit;
        [by destruct (split_nonempty sep r)|].
      destruct fs as [|g' fs]; cbn [app] in Hs.
      * injection Hs as <- ->.
        destruct Hr as [->|(b & r' & ->)].
        { cbn in Hsplit. injection Hsplit as <-. reflexivity. }
        assert (Hg : g <> ""%string).
        { intros ->. apply split_single_empty in Hsplit. discriminate. }
        rewrite (slice_until_neg_1_cons a (String b r')). cbn [Py.split].
        rewrite Ha, (IH [] g eq_refl Hg). cbn [app].
        rewrite (slice_until_neg_1_cons a g). by destruct g.
      * injection Hs as <- ->.
        destruct Hr as [->|(b & r' & ->)].
        { cbn in Hsplit. destruct fs; cbn in Hsplit; congruence. }
        rewrite slice_until_neg_1_cons. cbn [Py.split]. rewrite Ha.
        rewrite (IH (g :: fs) f eq_refl Hf). reflexivity.
Qed.

(** When the last field is empty, the last character is the separator
    before it, and the field goes with it. *)
Lemma split_slice_until_neg_1_empty (sep : ascii) (s : string) (fs : list string) :
  fs <> [] -> Py.split sep s = fs ++ [""%string] ->
  Py.split sep (Py.slice_until_neg 1 s) = fs.
Proof.
  revert fs; induction s as [|a r IH]; intros fs Hfs Hs.
  - cbn in Hs. destruct fs as [|g [|? ?]]; cbn in Hs; congruence.
  - assert (Hr : r = ""%string \/ exists b r', r = String b r')
      by (destruct r; eauto).
    destruct fs as [|g fs]; [done|].
    cbn [Py.split app] in Hs. destruct (Ascii.eqb a sep) eqn:Ha.
    + injection Hs as <- Hs.
      destruct Hr as [->|(b & r' & ->)].
      { cbn in Hs. destruct fs as [|? [|? ?]]; cbn in Hs; [done|congruence..]. }
      destruct fs as [|g' fs].
      { apply split_single_empty in Hs. discriminate. }
      rewrite slice_until_neg_1_cons. cbn [Py.split]. rewrite Ha.
      by rewrite (IH (g' :: fs)).
    + destruct (Py.split sep r) as [|h hs] eqn:Hsplit;
        [by destruct (split_nonempty sep r)|].
      injection Hs as <- ->.
      destruct Hr as [->|(b & r' & ->)].
      { cbn in Hsplit. destruct fs; cbn in Hsplit; congruence. }
      rewrite slice_until_neg_1_cons. cbn [Py.split]. rewrite Ha.
      by rewrite (IH (h :: fs)).
Qed.

End Slicing.

(** ** The ledger reader *)

Section Reader.

Variable parseDate : string -> result Z.

(** A line read field by field, when its first ten fields are known. *)
Lemma parseLine_fields (line : string)
    (f0 f1 f2 f3 f4 f5 f6 f7 f8 f9 : string) (rest : list string) :
  Py.split ";" (Py.slice_until_neg 1 line)
  = f0 :: f1 :: f2 :: f3 :: f4 :: f5 :: f6 :: f7 :: f8 :: f9 :: rest ->
  parseLine parseDate line
  = (d ← parseDate f1; a ← parseAmount f3;
     Ok (transaction_of_fields f0 f2 f4 f5 f6 f7 f8 f9 d a)).
Proof.
  intros Hsplit. unfold parseLine. rewrite Hsplit. cbn.
  destruct (parseDate f1) as [d|e]; cbn; [|reflexivity].
  destruct (parseAmount f3) as [a|e]; reflexivity.
Qed.

(** With fewer than ten fields the line raises. *)
Lemma parseLine_short (line : string) :
  (length (Py.split ";" (Py.slice_until_neg 1 line)) < 10)%nat ->
  raises (parseLine parseDate line).
Proof.
  unfold parseLine.
  destruct (Py.split ";" (Py.slice_until_neg 1 line))
    as [|f0 [|f1 [|f2 [|f3 [|f4 [|f5 [|f6 [|f7 [|f8 [|f9 rest]]]]]]]]]];
    cbn; intros Hlen; try lia; try exact I;
    destruct (parseDate f1); cbn; try exact I;
    destruct (parseAmount f3); cbn; exact I.
Qed.

Lemma parseTransactions_loop_cons (line : string) (data : list string)
    (transactions : list Transaction) (eventNames : list string) :
  for_each (parseTransactions_body parseDate) (line :: data) (transactions, eventNames)
  = match parseLine parseDate line with
    | Ok t => for_each (parseTransactions_body parseDate) data
                (transactions ++ [t], append_if_new eventNames (event t))
    | Raise e => Raise e
    end.
Proof.
  cbn [for_each]. unfold parseTransactions_body.
  destruct (parseLine parseDate line); reflexivity.
Qed.

(** The loop over the data lines: either every line gives its transaction,
    or the loop stops with the exception of the first line that raises. *)
Lemma parseTransactions_loop (data : list string)
    (transactions : list Transaction) (eventNames : list string) :
  (exists new,
      Forall2 (fun line t => parseLine parseDate line = Ok t) data new /\
      for_each (parseTransactions_body parseDate) data (transactions, eventNames)
      = Ok (transactions ++ new,
            fold_left append_if_new (event <$> new) eventNames))
  \/
  (exists e before line after,
      data = before ++ line :: after /\
      Forall (fun l => succeeds (parseLine parseDate l)) before /\
      parseLine parseDate line = Raise e /\
      for_each (parseTransactions_body parseDate) data (transactions, eventNames)
      = Raise e).
Proof.
  revert transactions eventNames.
  induction data as [|line data IH]; intros transactions eventNames.
  - left. exists []. split; [constructor|]. cbn. by rewrite app_nil_r.
  - rewrite parseTransactions_loop_cons.
    destruct (parseLine parseDate line) as [t|e] eqn:Hline.
    + destruct (IH (transactions ++ [t]) (append_if_new eventNames (event t)))
        as [(new & Hnew & Hloop)|(e & before & l & after & -> & Hb & Hl & Hloop)].
      * left. exists (t :: new). split; [by constructor|].
        rewrite Hloop. cbn. by rewrite <- app_assoc.
      * right. exists e, (line :: before), l, after.
        split; [reflexivity|]. split; [|by split].
        constructor; [by rewrite Hline|done].
    + right. exists e, [], line, data. repeat split; [constructor|done].
Qed.

(** C2, as the code has it. The reader needs two lines to skip (with
    fewer it raises StopIteration) and never looks at them. Every later
    line is split on ';' once its last character is off: with ten fields
    or more the first ten, in the order movement, date, info, amount,
    name, event, concept, advance, origin, comment, give one transaction
    unless the date or the amount is rejected, fields beyond the tenth are
    ignored; with fewer than ten fields the line raises. The reader either
    returns one transaction per data line, in order, with the distinct
    event names in the order of first occurrence, or it raises what the
    first failing line raises: no line is dropped. *)
Theorem reader_no_silent_drop :
  (parseTransactions parseDate [] = Raise StopIteration /\
   forall h1, parseTransactions parseDate [h1] = Raise StopIteration) /\
  (forall h1 h2 h1' h2' data,
     parseTransactions parseDate (h1 :: h2 :: data)
     = parseTransactions parseDate (h1' :: h2' :: data)) /\
  (forall line,
     match Py.split ";" (Py.slice_until_neg 1 line) with
     | f0 :: f1 :: f2 :: f3 :: f4 :: f5 :: f6 :: f7 :: f8 :: f9 :: _ =>
         parseLine parseDate line
         = (d ← parseDate f1; a ← parseAmount f3;
            Ok (transaction_of_fields f0 f2 f4 f5 f6 f7 f8 f9 d a))
     | _ => raises (parseLine parseDate line)
     end) /\
  (forall h1 h2 data,
     (exists transactions,
         Forall2 (fun line t => parseLine parseDate line = Ok t) data transactions /\
         parseTransactions parseDate (h1 :: h2 :: data)
         = Ok (transactions, first_occurrences (event <$> transactions)))
     \/
     (exists e before line after,
         data = before ++ line :: after /\
         Forall (fun l => succeeds (parseLine parseDate l)) before /\
         parseLine parseDate line = Raise e /\
         parseTransactions parseDate (h1 :: h2 :: data) = Raise e)).
Proof.
  split; [split; reflexivity|]. split; [reflexivity|]. split.
  - intros line.
    destruct (Py.split ";" (Py.slice_until_neg 1 line))
      as [|f0 [|f1 [|f2 [|f3 [|f4 [|f5 [|f6 [|f7 [|f8 [|f9 rest]]]]]]]]]] eqn:Hsplit;
      try (apply parseLine_short; rewrite Hsplit; cbn; lia).
    by apply (parseLine_fields _ _ _ _ _ _ _ _ _ _ _ rest).
  - intros h1 h2 data.
    change (parseTransactions parseDate (h1 :: h2 :: data))
      with (for_each (parseTransactions_body parseDate) data ([], [])).
    destruct (parseTransactions_loop data [] [])
      as [(new & Hnew & Hloop)|(e & before & l & after & Hd & Hb & Hl & Hloop)].
    + left. exists new. split; [done|].
      rewrite Hloop, append_loop_first_occurrences. reflexivity.
    + right. exists e, before, l, after. by rewrite Hloop.
Qed.

(** X17. Whatever the last character of a line is, the reader takes it
    off before it splits the line: two lines that differ in their last
    character only read the same. So a line of exactly ten fields that no
    line terminator closes reads as the transaction of its first nine
    fields and of the tenth without its last character, unless the date or
    the amount is rejected; and when its tenth field is empty, the
    separator goes instead, nine fields are left and the line raises. *)
Theorem last_character_dropped :
  (forall s c1 c2,
     parseLine parseDate (snoc_char s c1) = parseLine parseDate (snoc_char s c2)) /\
  (forall line f0 f1 f2 f3 f4 f5 f6 f7 f8 f9,
     Py.split ";" line = [f0; f1; f2; f3; f4; f5; f6; f7; f8; f9] ->
     f9 <> ""%string ->
     parseLine parseDate line
     = (d ← parseDate f1; a ← parseAmount f3;
        Ok (transaction_of_fields f0 f2 f4 f5 f6 f7 f8 (Py.slice_until_neg 1 f9) d a))) /\
  (forall line f0 f1 f2 f3 f4 f5 f6 f7 f8,
     Py.split ";" line = [f0; f1; f2; f3; f4; f5; f6; f7; f8; ""%string] ->
     raises (parseLine parseDate line)).
Proof.
  split; [|split].
  - intros s c1 c2. unfold parseLine. by rewrite !slice_until_neg_1_snoc.
  - intros line f0 f1 f2 f3 f4 f5 f6 f7 f8 f9 Hsplit Hf9.
    apply (parseLine_fields _ _ _ _ _ _ _ _ _ _ _ []).
    by apply (split_slice_until_neg_1 ";" line
                [f0; f1; f2; f3; f4; f5; f6; f7; f8] f9).
  - intros line f0 f1 f2 f3 f4 f5 f6 f7 f8 Hsplit.
    apply parseLine_short.
    rewrite (split_slice_until_neg_1_empty ";" line
               [f0; f1; f2; f3; f4; f5; f6; f7; f8]); [cbn; lia|done|done].
Qed.



End Reader.

(** Running the reader with [parseDate_dmy] on a small ledger. *)
Example reader_runs :
  parseTransactions parseDate_dmy
    [ terminated "ledger";
      terminated "movement;date;info;amount;name;event;concept;advance;origin;comment";
      terminated "1;02/01/2023;rent;-1.000,00;Hall;Gala;venue;N;CAIXA;paid";
      terminated "2;03/01/2023;tickets;5,00;Ann;Gala;sales;N;PAYPAL;";
      terminated "3;04/01/2023;fee;-0,35;Paypal;Fees;bank;Y;PAYPAL;x" ]
  = Ok ([ transaction_of_fields "1" "rent" "Hall" "Gala" "venue" "N" "CAIXA" "paid"
            1672617600000 (-100000);
          transaction_of_fields "2" "tickets" "Ann" "Gala" "sales" "N" "PAYPAL" ""
            1672704000000 500;
          transaction_of_fields "3" "fee" "Paypal" "Fees" "bank" "Y" "PAYPAL" "x"
            1672790400000 (-35) ],
        ["Gala"; "Fees"]%string).
Proof. vm_compute. reflexivity. Qed.

(** C2 as stated fails on a line of more than ten fields: it does not
    split into exactly ten fields, and still it is read, from its first
    ten fields. *)
Lemma reader_accepts_extra_fields :
  let line :=
    terminated "7;25/12/2023;info;-12,00;Ann;Gala;food;N;CAIXA;comment;extra;more" in
  length (Py.split ";" line) = 12%nat /\
  length (Py.split ";" (Py.slice_until_neg 1 line)) = 12%nat /\
  parseTransactions parseDate_dmy [terminated "h1"; terminated "h2"; line]
  = Ok ([ transaction_of_fields "7" "info" "Ann" "Gala" "food" "N" "CAIXA" "comment"
            1703462400000 (-1200) ],
        ["Gala"%string]).
Proof. cbv zeta. repeat split; vm_compute; reflexivity. Qed.

(** The ten-field case of [last_character_dropped] on a last line without
    terminator: the comment loses its last character. *)
Lemma last_character_dropped_witness :
  parseLine parseDate_dmy "7;25/12/2023;info;-12,00;Ann;Gala;food;N;CAIXA;comment"
  = Ok (transaction_of_fields "7" "info" "Ann" "Gala" "food" "N" "CAIXA" "commen"
          1703462400000 (-1200)).
Proof.
  rewrite (proj1 (proj2 (last_character_dropped parseDate_dmy))
             "7;25/12/2023;info;-12,00;Ann;Gala;food;N;CAIXA;comment"%string
             "7" "25/12/2023" "info" "-12,00" "Ann" "Gala" "food" "N" "CAIXA" "comment"
             eq_refl ltac:(discriminate)).
  vm_compute. reflexivity.
Defined.



(** ** The summary sheet *)

Section SheetCells.

Lemma cell_inj (c1 c2 : ascii) (r1 r2 : Z) :
  cell (String c1 "") r1 = cell (String c2 "") r2 -> c1 = c2 /\ r1 = r2.
Proof.
  unfold cell, Py.str. intros H.
  change (String c1 (pretty r1) = String c2 (pretty r2)) in H.
  injection H as -> Hr. split; [done|].
  exact (pretty_Z_inj _ _ Hr).
Qed.

Lemma cell_ne_row (c1 c2 : ascii) (r1 r2 : Z) :
  r1 <> r2 -> cell (String c1 "") r1 <> cell (String c2 "") r2.
Proof. intros Hne Heq. apply cell_inj in Heq as [_ ?]. done. Qed.

Lemma cell_ne_col (c1 c2 : ascii) (r1 r2 : Z) :
  c1 <> c2 -> cell (String c1 "") r1 <> cell (String c2 "") r2.
Proof. intros Hne Heq. apply cell_inj in Heq as [? _]. done. Qed.

End SheetCells.

(** Two cell keys differ: by their column letters, or by their rows. *)
Ltac cell_ne :=
  first [ apply cell_ne_col; discriminate
        | apply cell_ne_row; lia ].

(** Reads a cell of a sheet built by a known sequence of writes. *)
Ltac read_cell :=
  repeat first [ rewrite lookup_insert_eq
               | rewrite lookup_insert_ne by cell_ne ];
  try reflexivity.

(** Two cells hold the same amount, formatted. *)
Ltac same_amount := apply (f_equal (fun z => Some (formatAmount z))); lia.

Section SummaryLoops.

Variables (balances : gmap string EventAggregate) (agg : string -> EventAggregate).

Lemma writeEventRow_ok (st : Summary) (e : string) :
  balances !! e = Some (agg e) ->
  writeEventRow balances st e
  = Ok {| sheet :=
            <[cell "D" (i st) := formatAmount (totalGrossBalance (agg e))]>
              (<[cell "C" (i st) := formatAmount (paypalBalance (agg e))]>
                 (<[cell "B" (i st) := formatAmount (caixaBalance (agg e))]>
                    (<[cell "A" (i st) := e]> (sheet st))));
          i := i st + 1;
          totalCaixa := totalCaixa st + caixaBalance (agg e);
          totalPaypal := totalPaypal st + paypalBalance (agg e);
          total := total st + totalGrossBalance (agg e) |}.
Proof.
  intros Hb. unfold writeEventRow, getBalance. cbn. rewrite Hb. reflexivity.
Qed.

(** One loop of [writeEvents]: it writes the rows of the names that pass
    the test, one below the other from the current row on, adds their
    figures to the running totals, and leaves the rows above alone. *)
Lemma writeSection_spec (keep : string -> bool) (names : list string) (st : Summary) :
  (forall e, e ∈ names -> keep e = true -> balances !! e = Some (agg e)) ->
  let rows := filter (fun e => keep e = true) names in
  exists st',
    writeSection keep balances names st = Ok st' /\
    i st' = i st + Z.of_nat (length rows) /\
    totalCaixa st' = totalCaixa st + sumOver caixaBalance agg rows /\
    totalPaypal st' = totalPaypal st + sumOver paypalBalance agg rows /\
    total st' = total st + sumOver totalGrossBalance agg rows /\
    (forall c r, r < i st ->
       sheet st' !! cell (String c "") r = sheet st !! cell (String c "") r) /\
    (forall k e, rows !! k = Some e ->
       row_holds (sheet st') (i st + Z.of_nat k) e (agg e)).
Proof.
  revert st. induction names as [|e names IH]; intros st Hb rows; subst rows.
  - exists st. cbn. unfold sumOver, sumZ; cbn.
    repeat split; try lia; done.
  - unfold writeSection in *. cbn [for_each].
    assert (Hb' : forall e', e' ∈ names -> keep e' = true -> balances !! e' = Some (agg e'))
      by (intros e' He'; apply Hb, elem_of_cons; by right).
    destruct (keep e) eqn:Hk.
    + rewrite writeEventRow_ok by (apply Hb; [apply elem_of_cons; by left|done]).
      cbn [mbind result_bind].
      match goal with |- context [for_each _ names ?s] => set (st1 := s) end.
      destruct (IH st1 Hb') as (st' & Hrun & Hi & Hc & Hp & Ht & Hframe & Hrows).
      exists st'. rewrite filter_cons_True by done.
      split; [exact Hrun|]. unfold sumOver, sumZ in *. cbn [length fmap list_fmap foldr].
      rewrite Hi, Hc, Hp, Ht. subst st1; cbn [i totalCaixa totalPaypal total sheet] in *.
      split; [lia|]. split; [lia|]. split; [lia|]. split; [lia|]. split.
      * intros c r Hr. rewrite Hframe by lia. by read_cell.
      * intros k e' Hk'. destruct k as [|k]; cbn in Hk'.
        -- injection Hk' as <-. rewrite Z.add_0_r.
           repeat split; rewrite Hframe by lia; by read_cell.
        -- replace (i st + Z.of_nat (S k)) with (i st + 1 + Z.of_nat k) by lia.
           by apply Hrows.
    + cbn [mbind result_bind].
      destruct (IH st Hb') as (st' & Hrun & Hrest).
      exists st'. rewrite filter_cons_False by (by rewrite Hk).
      split; [exact Hrun|exact Hrest].
Qed.

End SummaryLoops.

Section SummaryLayout.

Variables (eventNames : list string) (balances : gmap string EventAggregate)
          (sheet0 : gmap string string) (taxNames grantNames : list string)
          (agg : string -> EventAggregate).

Hypothesis balances_agg : forall e, e ∈ eventNames -> balances !! e = Some (agg e).

Let ordinary := ordinaryEvents taxNames grantNames eventNames.
Let grants := grantEvents grantNames eventNames.
Let taxes := taxEvents taxNames eventNames.
Let n_o := Z.of_nat (length ordinary).
Let n_g := Z.of_nat (length grants).
Let n_t := Z.of_nat (length taxes).

Lemma writeEventsTotals_layout :
  exists st,
    writeEventsTotals eventNames balances sheet0 taxNames grantNames = Ok st /\
    i st = 12 + n_o + n_g + n_t /\
    summary_layout taxNames grantNames eventNames agg (sheet st).
Proof.
  unfold writeEventsTotals.
  match goal with |- context [writeSection _ _ _ ?s] => set (st0 := s) end.
  destruct (writeSection_spec balances agg (isOrdinary taxNames grantNames)
              eventNames st0 (fun e He _ => balances_agg e He))
    as (st1 & Hrun1 & Hi1 & Hc1 & Hp1 & Ht1 & Hf1 & Hrows1).
  rewrite Hrun1. cbn [mbind result_bind].
  match goal with |- context [writeSection _ _ _ ?s] => set (st1' := s) end.
  destruct (writeSection_spec balances agg (isGrant grantNames)
              eventNames st1' (fun e He _ => balances_agg e He))
    as (st2 & Hrun2 & Hi2 & Hc2 & Hp2 & Ht2 & Hf2 & Hrows2).
  rewrite Hrun2. cbn [mbind result_bind].
  match goal with |- context [writeSection _ _ _ ?s] => set (st2' := s) end.
  destruct (writeSection_spec balances agg (isTax taxNames)
              eventNames st2' (fun e He _ => balances_agg e He))
    as (st3 & Hrun3 & Hi3 & Hc3 & Hp3 & Ht3 & Hf3 & Hrows3).
  rewrite Hrun3. cbn [mbind result_bind].
  fold (ordinaryEvents taxNames grantNames eventNames) in Hi1, Hc1, Hp1, Ht1, Hrows1.
  fold (grantEvents grantNames eventNames) in Hi2, Hc2, Hp2, Ht2, Hrows2.
  fold (taxEvents taxNames eventNames) in Hi3, Hc3, Hp3, Ht3, Hrows3.
  fold ordinary in Hi1, Hc1, Hp1, Ht1, Hrows1.
  fold grants in Hi2, Hc2, Hp2, Ht2, Hrows2.
  fold taxes in Hi3, Hc3, Hp3, Ht3, Hrows3.
  fold n_o in Hi1. fold n_g in Hi2. fold n_t in Hi3.
  subst st0 st1' st2'.
  cbn [i sheet totalCaixa totalPaypal total setCell skipRows writeTotals] in *.
  eexists. split; [reflexivity|].
  cbn [i sheet totalCaixa totalPaypal total setCell skipRows writeTotals].
  split; [lia|].
  assert (Hlen : forall (l : list string) k e, l !! k = Some e ->
                   (Z.of_nat k < Z.of_nat (length l)))
    by (intros l k e Hk; apply lookup_lt_Some in Hk; lia).
  assert (Hn_o : 0 <= n_o) by (unfold n_o; lia).
  assert (Hn_g : 0 <= n_g) by (unfold n_g; lia).
  assert (Hn_t : 0 <= n_t) by (unfold n_t; lia).
  unfold summary_layout, row_holds, totals_row.
  fold ordinary grants taxes. fold n_o n_g n_t.
  rewrite Hc3, Hp3, Ht3, Hc2, Hp2, Ht2, Hc1, Hp1, Ht1.
  repeat match goal with |- _ /\ _ => split end.
  - intros k e Hk. pose proof (Hlen _ _ _ Hk) as Hlt. fold n_o in Hlt.
    destruct (Hrows1 k e Hk) as (HA & HB & HC & HD).
    repeat match goal with |- _ /\ _ => split end;
      read_cell; rewrite Hf3 by lia; read_cell;
      rewrite Hf2 by lia; read_cell; assumption.
  - read_cell. rewrite Hf3 by lia. read_cell. rewrite Hf2 by lia.
    replace (4 + n_o) with (i st1 + 2) by lia. by read_cell.
  - intros k e Hk. pose proof (Hlen _ _ _ Hk) as Hlt. fold n_g in Hlt.
    destruct (Hrows2 k e Hk) as (HA & HB & HC & HD).
    replace (5 + n_o + Z.of_nat k) with (i st1 + 2 + 1 + Z.of_nat k) by lia.
    repeat match goal with |- _ /\ _ => split end;
      read_cell; rewrite Hf3 by lia; read_cell; assumption.
  - read_cell. rewrite Hf3 by lia. replace (7 + n_o + n_g) with (i st2 + 2) by lia.
    by read_cell.
  - read_cell. rewrite Hf3 by lia. replace (7 + n_o + n_g) with (i st2 + 2) by lia.
    read_cell; try same_amount.
  - read_cell. rewrite Hf3 by lia. replace (7 + n_o + n_g) with (i st2 + 2) by lia.
    read_cell; try same_amount.
  - read_cell. rewrite Hf3 by lia. replace (7 + n_o + n_g) with (i st2 + 2) by lia.
    read_cell; try same_amount.
  - read_cell. rewrite Hf3 by lia. replace (9 + n_o + n_g) with (i st2 + 2 + 2) by lia.
    by read_cell.
  - intros k e Hk. pose proof (Hlen _ _ _ Hk) as Hlt. fold n_t in Hlt.
    destruct (Hrows3 k e Hk) as (HA & HB & HC & HD).
    replace (10 + n_o + n_g + Z.of_nat k) with (i st2 + 2 + 2 + 1 + Z.of_nat k) by lia.
    repeat match goal with |- _ /\ _ => split end; read_cell; assumption.
  - replace (12 + n_o + n_g + n_t) with (i st3 + 2) by lia. by read_cell.
  - replace (12 + n_o + n_g + n_t) with (i st3 + 2) by lia.
    read_cell; try same_amount.
  - replace (12 + n_o + n_g + n_t) with (i st3 + 2) by lia.
    read_cell; try same_amount.
  - replace (12 + n_o + n_g + n_t) with (i st3 + 2) by lia.
    read_cell; try same_amount.
Qed.

End SummaryLayout.

Section SummaryTheorems.

Variables (eventNames : list string) (balances : gmap string EventAggregate)
          (sheet0 : gmap string string) (taxNames grantNames : list string)
          (initialBank finalBank initialPaypal finalPaypal : Z)
          (agg : string -> EventAggregate).

(** The liquidity block is written four rows below the 'Net Total' row
    and further down: it changes no row above. *)
Lemma writeLiquidity_frame (st : Summary) (c : ascii) (r : Z) :
  r < i st + 4 ->
  sheet (writeLiquidity initialBank finalBank initialPaypal finalPaypal st)
    !! cell (String c "") r
  = sheet st !! cell (String c "") r.
Proof.
  intros Hr. unfold writeLiquidity.
  cbn [i sheet totalCaixa totalPaypal total setCell skipRows writeTotals].
  by read_cell.
Qed.

Lemma row_holds_frame (sh sh' : gmap string string) (r : Z) (e : string)
    (b : EventAggregate) :
  (forall c, sh' !! cell (String c "") r = sh !! cell (String c "") r) ->
  row_holds sh r e b -> row_holds sh' r e b.
Proof.
  intros Hf (HA & HB & HC & HD). unfold row_holds. by rewrite !Hf.
Qed.

Lemma totals_row_frame (sh sh' : gmap string string) (r : Z) (label : string)
    (x y z : Z) :
  (forall c, sh' !! cell (String c "") r = sh !! cell (String c "") r) ->
  totals_row sh r label x y z -> totals_row sh' r label x y z.
Proof.
  intros Hf (HA & HB & HC & HD). unfold totals_row. by rewrite !Hf.
Qed.

(** [writeEvents] returns, and its sheet has the layout of the summary. *)
Lemma writeEvents_layout :
  (forall e, e ∈ eventNames -> balances !! e = Some (agg e)) ->
  exists sheet',
    writeEvents eventNames balances sheet0 taxNames grantNames
      initialBank finalBank initialPaypal finalPaypal = Ok sheet' /\
    summary_layout taxNames grantNames eventNames agg sheet'.
Proof.
  intros Hb.
  destruct (writeEventsTotals_layout eventNames balances sheet0 taxNames grantNames
              agg Hb) as (st & Hrun & Hi & Hlayout).
  unfold writeEvents. rewrite Hrun. cbn [mbind result_bind].
  eexists. split; [reflexivity|].
  assert (Hlen : forall (l : list string) k e, l !! k = Some e ->
                   (Z.of_nat k < Z.of_nat (length l)))
    by (intros l k e Hk; apply lookup_lt_Some in Hk; lia).
  unfold summary_layout in *. cbv zeta in *.
  destruct Hlayout as (H1 & H2 & H3 & H4 & H5 & H6 & H7).
  split; [|split; [|split; [|split; [|split; [|split]]]]].
  - intros k e Hk. pose proof (Hlen _ _ _ Hk).
    eapply row_holds_frame; [|by apply H1].
    intros c. apply writeLiquidity_frame. lia.
  - rewrite writeLiquidity_frame by lia. exact H2.
  - intros k e Hk. pose proof (Hlen _ _ _ Hk).
    eapply row_holds_frame; [|by apply H3].
    intros c. apply writeLiquidity_frame. lia.
  - eapply totals_row_frame; [|exact H4].
    intros c. apply writeLiquidity_frame. lia.
  - rewrite writeLiquidity_frame by lia. exact H5.
  - intros k e Hk. pose proof (Hlen _ _ _ Hk).
    eapply row_holds_frame; [|by apply H6].
    intros c. apply writeLiquidity_frame. lia.
  - eapply totals_row_frame; [|exact H7].
    intros c. apply writeLiquidity_frame. lia.
Qed.

(** The three sums of a 'Net Total' row, as one sum over the event names
    with each name as many times as the loops take it. *)
Lemma sumOver_sections (f : EventAggregate -> Z) :
  sumOver f agg (ordinaryEvents taxNames grantNames eventNames)
  + sumOver f agg (grantEvents grantNames eventNames)
  + sumOver f agg (taxEvents taxNames eventNames)
  = sumCounted taxNames grantNames f agg eventNames.
Proof.
  unfold sumOver, sumCounted, ordinaryEvents, grantEvents, taxEvents, times_counted, sumZ.
  induction eventNames as [|e names IH]; [reflexivity|].
  rewrite !filter_cons. cbn [fmap list_fmap foldr]. rewrite <- IH.
  destruct (isOrdinary taxNames grantNames e), (isGrant grantNames e),
    (isTax taxNames e);
    repeat case_decide; try congruence; cbn [fmap list_fmap foldr]; lia.
Qed.

Lemma isOrdinary_true (e : string) :
  isOrdinary taxNames grantNames e = true <-> (e ∉ taxNames) /\ (e ∉ grantNames).
Proof.
  unfold isOrdinary. rewrite andb_true_iff, !bool_decide_eq_true. reflexivity.
Qed.

End SummaryTheorems.

(** C8. When every event name has its aggregate in [balances],
    [writeEvents] returns a sheet laid out in the fixed order ordinary
    events, grants, taxes: the 'Gross Total' row stands after the grants
    and before the 'Taxes' header, and holds, per channel and in total, the
    sum of the gross balances of the ordinary events plus the grants; the
    'Net Total' row stands after the taxes and holds the sum over the three
    sections. *)
Theorem summary_checkpoints
    (eventNames : list string) (balances : gmap string EventAggregate)
    (sheet0 : gmap string string) (taxNames grantNames : list string)
    (initialBank finalBank initialPaypal finalPaypal : Z)
    (agg : string -> EventAggregate) :
  (forall e, e ∈ eventNames -> balances !! e = Some (agg e)) ->
  let ordinary := ordinaryEvents taxNames grantNames eventNames in
  let grants := grantEvents grantNames eventNames in
  let taxes := taxEvents taxNames eventNames in
  let grants_row := 4 + Z.of_nat (length ordinary) in
  let gross_row := grants_row + 3 + Z.of_nat (length grants) in
  let taxes_row := gross_row + 2 in
  let net_row := taxes_row + 3 + Z.of_nat (length taxes) in
  exists sheet',
    writeEvents eventNames balances sheet0 taxNames grantNames
      initialBank finalBank initialPaypal finalPaypal = Ok sheet' /\
    (forall k e, ordinary !! k = Some e ->
       row_holds sheet' (2 + Z.of_nat k) e (agg e)) /\
    sheet' !! cell "A" grants_row = Some "Grants"%string /\
    (forall k e, grants !! k = Some e ->
       row_holds sheet' (grants_row + 1 + Z.of_nat k) e (agg e)) /\
    totals_row sheet' gross_row "Gross Total"
      (sumOver caixaBalance agg ordinary + sumOver caixaBalance agg grants)
      (sumOver paypalBalance agg ordinary + sumOver paypalBalance agg grants)
      (sumOver totalGrossBalance agg ordinary + sumOver totalGrossBalance agg grants) /\
    sheet' !! cell "A" taxes_row = Some "Taxes"%string /\
    (forall k e, taxes !! k = Some e ->
       row_holds sheet' (taxes_row + 1 + Z.of_nat k) e (agg e)) /\
    totals_row sheet' net_row "Net Total"
      (sumOver caixaBalance agg ordinary + sumOver caixaBalance agg grants
       + sumOver caixaBalance agg taxes)
      (sumOver paypalBalance agg ordinary + sumOver paypalBalance agg grants
       + sumOver paypalBalance agg taxes)
      (sumOver totalGrossBalance agg ordinary + sumOver totalGrossBalance agg grants
       + sumOver totalGrossBalance agg taxes).
Proof.
  intros Hb ordinary grants taxes grants_row gross_row taxes_row net_row.
  destruct (writeEvents_layout eventNames balances sheet0 taxNames grantNames
              initialBank finalBank initialPaypal finalPaypal agg Hb)
    as (sheet' & Hrun & Hlayout).
  exists sheet'. split; [exact Hrun|].
  unfold summary_layout in Hlayout. cbv zeta in Hlayout.
  fold ordinary grants taxes in Hlayout.
  destruct Hlayout as (H1 & H2 & H3 & H4 & H5 & H6 & H7).
  split; [exact H1|]. split; [exact H2|]. split.
  { intros k e Hk.
    replace (grants_row + 1 + Z.of_nat k)
      with (5 + Z.of_nat (length ordinary) + Z.of_nat k)
      by (unfold grants_row; lia).
    by apply H3. }
  split.
  { replace gross_row with (7 + Z.of_nat (length ordinary) + Z.of_nat (length grants))
      by (unfold gross_row, grants_row; lia).
    exact H4. }
  split.
  { replace taxes_row with (9 + Z.of_nat (length ordinary) + Z.of_nat (length grants))
      by (unfold taxes_row, gross_row, grants_row; lia).
    exact H5. }
  split.
  { intros k e Hk.
    replace (taxes_row + 1 + Z.of_nat k)
      with (10 + Z.of_nat (length ordinary) + Z.of_nat (length grants) + Z.of_nat k)
      by (unfold taxes_row, gross_row, grants_row; lia).
    by apply H6. }
  replace net_row
    with (12 + Z.of_nat (length ordinary) + Z.of_nat (length grants)
          + Z.of_nat (length taxes))
    by (unfold net_row, taxes_row, gross_row, grants_row; lia).
  exact H7.
Qed.

(** The dict of the main block holds, for each event name, what
    [calculateEvent] returns for it. *)
Lemma calculateBalances_lookup (eventNames : list string)
    (transactions : list Transaction) (e : string) :
  e ∈ eventNames ->
  calculateBalances eventNames transactions !! e
  = Some (calculateEvent e transactions).
Proof.
  unfold calculateBalances.
  assert (Hgen : forall m : gmap string EventAggregate,
             fold_left (fun balances eventName =>
                          <[eventName := calculateEvent eventName transactions]> balances)
                       eventNames m !! e
             = if decide (e ∈ eventNames) then Some (calculateEvent e transactions)
               else m !! e).
  { induction eventNames as [|x names IH]; intros m; cbn [fold_left].
    - rewrite decide_False by apply not_elem_of_nil. reflexivity.
    - rewrite IH. destruct (decide (e ∈ names)) as [Hin|Hnin].
      + rewrite decide_True by (apply elem_of_cons; by right). reflexivity.
      + destruct (decide (e = x)) as [->|Hne].
        * rewrite decide_True by (apply elem_of_cons; by left).
          apply lookup_insert_eq.
        * rewrite decide_False
            by (intros [?|?]%elem_of_cons; [congruence|contradiction]).
          by apply lookup_insert_ne. }
  intros He. rewrite Hgen. by rewrite decide_True.
Qed.

Lemma demo_balances_agg (e : string) :
  e ∈ demo_eventNames -> demo_balances !! e = Some (demo_agg e).
Proof. apply calculateBalances_lookup. Qed.

(** [summary_checkpoints] on the small ledger, with Subsidy a grant and
    IVA a tax: 'Gross Total' stands in row 9 with 295,00 in total, and
    'Net Total' in row 15 with 274,00. *)
Lemma summary_checkpoints_witness :
  exists sheet',
    writeEvents demo_eventNames demo_balances ∅ ["IVA"%string] ["Subsidy"%string]
      0 0 0 0 = Ok sheet' /\
    sheet' !! "A9"%string = Some "Gross Total"%string /\
    sheet' !! "D9"%string = Some "295,00 €"%string /\
    sheet' !! "A15"%string = Some "Net Total"%string /\
    sheet' !! "D15"%string = Some "274,00 €"%string.
Proof.
  destruct (summary_checkpoints demo_eventNames demo_balances ∅
              ["IVA"%string] ["Subsidy"%string] 0 0 0 0 demo_agg demo_balances_agg)
    as (sheet' & Hrun & _ & _ & _ & Hgross & _ & _ & Hnet).
  exists sheet'. split; [exact Hrun|].
  destruct Hgross as (HgA & _ & _ & HgD), Hnet as (HnA & _ & _ & HnD).
  split; [exact HgA|]. split; [exact HgD|]. split; [exact HnA|exact HnD].
Defined.

(** C9, as the code has it. The three loops of [writeEvents] test the
    names independently. An event name that is both in the grants set and
    in the taxes set is in no row of the ordinary section, has a row with
    its figures in the grants section, so that the 'Gross Total' row, the
    sum over the ordinary events and the grants, has them once, and has
    another row in the taxes section: it is taken by two loops, and the
    'Net Total' row holds the sum of the figures of the event names, each
    as many times as the loops take it, so this event's figures are in it
    twice. *)
Theorem event_in_grants_and_taxes
    (eventNames : list string) (balances : gmap string EventAggregate)
    (sheet0 : gmap string string) (taxNames grantNames : list string)
    (initialBank finalBank initialPaypal finalPaypal : Z)
    (agg : string -> EventAggregate) (e : string) :
  (forall e, e ∈ eventNames -> balances !! e = Some (agg e)) ->
  e ∈ eventNames -> e ∈ grantNames -> e ∈ taxNames ->
  let ordinary := ordinaryEvents taxNames grantNames eventNames in
  let grants := grantEvents grantNames eventNames in
  let taxes := taxEvents taxNames eventNames in
  let grants_row := 4 + Z.of_nat (length ordinary) in
  let gross_row := grants_row + 3 + Z.of_nat (length grants) in
  let taxes_row := gross_row + 2 in
  let net_row := taxes_row + 3 + Z.of_nat (length taxes) in
  exists sheet' kg kt,
    writeEvents eventNames balances sheet0 taxNames grantNames
      initialBank finalBank initialPaypal finalPaypal = Ok sheet' /\
    (forall k, (k < length ordinary)%nat ->
       sheet' !! cell "A" (2 + Z.of_nat k) <> Some e) /\
    (grants !! kg = Some e /\
     row_holds sheet' (grants_row + 1 + Z.of_nat kg) e (agg e)) /\
    totals_row sheet' gross_row "Gross Total"
      (sumOver caixaBalance agg ordinary + sumOver caixaBalance agg grants)
      (sumOver paypalBalance agg ordinary + sumOver paypalBalance agg grants)
      (sumOver totalGrossBalance agg ordinary + sumOver totalGrossBalance agg grants) /\
    (taxes !! kt = Some e /\
     row_holds sheet' (taxes_row + 1 + Z.of_nat kt) e (agg e)) /\
    times_counted taxNames grantNames e = 2 /\
    totals_row sheet' net_row "Net Total"
      (sumCounted taxNames grantNames caixaBalance agg eventNames)
      (sumCounted taxNames grantNames paypalBalance agg eventNames)
      (sumCounted taxNames grantNames totalGrossBalance agg eventNames).
Proof.
  intros Hb He Hg Ht ordinary grants taxes grants_row gross_row taxes_row net_row.
  destruct (writeEvents_layout eventNames balances sheet0 taxNames grantNames
              initialBank finalBank initialPaypal finalPaypal agg Hb)
    as (sheet' & Hrun & Hlayout).
  unfold summary_layout in Hlayout. cbv zeta in Hlayout.
  fold ordinary grants taxes in Hlayout.
  destruct Hlayout as (H1 & _ & H3 & H4 & _ & H6 & H7).
  assert (Heg : e ∈ grants).
  { apply list_elem_of_filter. split; [|done]. by apply bool_decide_eq_true. }
  assert (Het : e ∈ taxes).
  { apply list_elem_of_filter. split; [|done]. by apply bool_decide_eq_true. }
  apply list_elem_of_lookup in Heg as [kg Hkg].
  apply list_elem_of_lookup in Het as [kt Hkt].
  exists sheet', kg, kt. split; [exact Hrun|]. split.
  { intros k Hk. apply lookup_lt_is_Some in Hk as [x Hx].
    destruct (H1 k x Hx) as (HA & _). rewrite HA. intros [= ->].
    apply list_elem_of_lookup_2, list_elem_of_filter in Hx as [Hx _].
    apply isOrdinary_true in Hx as [Hx _]. contradiction. }
  split.
  { split; [exact Hkg|].
    replace (grants_row + 1 + Z.of_nat kg)
      with (5 + Z.of_nat (length ordinary) + Z.of_nat kg)
      by (unfold grants_row; lia).
    by apply H3. }
  split.
  { replace gross_row with (7 + Z.of_nat (length ordinary) + Z.of_nat (length grants))
      by (unfold gross_row, grants_row; lia).
    exact H4. }
  split.
  { split; [exact Hkt|].
    replace (taxes_row + 1 + Z.of_nat kt)
      with (10 + Z.of_nat (length ordinary) + Z.of_nat (length grants) + Z.of_nat kt)
      by (unfold taxes_row, gross_row, grants_row; lia).
    by apply H6. }
  split.
  { unfold times_counted, isOrdinary, isGrant, isTax.
    rewrite (bool_decide_eq_false_2 (e ∉ taxNames)) by tauto.
    rewrite (bool_decide_eq_true_2 (e ∈ grantNames)) by done.
    rewrite (bool_decide_eq_true_2 (e ∈ taxNames)) by done. reflexivity. }
  rewrite <- !sumOver_sections.
  replace net_row
    with (12 + Z.of_nat (length ordinary) + Z.of_nat (length grants)
          + Z.of_nat (length taxes))
    by (unfold net_row, taxes_row, gross_row, grants_row; lia).
  exact H7.
Qed.

(** [event_in_grants_and_taxes] on the small ledger, with IVA both a grant
    and a tax: IVA has a row in either section and is counted twice. *)
Lemma event_in_grants_and_taxes_witness :
  exists sheet' kg kt,
    writeEvents demo_eventNames demo_balances ∅ ["IVA"%string]
      ["Subsidy"; "IVA"]%string 0 0 0 0 = Ok sheet' /\
    sheet' !! cell "A" (5 + 1 + Z.of_nat kg) = Some "IVA"%string /\
    sheet' !! cell "A" (5 + 3 + 2 + 2 + 1 + Z.of_nat kt) = Some "IVA"%string /\
    times_counted ["IVA"%string] ["Subsidy"; "IVA"]%string "IVA" = 2.
Proof.
  assert (Hin : "IVA"%string ∈ demo_eventNames)
    by (apply list_elem_of_In; vm_compute; tauto).
  destruct (event_in_grants_and_taxes demo_eventNames demo_balances ∅
              ["IVA"%string] ["Subsidy"; "IVA"]%string 0 0 0 0 demo_agg "IVA"
              demo_balances_agg Hin)
    as (sheet' & kg & kt & Hrun & _ & (_ & HA & _) & _ & (_ & HA' & _) & Hc & _).
  - apply elem_of_cons; right. apply elem_of_cons; by left.
  - apply elem_of_cons; by left.
  - exists sheet', kg, kt. split; [exact Hrun|].
    split; [exact HA|]. split; [exact HA'|exact Hc].
Defined.

(** C9 as stated fails: with IVA both a grant and a tax, IVA has a row in
    the grants section (row 7) and another in the taxes section (row 13),
    and the 'Net Total' of row 16 holds its -21,00 twice: 253,00, where
    the three events once each make 274,00. *)
Lemma event_in_both_sets_twice :
  exists sheet',
    writeEvents demo_eventNames demo_balances ∅ ["IVA"%string]
      ["Subsidy"; "IVA"]%string 0 0 0 0 = Ok sheet' /\
    sheet' !! "A5"%string = Some "Grants"%string /\
    sheet' !! "A7"%string = Some "IVA"%string /\
    sheet' !! "D7"%string = Some "-21,00 €"%string /\
    sheet' !! "A12"%string = Some "Taxes"%string /\
    sheet' !! "A13"%string = Some "IVA"%string /\
    sheet' !! "D13"%string = Some "-21,00 €"%string /\
    sheet' !! "A16"%string = Some "Net Total"%string /\
    sheet' !! "D16"%string = Some "253,00 €"%string /\
    formatAmount (sumOver totalGrossBalance demo_agg demo_eventNames)
    = "274,00 €"%string.
Proof.
  destruct (writeEvents_layout demo_eventNames demo_balances ∅ ["IVA"%string]
              ["Subsidy"; "IVA"]%string 0 0 0 0 demo_agg demo_balances_agg)
    as (sheet' & Hrun & Hlayout).
  unfold summary_layout in Hlayout. cbv zeta in Hlayout.
  destruct Hlayout as (_ & Hgrants & Hg & _ & Htaxes & Ht & (HnA & _ & _ & HnD)).
  destruct (Hg 1%nat "IVA"%string eq_refl) as (HgA & _ & _ & HgD).
  destruct (Ht 0%nat "IVA"%string eq_refl) as (HtA & _ & _ & HtD).
  exists sheet'. split; [exact Hrun|].
  split; [exact Hgrants|]. split; [exact HgA|]. split; [exact HgD|].
  split; [exact Htaxes|]. split; [exact HtA|]. split; [exact HtD|].
  split; [exact HnA|]. split; [exact HnD|].
  vm_compute. reflexivity.
Qed.

(** * Further properties *)

(** ** Strings: appending, taking, dropping *)

Section MoreStrings.

Lemma string_length_app (a b : string) :
  String.length (a +:+ b) = (String.length a + String.length b)%nat.
Proof.
  induction a as [|x a IH]; [reflexivity|].
  rewrite string_app_cons. cbn [String.length]. by rewrite IH.
Qed.

Lemma take_drop (n : nat) (s : string) : Py.take n s +:+ Py.drop n s = s.
Proof.
  revert s; induction n as [|n IH]; intros [|c s]; try reflexivity.
  cbn [Py.take Py.drop]. rewrite string_app_cons. by rewrite IH.
Qed.

Lemma take_app_length (a b : string) : Py.take (String.length a) (a +:+ b) = a.
Proof.
  induction a as [|x a IH]; [by destruct b|].
  rewrite string_app_cons. cbn [String.length Py.take]. by rewrite IH.
Qed.

Lemma drop_app_length (a b : string) : Py.drop (String.length a) (a +:+ b) = b.
Proof.
  induction a as [|x a IH]; [reflexivity|].
  rewrite string_app_cons. cbn [String.length Py.drop]. exact IH.
Qed.

Lemma take_all (n : nat) (s : string) :
  (String.length s <= n)%nat -> Py.take n s = s.
Proof.
  revert s; induction n as [|n IH]; intros [|c s] Hn; cbn in *; try reflexivity.
  - lia.
  - rewrite IH by lia. reflexivity.
Qed.

Lemma all_chars_take (P : ascii -> bool) (n : nat) (s : string) :
  all_chars P s = true -> all_chars P (Py.take n s) = true.
Proof.
  revert s; induction n as [|n IH]; intros [|c s]; cbn; try done.
  intros [Hc Hs]%andb_true_iff. by rewrite Hc, IH.
Qed.

Lemma all_chars_drop (P : ascii -> bool) (n : nat) (s : string) :
  all_chars P s = true -> all_chars P (Py.drop n s) = true.
Proof.
  revert s; induction n as [|n IH]; intros [|c s]; cbn; try done.
  intros [Hc Hs]%andb_true_iff. by apply IH.
Qed.

Lemma remove_char_app (c : ascii) (a b : string) :
  Py.remove_char c (a +:+ b) = Py.remove_char c a +:+ Py.remove_char c b.
Proof.
  induction a as [|x a IH]; [reflexivity|].
  rewrite string_app_cons. cbn [Py.remove_char].
  destruct (Ascii.eqb x c); [exact IH|]. rewrite string_app_cons. by rewrite IH.
Qed.

Lemma remove_char_absent (c : ascii) (s : string) :
  all_chars (fun x => negb (Ascii.eqb x c)) s = true -> Py.remove_char c s = s.
Proof.
  induction s as [|x s IH]; cbn; [done|].
  intros [Hx Hs]%andb_true_iff. apply negb_true_iff in Hx. rewrite Hx.
  by rewrite IH.
Qed.

End MoreStrings.

(** ** The decimal text of an integer *)

Section DecimalText.

Lemma digit_char_pretty (d : N) :
  (d < 10)%N -> pretty_N_char d = digit_char (Z.of_N d).
Proof.
  intros Hd.
  assert (d = 0 \/ d = 1 \/ d = 2 \/ d = 3 \/ d = 4 \/ d = 5 \/ d = 6 \/ d = 7
          \/ d = 8 \/ d = 9)%N as Hcases by lia.
  repeat (destruct Hcases as [->|Hcases]; [reflexivity|]). by subst.
Qed.

Lemma digit_value_digit_char (d : Z) :
  0 <= d < 10 -> Py.digit_value (digit_char d) = Some d.
Proof.
  intros Hd.
  assert (d = 0 \/ d = 1 \/ d = 2 \/ d = 3 \/ d = 4 \/ d = 5 \/ d = 6 \/ d = 7
          \/ d = 8 \/ d = 9) as Hcases by lia.
  repeat (destruct Hcases as [->|Hcases]; [reflexivity|]). by subst.
Qed.

Lemma is_digit_digit_char (d : Z) : 0 <= d < 10 -> is_digit (digit_char d) = true.
Proof.
  intros Hd. rewrite is_digit_spec. apply bool_decide_eq_true.
  rewrite digit_value_digit_char by done. by eexists.
Qed.

Lemma mod_10_digit (x : N) : 0 <= Z.of_N (x `mod` 10) < 10.
Proof.
  split; [apply N2Z.is_nonneg|].
  change 10 with (Z.of_N 10). apply N2Z.inj_lt. by apply N.mod_lt.
Qed.

(** The digits [pretty] puts before a text it was given. *)
Lemma pretty_N_go_app (x : N) (s : string) :
  pretty_N_go x s = pretty_N_go x "" +:+ s.
Proof.
  revert s. induction (N.lt_wf_0 x) as [x _ IH]; intros s.
  destruct (decide (x = 0)%N) as [->|Hx].
  - by rewrite !pretty_N_go_0.
  - rewrite (pretty_N_go_step x s), (pretty_N_go_step x "") by lia.
    rewrite (IH (x `div` 10)%N) by (apply N.div_lt; lia).
    rewrite (IH (x `div` 10)%N ltac:(apply N.div_lt; lia) (String _ "")).
    rewrite string_app_assoc. reflexivity.
Qed.

Lemma pretty_N_go_digits (x : N) (s : string) :
  all_digits s = true -> all_digits (pretty_N_go x s) = true.
Proof.
  revert s. induction (N.lt_wf_0 x) as [x _ IH]; intros s Hs.
  destruct (decide (x = 0)%N) as [->|Hx].
  - by rewrite pretty_N_go_0.
  - rewrite pretty_N_go_step by lia. apply IH; [apply N.div_lt; lia|].
    unfold all_digits in *. cbn [all_chars]. rewrite Hs.
    rewrite digit_char_pretty by (apply N.mod_lt; lia).
    rewrite is_digit_digit_char; [done|].
    apply mod_10_digit.
Qed.

Lemma pretty_N_go_value (x : N) (s : string) :
  decimal_value (pretty_N_go x s)
  = Z.of_N x * 10 ^ Z.of_nat (String.length s) + decimal_value s.
Proof.
  revert s. induction (N.lt_wf_0 x) as [x _ IH]; intros s.
  destruct (decide (x = 0)%N) as [->|Hx].
  - rewrite pretty_N_go_0. lia.
  - rewrite pretty_N_go_step by lia.
    rewrite IH by (apply N.div_lt; lia).
    cbn [decimal_value String.length].
    rewrite digit_char_pretty by (apply N.mod_lt; lia).
    rewrite digit_place_spec, digit_value_digit_char by apply mod_10_digit.
    cbn [default].
    rewrite Nat2Z.inj_succ, Z.pow_succ_r by lia.
    rewrite (N.div_mod x 10) at 3 by lia.
    rewrite N2Z.inj_add, N2Z.inj_mul. unfold id. change (Z.of_N 10) with 10. ring.
Qed.

Lemma pretty_N_go_length (x : N) (s : string) :
  (0 < x)%N -> (String.length s < String.length (pretty_N_go x s))%nat.
Proof.
  revert s. induction (N.lt_wf_0 x) as [x _ IH]; intros s Hx.
  rewrite pretty_N_go_step by lia.
  destruct (decide (x `div` 10 = 0)%N) as [Hz|Hz].
  - rewrite Hz, pretty_N_go_0. cbn. lia.
  - etrans; [|apply IH; [apply N.div_lt; lia|by apply N.neq_0_lt_0]]. cbn. lia.
Qed.

(** The text of a positive integer: digits, at least one, that denote
    it. *)
Lemma str_positive (x : Z) :
  0 < x ->
  all_digits (Py.str x) = true /\ Py.str x <> ""%string /\
  decimal_value (Py.str x) = x.
Proof.
  intros Hx. destruct x as [|p|p]; try lia.
  unfold Py.str, pretty, pretty_Z, pretty, pretty_positive, pretty, pretty_N.
  rewrite decide_False by done.
  split; [by apply pretty_N_go_digits|]. split.
  - pose proof (pretty_N_go_length (N.pos p) "" ltac:(lia)) as Hl.
    intros Heq. rewrite Heq in Hl. cbn in Hl. lia.
  - rewrite pretty_N_go_value. cbn. lia.
Qed.

Lemma str_negative (x : Z) :
  x < 0 -> Py.str x = String "-" (Py.str (- x)).
Proof. intros Hx. destruct x as [|p|p]; try lia. reflexivity. Qed.

End DecimalText.

(** ** Formatted amounts *)

Section FormattedAmounts.

Lemma is_digit_not_char (c k : ascii) :
  is_digit c = true -> Py.digit_value k = None -> Ascii.eqb c k = false.
Proof.
  intros (d & Hd & _)%is_digit_value Hk.
  apply Ascii.eqb_neq. intros ->. congruence.
Qed.

Lemma digits_without (k : ascii) (d : string) :
  Py.digit_value k = None -> all_digits d = true -> Py.remove_char k d = d.
Proof.
  intros Hk Hd. apply remove_char_absent.
  eapply all_chars_impl; [|exact Hd].
  intros c Hc. by rewrite (is_digit_not_char c k Hc Hk).
Qed.

(** A comma put anywhere into a string of digits is all that
    [parseAmount] strips again. *)
Lemma unseparated_comma (d : string) (n : nat) :
  all_digits d = true ->
  unseparated (Py.take n d +:+ "," +:+ Py.drop n d) = d.
Proof.
  intros Hd. rewrite unseparated_spec.
  rewrite (remove_char_app "," (Py.take n d)), (remove_char_app "," ",").
  rewrite (digits_without "," (Py.take n d)), (digits_without "," (Py.drop n d))
    by (done || by apply all_chars_take || by apply all_chars_drop).
  change (Py.remove_char "," ",") with ""%string.
  change ("" +:+ Py.drop n d) with (Py.drop n d).
  rewrite take_drop. by apply digits_without.
Qed.

Lemma int_unsigned_all_digits (d : string) :
  d <> ""%string -> all_digits d = true ->
  Py.int_unsigned d = Some (decimal_value d).
Proof.
  intros Hne Hd. destruct d as [|c d]; [done|].
  cbn [all_digits all_chars] in Hd. apply andb_true_iff in Hd as [Hc Hd].
  destruct (is_digit_value c Hc) as (v & Hv & _).
  unfold Py.int_unsigned. rewrite Hv, (int_digits_all_digits d v Hd).
  cbn [decimal_value]. rewrite digit_place_spec, Hv. reflexivity.
Qed.

Lemma int_minus_digits (d : string) :
  d <> ""%string -> all_digits d = true ->
  Py.int (String "-" d) = Ok (- decimal_value d).
Proof.
  intros Hne Hd. unfold Py.int.
  rewrite strip_all_chars.
  - cbn [Py.int_signed]. change (Ascii.eqb "-" "-") with true. cbn match.
    by rewrite int_unsigned_all_digits.
  - cbn [all_chars]. change (negb (Py.is_space "-")) with true. cbn [andb].
    eapply all_chars_impl; [|exact Hd].
    intros c Hc. by rewrite (is_digit_not_space c Hc).
Qed.

Lemma formatAmount_nonzero (x : Z) :
  x <> 0 ->
  formatAmount x
  = Py.slice_until_neg 2 (Py.str x) +:+ "," +:+
    Py.slice_from_neg 2 (Py.str x) +:+ euro_suffix.
Proof.
  intros Hx. unfold formatAmount.
  destruct (x =? 0) eqn:Hz; [lia|reflexivity].
Qed.

(** The amount a formatted positive number parses to, without the
    suffix. *)
Lemma parseAmount_comma (d : string) (n : nat) :
  d <> ""%string -> all_digits d = true ->
  parseAmount (Py.take n d +:+ "," +:+ Py.drop n d) = Ok (decimal_value d).
Proof.
  intros Hne Hd. rewrite parseAmount_unfold.
  destruct (Py.take n d +:+ "," +:+ Py.drop n d) as [|c r] eqn:Hbody.
  - destruct (Py.take n d); discriminate.
  - assert (Hc : Ascii.eqb c "-" = false).
    { destruct (Py.take n d) as [|c' t] eqn:Ht.
      - injection Hbody as <- _. reflexivity.
      - rewrite string_app_cons in Hbody. injection Hbody as <- _.
        pose proof (all_chars_take is_digit n d Hd) as Hall.
        rewrite Ht in Hall. cbn in Hall. apply andb_true_iff in Hall as [Hc _].
        by apply is_digit_not_char. }
    rewrite Hc, <- Hbody, unseparated_comma by done.
    by apply int_all_digits.
Qed.

End FormattedAmounts.

(** X1. What [formatAmount] writes, [parseAmount] reads back once the euro
    suffix is off: for every amount the formatted text is a body followed
    by the suffix (by nothing for the amount zero), and the body parses to
    the amount, sign included. *)
Theorem formatAmount_then_parseAmount (x : Z) :
  exists body,
    formatAmount x = body +:+ (if x =? 0 then ""%string else euro_suffix) /\
    parseAmount body = Ok x.
Proof.
  destruct (Z.lt_trichotomy x 0) as [Hneg|[->|Hpos]].
  - (* a negative amount *)
    rewrite formatAmount_nonzero by lia.
    replace (x =? 0) with false by lia.
    destruct (str_positive (- x) ltac:(lia)) as (Hd & Hne & Hv).
    rewrite (str_negative x Hneg).
    set (d := Py.str (- x)) in *.
    unfold Py.slice_until_neg, Py.slice_from_neg, Py.len.
    cbn [String.length].
    destruct (String.length d) as [|[|n]] eqn:Hlen.
    + destruct d; [done|discriminate].
    + (* one digit: the comma comes first, the sign stays with the digit *)
      exists (String "," (String "-" d)). split; [reflexivity|].
      rewrite parseAmount_unfold. change (Ascii.eqb "," "-") with false. cbn match.
      change (unseparated (String "," (String "-" d)))
        with (String "-" (unseparated d)).
      rewrite unseparated_spec.
      rewrite (digits_without "," d), (digits_without "." d) by done.
      rewrite int_minus_digits by done. f_equal. lia.
    + (* two digits or more: the sign comes first *)
      replace (S (S (S n)) - 2)%nat with (S n) by lia.
      cbn [Py.take Py.drop].
      exists (String "-" (Py.take n d +:+ "," +:+ Py.drop n d)). split.
      { rewrite !string_app_cons, !string_app_assoc. reflexivity. }
      rewrite parseAmount_unfold. change (Ascii.eqb "-" "-") with true. cbn match.
      rewrite unseparated_comma by done.
      rewrite int_all_digits by done. cbn. f_equal. lia.
  - exists "0,00"%string. split; reflexivity.
  - (* a positive amount *)
    rewrite formatAmount_nonzero by lia.
    replace (x =? 0) with false by lia.
    destruct (str_positive x Hpos) as (Hd & Hne & Hv).
    set (d := Py.str x) in *.
    unfold Py.slice_until_neg, Py.slice_from_neg, Py.len.
    exists (Py.take (String.length d - 2) d +:+ "," +:+ Py.drop (String.length d - 2) d).
    split.
    { rewrite !string_app_assoc. reflexivity. }
    rewrite parseAmount_comma by done. by rewrite Hv.
Qed.

Section AmountShapes.

Lemma pretty_Z_of_N (n : N) : pretty (Z.of_N n) = pretty n.
Proof. by destruct n. Qed.

(** The text of a number of three digits or more ends in its last two
    digits. *)
Lemma pretty_N_hundreds (n : N) :
  (100 <= n)%N ->
  pretty n
  = pretty (n `div` 100)%N
    +:+ String (pretty_N_char ((n `div` 10) `mod` 10)%N)
          (String (pretty_N_char (n `mod` 10)%N) "").
Proof.
  intros Hn.
  assert (H10 : (0 < n `div` 10)%N) by (apply N.div_str_pos; lia).
  assert (H100 : (0 < n `div` 100)%N) by (apply N.div_str_pos; lia).
  unfold pretty, pretty_N.
  rewrite !decide_False by lia.
  rewrite (pretty_N_go_step n) by lia.
  rewrite (pretty_N_go_step (n `div` 10)%N) by done.
  rewrite N.Div0.div_div. change (10 * 10)%N with 100%N.
  apply pretty_N_go_app.
Qed.

Lemma str_hundreds (x : Z) :
  100 <= x -> Py.str x = Py.str (x / 100) +:+ two_digits (x mod 100).
Proof.
  intros Hx. unfold Py.str.
  rewrite <- (Z2N.id x) by lia. set (n := Z.to_N x).
  assert (Hn : (100 <= n)%N)
    by (unfold n; apply N2Z.inj_le; rewrite Z2N.id by lia; exact Hx).
  change 100 with (Z.of_N 100).
  rewrite <- N2Z.inj_div, <- N2Z.inj_mod, !pretty_Z_of_N.
  rewrite (pretty_N_hundreds n Hn). f_equal.
  unfold two_digits.
  rewrite !digit_char_pretty by (apply N.mod_lt; done).
  do 2 f_equal.
  - f_equal. rewrite !N2Z.inj_mod, !N2Z.inj_div. change (Z.of_N 10) with 10.
    change (Z.of_N 100) with 100. clearbody n. Z.div_mod_to_equations. lia.
  - f_equal. rewrite !N2Z.inj_mod. change (Z.of_N 10) with 10.
    change (Z.of_N 100) with 100. clearbody n. Z.div_mod_to_equations. lia.
Qed.

Lemma str_length_one_digit (x : Z) :
  0 < x < 10 -> String.length (Py.str x) = 1%nat.
Proof.
  intros Hx. destruct x as [|p|p]; try lia.
  unfold Py.str, pretty, pretty_Z, pretty, pretty_positive, pretty, pretty_N.
  rewrite decide_False by done.
  rewrite pretty_N_go_step by lia.
  replace (N.pos p `div` 10)%N with 0%N by (symmetry; apply N.div_small; lia).
  by rewrite pretty_N_go_0.
Qed.

Lemma str_length_two_digits (x : Z) :
  10 <= x < 100 -> String.length (Py.str x) = 2%nat.
Proof.
  intros Hx. destruct x as [|p|p]; try lia.
  unfold Py.str, pretty, pretty_Z, pretty, pretty_positive, pretty, pretty_N.
  rewrite decide_False by done.
  rewrite pretty_N_go_step by lia.
  rewrite pretty_N_go_step by (apply N.div_str_pos; lia).
  rewrite N.Div0.div_div. change (10 * 10)%N with 100%N.
  replace (N.pos p `div` 100)%N with 0%N by (symmetry; apply N.div_small; lia).
  by rewrite pretty_N_go_0.
Qed.

Lemma two_digits_length (n : Z) : String.length (two_digits n) = 2%nat.
Proof. reflexivity. Qed.

End AmountShapes.

(** X2. An amount of one euro or more, or of minus one euro or less, is
    formatted as the euros, a comma, the cents on two digits and the euro
    suffix, behind a '-' when it is negative. *)
Theorem formatAmount_euros_and_cents (x : Z) :
  100 <= Z.abs x ->
  formatAmount x
  = (if x <? 0 then "-"%string else ""%string)
    +:+ Py.str (Z.abs x / 100) +:+ "," +:+ two_digits (Z.abs x mod 100)
    +:+ euro_suffix.
Proof.
  intros Hx. rewrite formatAmount_nonzero by lia.
  assert (Hstr : Py.str x
                 = ((if x <? 0 then "-"%string else ""%string) +:+ Py.str (Z.abs x / 100))
                   +:+ two_digits (Z.abs x mod 100)).
  { destruct (x <? 0) eqn:Hneg.
    - rewrite (str_negative x) by lia.
      replace (Z.abs x) with (- x) by lia.
      rewrite (str_hundreds (- x)) by lia. reflexivity.
    - replace (Z.abs x) with x by lia.
      rewrite (str_hundreds x) by lia. reflexivity. }
  rewrite Hstr. unfold Py.slice_until_neg, Py.slice_from_neg, Py.len.
  rewrite string_length_app, two_digits_length.
  replace (_ + 2 - 2)%nat
    with (String.length ((if x <? 0 then "-"%string else ""%string)
                         +:+ Py.str (Z.abs x / 100))) by lia.
  rewrite take_app_length, drop_app_length.
  rewrite !string_app_assoc. reflexivity.
Qed.

(** [formatAmount_euros_and_cents] on 123,45 euros owed. *)
Lemma formatAmount_euros_and_cents_witness :
  formatAmount (-12345) = "-123,45 €"%string.
Proof.
  rewrite (formatAmount_euros_and_cents (-12345)) by (cbn; lia).
  vm_compute. reflexivity.
Defined.

(** X3. An amount below one euro is formatted without a zero before the
    comma and without a zero to fill the cents: the text of the number
    follows the comma as it is, so 5 cents read ",5 €"; from -10 cents
    down the '-' moves before the comma, so -50 cents read "-,50 €". *)
Theorem formatAmount_below_one_euro (x : Z) :
  0 < Z.abs x < 100 ->
  formatAmount x
  = (if x <=? -10 then "-," +:+ Py.str (- x) else "," +:+ Py.str x)
    +:+ euro_suffix.
Proof.
  intros Hx. rewrite formatAmount_nonzero by lia.
  unfold Py.slice_until_neg, Py.slice_from_neg, Py.len.
  destruct (x <=? -10) eqn:Hneg.
  - rewrite (str_negative x) by lia. cbn [String.length].
    rewrite (str_length_two_digits (- x)) by lia.
    cbn [Nat.sub Py.take Py.drop]. reflexivity.
  - assert (Hlen : (String.length (Py.str x) <= 2)%nat).
    { destruct (Z.lt_trichotomy x 0) as [Hn|[->|Hp]]; [|lia|].
      - rewrite (str_negative x) by lia. cbn [String.length].
        rewrite (str_length_one_digit (- x)) by lia. lia.
      - destruct (Z.lt_ge_cases x 10).
        + rewrite str_length_one_digit by lia. lia.
        + rewrite str_length_two_digits by lia. lia. }
    replace (String.length (Py.str x) - 2)%nat with 0%nat by lia.
    cbn [Py.drop]. destruct (Py.str x); reflexivity.
Qed.

(** [formatAmount_below_one_euro] on 5 cents and on -50 cents. *)
Lemma formatAmount_below_one_euro_witness :
  formatAmount 5 = ",5 €"%string /\ formatAmount (-50) = "-,50 €"%string.
Proof.
  split.
  - rewrite (formatAmount_below_one_euro 5) by (cbn; lia). vm_compute. reflexivity.
  - rewrite (formatAmount_below_one_euro (-50)) by (cbn; lia). vm_compute. reflexivity.
Defined.

(** ** Aggregates: order, absent events, net against gross *)

Section MoreAggregates.

Lemma sumAmounts_Permutation (l k : list Transaction) :
  l ≡ₚ k -> sumAmounts l = sumAmounts k.
Proof.
  induction 1 as [|t l k _ IH|t u l|l k m _ IH1 _ IH2].
  - reflexivity.
  - rewrite !sumAmounts_cons. lia.
  - rewrite !sumAmounts_cons. lia.
  - congruence.
Qed.

Lemma calulcateGross_Permutation (l l' k k' : list Transaction) (o : string) :
  l ≡ₚ l' -> k ≡ₚ k' -> calulcateGross l k o = calulcateGross l' k' o.
Proof.
  intros Hl Hk. unfold calulcateGross.
  rewrite (sumAmounts_Permutation (filter (fun t => origin t = o) l)
             (filter (fun t => origin t = o) l')) by (by rewrite Hl).
  rewrite (sumAmounts_Permutation (filter (fun t => origin t = o) k)
             (filter (fun t => origin t = o) k')) by (by rewrite Hk).
  reflexivity.
Qed.

(** Weighted sums grouped by a key, as [sum_by_key] for the amounts. *)
Lemma weighted_sum_by_key (w : Transaction -> Z) (key : Transaction -> string)
    (names : list string) (l : list Transaction) :
  NoDup names -> (forall t, t ∈ l -> key t ∈ names) ->
  sumZ ((fun c => sumZ (w <$> filter (fun t => key t = c) l)) <$> names)
  = sumZ (w <$> l).
Proof.
  intros Hnd. induction l as [|t l IH]; intros Hin.
  - cbn. apply sumZ_zero.
  - cbn [fmap list_fmap]. unfold sumZ at 3. cbn [foldr]. fold (sumZ (w <$> l)).
    rewrite <- IH by (intros u Hu; apply Hin, elem_of_cons; by right).
    rewrite <- (sumZ_indicator names (key t) (w t) Hnd)
      by (apply Hin, elem_of_cons; by left).
    rewrite <- sumZ_fmap_add. f_equal. apply list_fmap_ext.
    intros _ c _. rewrite filter_cons.
    destruct (decide (key t = c)); [|lia]. reflexivity.
Qed.

Lemma sumZ_ones {A : Type} (l : list A) :
  sumZ ((fun _ => 1) <$> l) = Z.of_nat (length l).
Proof.
  induction l as [|x l IH]; [reflexivity|].
  cbn [fmap list_fmap length]. unfold sumZ in *. cbn [foldr]. rewrite IH. lia.
Qed.

End MoreAggregates.

(** X4. The figures of an event do not depend on the order of the
    ledger: after any reordering of the transactions the gross figures of
    both channels, the totals and the net-loss total are the same, the
    loss and profit lists hold the same transactions, and the net-loss
    breakdown holds the same entries (its order is the order in which the
    concepts first occur). *)
Theorem calculateEvent_order_independent
    (eventName : string) (transactions transactions' : list Transaction) :
  transactions ≡ₚ transactions' ->
  let agg := calculateEvent eventName transactions in
  let agg' := calculateEvent eventName transactions' in
  caixaGross agg = caixaGross agg' /\
  paypalGross agg = paypalGross agg' /\
  totalGrossLoss agg = totalGrossLoss agg' /\
  totalGrossProfit agg = totalGrossProfit agg' /\
  totalGrossBalance agg = totalGrossBalance agg' /\
  netLossTotal agg = netLossTotal agg' /\
  transactionsLoss agg ≡ₚ transactionsLoss agg' /\
  transactionsProfit agg ≡ₚ transactionsProfit agg' /\
  netLossConcepts agg ≡ₚ netLossConcepts agg'.
Proof.
  intros Hperm agg agg'; subst agg agg'.
  assert (Hloss : transactionsLoss (calculateEvent eventName transactions)
                  ≡ₚ transactionsLoss (calculateEvent eventName transactions'))
    by (rewrite !calculateEvent_transactionsLoss; by rewrite Hperm).
  assert (Hprofit : transactionsProfit (calculateEvent eventName transactions)
                    ≡ₚ transactionsProfit (calculateEvent eventName transactions'))
    by (rewrite !calculateEvent_transactionsProfit; by rewrite Hperm).
  pose proof (calculateEvent_netLoss eventName transactions) as Hnet.
  pose proof (calculateEvent_netLoss eventName transactions') as Hnet'.
  rewrite calculateEventLossConcepts_spec, getEventConceptNames_first_occurrences in Hnet, Hnet'.
  injection Hnet as Hc Ht. injection Hnet' as Hc' Ht'.
  rewrite !calculateEvent_totalGrossBalance, !calculateEvent_totalGrossLoss,
    !calculateEvent_totalGrossProfit, !calculateEvent_caixaGross,
    !calculateEvent_paypalGross.
  rewrite calculateEvent_transactionsLoss in Hloss.
  rewrite calculateEvent_transactionsProfit in Hprofit.
  rewrite calculateEvent_transactionsLoss in Hloss.
  rewrite calculateEvent_transactionsProfit in Hprofit.
  set (loss := filter (fun t => amount t < 0)
                 (filter (fun t => event t = eventName) transactions)) in *.
  set (loss' := filter (fun t => amount t < 0)
                  (filter (fun t => event t = eventName) transactions')) in *.
  set (profit := filter (fun t => amount t > 0)
                   (filter (fun t => event t = eventName) transactions)) in *.
  set (profit' := filter (fun t => amount t > 0)
                    (filter (fun t => event t = eventName) transactions')) in *.
  rewrite (calulcateGross_Permutation loss loss' profit profit' "CAIXA") by done.
  rewrite (calulcateGross_Permutation loss loss' profit profit' "PAYPAL") by done.
  assert (Hamount : forall c,
             sumAmounts (filter (fun t => concept t = c /\ advance t = false) loss)
             = sumAmounts (filter (fun t => concept t = c /\ advance t = false) loss'))
    by (intros c; apply sumAmounts_Permutation; by rewrite Hloss).
  assert (Hnames : first_occurrences (concept <$> loss)
                   ≡ₚ first_occurrences (concept <$> loss')).
  { apply NoDup_Permutation; [apply first_occurrences_NoDup..|].
    intros c. rewrite !first_occurrences_elem. by rewrite Hloss. }
  rewrite (calculateEvent_transactionsLoss eventName transactions),
    (calculateEvent_transactionsLoss eventName transactions'),
    (calculateEvent_transactionsProfit eventName transactions),
    (calculateEvent_transactionsProfit eventName transactions').
  repeat split; try done.
  - rewrite Ht, Ht'.
    erewrite (list_fmap_ext _ _ (first_occurrences (concept <$> loss)))
      by (intros _ c _; apply Hamount).
    clear -Hnames. induction Hnames as [|c l k _ IH|c d l|l k m _ IH1 _ IH2];
      unfold sumZ in *; cbn in *; lia.
  - rewrite Hc, Hc'.
    erewrite (list_fmap_ext _ _ (first_occurrences (concept <$> loss)))
      by (intros _ c _; rewrite (Hamount c); reflexivity).
    by rewrite Hnames.
Qed.

(** [calculateEvent_order_independent] on the small ledger and the same
    ledger read backwards. *)
Lemma calculateEvent_order_independent_witness :
  totalGrossBalance (calculateEvent "Gala" demo_transactions)
  = totalGrossBalance (calculateEvent "Gala" (reverse demo_transactions)).
Proof.
  exact (proj1 (proj2 (proj2 (proj2 (proj2
    (calculateEvent_order_independent "Gala" demo_transactions
       (reverse demo_transactions)
       (symmetry (reverse_Permutation demo_transactions)))))))).
Defined.

(** X5. An event name that no transaction bears (any name, on an empty
    ledger) gets the empty aggregate: no transactions, no concepts, and
    zero for every figure. *)
Theorem calculateEvent_absent (eventName : string) (transactions : list Transaction) :
  eventName ∉ event <$> transactions ->
  calculateEvent eventName transactions = empty_aggregate.
Proof.
  intros Habsent.
  assert (Hnone : filter (fun t => event t = eventName) transactions = []).
  { induction transactions as [|t l IH]; [reflexivity|].
    cbn [fmap list_fmap] in Habsent. apply not_elem_of_cons in Habsent as [Hne Hl].
    rewrite filter_cons_False by congruence. by apply IH. }
  unfold calculateEvent. rewrite Hnone. reflexivity.
Qed.

(** [calculateEvent_absent] on the small ledger, which has no event
    "Fair". *)
Lemma calculateEvent_absent_witness :
  calculateEvent "Fair" demo_transactions = empty_aggregate.
Proof.
  apply calculateEvent_absent.
  intros Hin. apply list_elem_of_In in Hin. vm_compute in Hin.
  repeat (destruct Hin as [Hin|Hin]; [discriminate Hin|]). exact Hin.
Defined.

(** The gross and the net loss of an event, over its loss transactions as
    [calculateEvent] lists them. *)
Lemma net_and_gross_loss
    (eventName : string) (transactions : list Transaction) :
  Forall (fun t => isChannel (origin t)) transactions ->
  let agg := calculateEvent eventName transactions in
  let loss := filter (fun t => amount t < 0)
                (filter (fun t => event t = eventName) transactions) in
  totalGrossLoss agg = sumAmounts loss /\
  netLossTotal agg = sumAmounts (filter (fun t => advance t = false) loss) /\
  sumAmounts loss
  = sumAmounts (filter (fun t => advance t = false) loss)
    + sumAmounts (filter (fun t => advance t = true) loss) /\
  sumAmounts (filter (fun t => advance t = true) loss) <= 0 /\
  sumAmounts (filter (fun t => advance t = false) loss) <= 0.
Proof.
  intros Hch agg loss0; subst agg loss0.
  pose proof (calculateEvent_netLoss eventName transactions) as Hnet.
  rewrite calculateEventLossConcepts_spec, getEventConceptNames_first_occurrences in Hnet.
  injection Hnet as _ Ht.
  rewrite calculateEvent_totalGrossLoss, Ht.
  set (loss := filter (fun t => amount t < 0)
                 (filter (fun t => event t = eventName) transactions)).
  assert (Hneg : Forall (fun t => amount t < 0) loss).
  { apply Forall_forall. intros t Hin. by apply list_elem_of_filter in Hin as [? _]. }
  assert (Hloss_ch : Forall (fun t => isChannel (origin t)) loss).
  { apply Forall_forall. intros t Hin.
    apply list_elem_of_filter in Hin as [_ Hin].
    apply list_elem_of_filter in Hin as [_ Hin].
    by apply (proj1 (Forall_forall _ _) Hch). }
  (* the net total is the sum of the losses that are no advances *)
  assert (Hnet : sumZ ((fun c => sumAmounts
                          (filter (fun t => concept t = c /\ advance t = false) loss))
                       <$> first_occurrences (concept <$> loss))
                 = sumAmounts (filter (fun t => advance t = false) loss)).
  { rewrite <- (sum_by_key concept (first_occurrences (concept <$> loss))
                  (filter (fun t => advance t = false) loss)).
    - f_equal. apply list_fmap_ext. intros _ c _.
      rewrite list_filter_filter. reflexivity.
    - apply first_occurrences_NoDup.
    - intros t Hin. apply list_elem_of_filter in Hin as [_ Hin].
      rewrite first_occurrences_elem. by apply list_elem_of_fmap_2. }
  rewrite Hnet.
  (* the gross loss is the sum of all the losses *)
  assert (Hgross : grossLoss (calulcateGross loss
                     (filter (fun t => amount t > 0)
                        (filter (fun t => event t = eventName) transactions)) "CAIXA")
                   + grossLoss (calulcateGross loss
                       (filter (fun t => amount t > 0)
                          (filter (fun t => event t = eventName) transactions)) "PAYPAL")
                   = sumAmounts loss).
  { unfold calulcateGross; cbn [grossLoss]. clear -Hloss_ch.
    induction Hloss_ch as [|t l Ht _ IH]; [reflexivity|].
    rewrite !sumAmounts_filter_cons, sumAmounts_cons.
    destruct Ht as [Ho|Ho]; rewrite Ho;
      repeat case_decide; try congruence; lia. }
  rewrite Hgross.
  assert (Hsplit : sumAmounts loss
                   = sumAmounts (filter (fun t => advance t = false) loss)
                     + sumAmounts (filter (fun t => advance t = true) loss)).
  { clear. induction loss as [|t l IH]; [reflexivity|].
    rewrite !sumAmounts_filter_cons, sumAmounts_cons.
    destruct (advance t); repeat case_decide; try congruence; lia. }
  assert (Hadv : sumAmounts (filter (fun t => advance t = true) loss) <= 0).
  { apply sumAmounts_nonpos, Forall_forall. intros t Hin.
    apply list_elem_of_filter in Hin as [_ Hin].
    by apply (proj1 (Forall_forall _ _) Hneg). }
  assert (Hnadv : sumAmounts (filter (fun t => advance t = false) loss) <= 0).
  { apply sumAmounts_nonpos, Forall_forall. intros t Hin.
    apply list_elem_of_filter in Hin as [_ Hin].
    by apply (proj1 (Forall_forall _ _) Hneg). }
  done.
Qed.

(** X6. Net against gross loss. With the loss transactions of an event
    taken from the ledger (its transactions of negative amount), and the
    origin of every transaction CAIXA or PAYPAL: the total gross loss is
    the sum of their amounts, the net-loss total the sum of the amounts of
    those that are no advances, so that the gross loss is the net loss plus
    the sum of the amounts of the advances; the gross loss is the lower of
    the two, and neither is positive. *)
Theorem net_loss_against_gross_loss
    (eventName : string) (transactions : list Transaction) :
  Forall (fun t => isChannel (origin t)) transactions ->
  let agg := calculateEvent eventName transactions in
  let loss := filter (fun t => event t = eventName /\ amount t < 0) transactions in
  totalGrossLoss agg = sumZ (amount <$> loss) /\
  netLossTotal agg = sumZ (amount <$> filter (fun t => advance t = false) loss) /\
  totalGrossLoss agg
  = netLossTotal agg + sumZ (amount <$> filter (fun t => advance t = true) loss) /\
  totalGrossLoss agg <= netLossTotal agg <= 0.
Proof.
  intros Hch agg loss.
  destruct (net_and_gross_loss eventName transactions Hch)
    as (Hgross & Hnet & Hsplit & Hadv & Hnadv).
  fold agg in Hgross, Hnet.
  assert (Hloss : filter (fun t => amount t < 0)
                    (filter (fun t => event t = eventName) transactions) = loss).
  { rewrite list_filter_filter. apply list_filter_iff. tauto. }
  rewrite Hloss in *. rewrite !sumAmounts_sumZ in *.
  rewrite Hgross, Hnet. repeat split; lia.
Qed.

(** [net_loss_against_gross_loss] on a ledger with a loss of 10,00 and an
    advance of 5,00: the gross loss is -15,00, the net loss -10,00. *)
Lemma net_loss_against_gross_loss_witness :
  totalGrossLoss (calculateEvent "Gala" demo_advance_transactions) = -1500 /\
  netLossTotal (calculateEvent "Gala" demo_advance_transactions) = -1000 /\
  totalGrossLoss (calculateEvent "Gala" demo_advance_transactions)
  = netLossTotal (calculateEvent "Gala" demo_advance_transactions) + -500 /\
  totalGrossLoss (calculateEvent "Gala" demo_advance_transactions)
  <= netLossTotal (calculateEvent "Gala" demo_advance_transactions) <= 0.
Proof.
  assert (Hch : Forall (fun t => isChannel (origin t)) demo_advance_transactions)
    by (constructor; [vm_compute; auto|constructor; [vm_compute; auto|constructor]]).
  destruct (net_loss_against_gross_loss "Gala" demo_advance_transactions Hch)
    as (Hgross & Hnet & Hrel & Hle).
  split; [exact Hgross|]. split; [exact Hnet|]. split; [exact Hrel|exact Hle].
Defined.

(** X7. Every transaction of nonzero amount, whatever its origin, is
    listed once: over the distinct event names of a ledger, the loss and
    profit lists of the aggregates have together as many entries as the
    ledger has transactions of nonzero amount, and a transaction listed
    for an event bears that event's name. *)
Theorem every_transaction_listed_once (transactions : list Transaction) :
  sumZ ((fun e =>
           Z.of_nat (length (transactionsLoss (calculateEvent e transactions)))
           + Z.of_nat (length (transactionsProfit (calculateEvent e transactions))))
          <$> eventNamesOf transactions)
  = Z.of_nat (length (filter (fun t => amount t <> 0) transactions)) /\
  (forall e t,
     (t ∈ transactionsLoss (calculateEvent e transactions)
            ++ transactionsProfit (calculateEvent e transactions))
     <-> (t ∈ transactions) /\ event t = e /\ amount t <> 0).
Proof.
  split.
  - rewrite <- sumZ_ones.
    rewrite <- (weighted_sum_by_key (fun _ => 1) event (eventNamesOf transactions)).
    + f_equal. apply list_fmap_ext. intros _ e _.
      rewrite calculateEvent_transactionsLoss, calculateEvent_transactionsProfit.
      rewrite sumZ_ones, !list_filter_filter.
      induction transactions as [|t l IH]; [reflexivity|].
      rewrite !filter_cons.
      destruct (decide (amount t < 0)), (decide (amount t > 0));
        repeat case_decide; cbn [length]; try lia; exfalso; intuition lia.
    + rewrite eventNamesOf_first_occurrences. apply first_occurrences_NoDup.
    + intros t Hin. apply list_elem_of_filter in Hin as [_ Hin].
      rewrite eventNamesOf_first_occurrences, first_occurrences_elem.
      by apply list_elem_of_fmap_2.
  - intros e t.
    rewrite calculateEvent_transactionsLoss, calculateEvent_transactionsProfit.
    rewrite elem_of_app, !list_elem_of_filter. split.
    + intros [(? & ? & ?)|(? & ? & ?)]; repeat split; try done; lia.
    + intros (? & ? & ?).
      destruct (decide (amount t < 0)); [left|right]; repeat split; try done; lia.
Qed.

(** ** The reader on blank lines *)

Section BlankLines.

Variable parseDate : string -> result Z.

(** A line that has no ';' but perhaps as its last character has one
    field: the date field is missing, and the line raises IndexError
    before the date reader is called. *)
Lemma parseLine_single_field (line : string) :
  length (Py.split ";" (Py.slice_until_neg 1 line)) = 1%nat ->
  parseLine parseDate line = Raise IndexError.
Proof.
  unfold parseLine.
  destruct (Py.split ";" (Py.slice_until_neg 1 line)) as [|f0 [|f1 rest]];
    cbn; intros Hlen; try lia. reflexivity.
Qed.

(** X8. A blank data line (a line terminator alone) aborts the run with
    IndexError, whatever the date reader, as soon as the lines before it
    are read: a ledger that ends in an empty line is not read. *)
Theorem blank_line_aborts (h1 h2 : string) (before after : list string) :
  Forall (fun l => succeeds (parseLine parseDate l)) before ->
  parseTransactions parseDate (h1 :: h2 :: before ++ terminated "" :: after)
  = Raise IndexError.
Proof.
  intros Hbefore.
  change (parseTransactions parseDate (h1 :: h2 :: before ++ terminated "" :: after))
    with (for_each (parseTransactions_body parseDate)
            (before ++ terminated "" :: after) ([], [])).
  generalize (@nil Transaction) (@nil string).
  induction Hbefore as [|line before Hline _ IH]; intros transactions eventNames.
  - cbn [app]. rewrite parseTransactions_loop_cons.
    by rewrite parseLine_single_field.
  - cbn [app]. rewrite parseTransactions_loop_cons.
    destruct (parseLine parseDate line) as [t|e]; [apply IH|contradiction].
Qed.

End BlankLines.

(** [blank_line_aborts] on a ledger of one data line and an empty line. *)
Lemma blank_line_aborts_witness :
  parseTransactions parseDate_dmy
    [ terminated "h1"; terminated "h2";
      terminated "1;02/01/2023;rent;-1.000,00;Hall;Gala;venue;N;CAIXA;paid";
      terminated "" ]
  = Raise IndexError.
Proof.
  apply (blank_line_aborts parseDate_dmy (terminated "h1") (terminated "h2")
           [terminated "1;02/01/2023;rent;-1.000,00;Hall;Gala;venue;N;CAIXA;paid"] []).
  constructor; [vm_compute; exact I|constructor].
Defined.

(** ** The summary: missing keys, the ledger total, the liquidity block *)

Section SummaryErrors.

Variable balances : gmap string EventAggregate.

Lemma writeEventRow_missing (st : Summary) (e : string) :
  balances !! e = None -> writeEventRow balances st e = Raise KeyError.
Proof. intros Hb. unfold writeEventRow, getBalance. cbn. by rewrite Hb. Qed.

Lemma writeEventRow_present (st : Summary) (e : string) (b : EventAggregate) :
  balances !! e = Some b -> succeeds (writeEventRow balances st e).
Proof. intros Hb. unfold writeEventRow, getBalance. cbn. by rewrite Hb. Qed.

(** A loop of [writeEvents] either finds the aggregate of every name it
    takes, or raises KeyError. *)
Lemma writeSection_cases (keep : string -> bool) (names : list string) (st : Summary) :
  (exists st', writeSection keep balances names st = Ok st' /\
               forall n, n ∈ names -> keep n = true -> is_Some (balances !! n))
  \/ writeSection keep balances names st = Raise KeyError.
Proof.
  revert st. induction names as [|e names IH]; intros st.
  - left. exists st. split; [reflexivity|]. intros n Hn. by apply elem_of_nil in Hn.
  - unfold writeSection in *. cbn [for_each].
    destruct (keep e) eqn:Hk.
    + destruct (balances !! e) as [b|] eqn:Hb.
      * pose proof (writeEventRow_present st e b Hb) as Hok.
        destruct (writeEventRow balances st e) as [st1|?]; [|contradiction].
        cbn [mbind result_bind].
        destruct (IH st1) as [(st' & Hrun & Hall)|Hraise]; [left|by right].
        exists st'. split; [exact Hrun|].
        intros n [->|Hn]%elem_of_cons Hkeep; [by rewrite Hb|by apply Hall].
      * right. by rewrite writeEventRow_missing.
    + cbn [mbind result_bind].
      destruct (IH st) as [(st' & Hrun & Hall)|Hraise]; [left|by right].
      exists st'. split; [exact Hrun|].
      intros n [->|Hn]%elem_of_cons Hkeep; [congruence|by apply Hall].
Qed.

End SummaryErrors.

(** X9. [writeEvents] looks up every event name in [balances]: when one
    of the names has no aggregate there, it raises KeyError and returns no
    sheet. *)
Theorem writeEvents_missing_key
    (eventNames : list string) (balances : gmap string EventAggregate)
    (sheet0 : gmap string string) (taxNames grantNames : list string)
    (initialBank finalBank initialPaypal finalPaypal : Z) (e : string) :
  e ∈ eventNames -> balances !! e = None ->
  writeEvents eventNames balances sheet0 taxNames grantNames
    initialBank finalBank initialPaypal finalPaypal = Raise KeyError.
Proof.
  intros He Hb. unfold writeEvents, writeEventsTotals.
  assert (Hnot : forall keep, keep e = true ->
            ~ (forall n, n ∈ eventNames -> keep n = true -> is_Some (balances !! n))).
  { intros keep Hk Hall. destruct (Hall e He Hk) as [b Hsome]. congruence. }
  match goal with |- context [writeSection ?k _ _ ?s] =>
    destruct (writeSection_cases balances k eventNames s) as [(st1 & -> & H1)| ->]
  end; [|reflexivity].
  cbn [mbind result_bind].
  match goal with |- context [writeSection ?k _ _ ?s] =>
    destruct (writeSection_cases balances k eventNames s) as [(st2 & -> & H2)| ->]
  end; [|reflexivity].
  cbn [mbind result_bind].
  match goal with |- context [writeSection ?k _ _ ?s] =>
    destruct (writeSection_cases balances k eventNames s) as [(st3 & -> & H3)| ->]
  end; [|reflexivity].
  exfalso.
  destruct (isTax taxNames e) eqn:Ht; [by apply (Hnot _ Ht H3)|].
  destruct (isGrant grantNames e) eqn:Hg; [by apply (Hnot _ Hg H2)|].
  apply (Hnot (isOrdinary taxNames grantNames)); [|exact H1].
  unfold isOrdinary, isTax, isGrant in *.
  apply bool_decide_eq_false in Ht, Hg.
  by rewrite !bool_decide_eq_true_2.
Qed.

(** [writeEvents_missing_key] on the small ledger, with a name "Fair" that
    has no aggregate. *)
Lemma writeEvents_missing_key_witness :
  writeEvents (demo_eventNames ++ ["Fair"%string]) demo_balances ∅
    ["IVA"%string] ["Subsidy"%string] 0 0 0 0 = Raise KeyError.
Proof.
  apply (writeEvents_missing_key _ _ _ _ _ _ _ _ _ "Fair").
  - apply elem_of_app; right. apply elem_of_cons; by left.
  - vm_compute. reflexivity.
Defined.

Section LedgerTotal.

Variable transactions : list Transaction.

(** The balance of one channel for one event: the amounts of the event's
    transactions through that channel. *)
Lemma channel_balance (eventName o : string) :
  grossBalance
    (calulcateGross
       (filter (fun t => amount t < 0)
          (filter (fun t => event t = eventName) transactions))
       (filter (fun t => amount t > 0)
          (filter (fun t => event t = eventName) transactions)) o)
  = sumAmounts (filter (fun t => event t = eventName)
                  (filter (fun t => origin t = o) transactions)).
Proof.
  unfold calulcateGross; cbn [grossBalance].
  rewrite !list_filter_filter.
  induction transactions as [|t l IH]; [reflexivity|].
  rewrite !sumAmounts_filter_cons.
  destruct (decide (amount t > 0)), (decide (amount t < 0));
    repeat case_decide; try lia; exfalso; intuition (try congruence; try lia).
Qed.

Lemma sumOver_channel (o : string) (f : EventAggregate -> Z) :
  (forall e, f (calculateEvent e transactions)
             = sumAmounts (filter (fun t => event t = e)
                             (filter (fun t => origin t = o) transactions))) ->
  sumOver f (fun e => calculateEvent e transactions) (eventNamesOf transactions)
  = sumAmounts (filter (fun t => origin t = o) transactions).
Proof.
  intros Hf. unfold sumOver.
  erewrite list_fmap_ext by (intros _ e _; apply Hf).
  apply (sum_by_key event).
  - rewrite eventNamesOf_first_occurrences. apply first_occurrences_NoDup.
  - intros t Ht. apply list_elem_of_filter in Ht as [_ Ht].
    rewrite eventNamesOf_first_occurrences, first_occurrences_elem.
    by apply list_elem_of_fmap_2.
Qed.

Lemma sumOver_caixa :
  sumOver caixaBalance (fun e => calculateEvent e transactions)
    (eventNamesOf transactions)
  = sumAmounts (filter (fun t => origin t = "CAIXA"%string) transactions).
Proof.
  apply sumOver_channel. intros e. unfold caixaBalance.
  rewrite calculateEvent_caixaGross. apply channel_balance.
Qed.

Lemma sumOver_paypal :
  sumOver paypalBalance (fun e => calculateEvent e transactions)
    (eventNamesOf transactions)
  = sumAmounts (filter (fun t => origin t = "PAYPAL"%string) transactions).
Proof.
  apply sumOver_channel. intros e. unfold paypalBalance.
  rewrite calculateEvent_paypalGross. apply channel_balance.
Qed.

Lemma sumOver_total :
  sumOver totalGrossBalance (fun e => calculateEvent e transactions)
    (eventNamesOf transactions)
  = sumAmounts (filter (fun t => isChannel (origin t)) transactions).
Proof.
  transitivity
    (sumAmounts (filter (fun t => amount t <> 0 /\ isChannel (origin t)) transactions)).
  - unfold sumOver.
    erewrite list_fmap_ext by (intros _ e _; apply totalGrossBalance_channels).
    apply (sum_by_key event).
    + rewrite eventNamesOf_first_occurrences. apply first_occurrences_NoDup.
    + intros t Ht. apply list_elem_of_filter in Ht as [_ Ht].
      rewrite eventNamesOf_first_occurrences, first_occurrences_elem.
      by apply list_elem_of_fmap_2.
  - induction transactions as [|t l IH]; [reflexivity|].
    rewrite !sumAmounts_filter_cons, IH.
    destruct (decide (amount t = 0));
      repeat case_decide; try lia; exfalso; intuition lia.
Qed.

End LedgerTotal.

Section CountedOnce.

Variables (taxNames grantNames : list string).

Lemma times_counted_once (e : string) :
  ~ ((e ∈ grantNames) /\ (e ∈ taxNames)) -> times_counted taxNames grantNames e = 1.
Proof.
  intros Hnot. unfold times_counted, isOrdinary, isGrant, isTax.
  destruct (decide (e ∈ taxNames)), (decide (e ∈ grantNames)); [tauto|..].
  - rewrite (bool_decide_eq_false_2 (e ∉ taxNames)) by tauto.
    rewrite (bool_decide_eq_true_2 (e ∈ taxNames)) by done.
    rewrite (bool_decide_eq_false_2 (e ∈ grantNames)) by done. reflexivity.
  - rewrite (bool_decide_eq_true_2 (e ∉ taxNames)) by done.
    rewrite (bool_decide_eq_false_2 (e ∉ grantNames)) by tauto.
    rewrite (bool_decide_eq_false_2 (e ∈ taxNames)) by done.
    rewrite (bool_decide_eq_true_2 (e ∈ grantNames)) by done. reflexivity.
  - rewrite (bool_decide_eq_true_2 (e ∉ taxNames)) by done.
    rewrite (bool_decide_eq_true_2 (e ∉ grantNames)) by done.
    rewrite (bool_decide_eq_false_2 (e ∈ taxNames)) by done.
    rewrite (bool_decide_eq_false_2 (e ∈ grantNames)) by done. reflexivity.
Qed.

Lemma sumCounted_once (f : EventAggregate -> Z) (agg : string -> EventAggregate)
    (names : list string) :
  (forall e, e ∈ names -> ~ ((e ∈ grantNames) /\ (e ∈ taxNames))) ->
  sumCounted taxNames grantNames f agg names = sumOver f agg names.
Proof.
  intros Hnames. unfold sumCounted, sumOver. f_equal.
  apply list_fmap_ext. intros k e He.
  rewrite times_counted_once; [lia|].
  apply Hnames. by eapply list_elem_of_lookup_2.
Qed.

End CountedOnce.

(** X10. From the ledger to the summary. With the balances of the main
    block, [writeEvents] returns a sheet; and when no event of the ledger
    is both a grant and a tax, its 'Net Total' row holds the total of the
    ledger: per channel the sum of the amounts of the transactions
    through that channel, and in total the sum over both channels. *)
Theorem net_total_is_ledger_total
    (transactions : list Transaction) (sheet0 : gmap string string)
    (taxNames grantNames : list string)
    (initialBank finalBank initialPaypal finalPaypal : Z) :
  (forall e, e ∈ eventNamesOf transactions ->
             ~ ((e ∈ grantNames) /\ (e ∈ taxNames))) ->
  let eventNames := eventNamesOf transactions in
  let net_row :=
    12 + Z.of_nat (length (ordinaryEvents taxNames grantNames eventNames))
    + Z.of_nat (length (grantEvents grantNames eventNames))
    + Z.of_nat (length (taxEvents taxNames eventNames)) in
  exists sheet',
    writeEvents eventNames (calculateBalances eventNames transactions) sheet0
      taxNames grantNames initialBank finalBank initialPaypal finalPaypal
    = Ok sheet' /\
    totals_row sheet' net_row "Net Total"
      (sumZ (amount <$> filter (fun t => origin t = "CAIXA"%string) transactions))
      (sumZ (amount <$> filter (fun t => origin t = "PAYPAL"%string) transactions))
      (sumZ (amount <$> filter (fun t => isChannel (origin t)) transactions)).
Proof.
  intros Hdisjoint eventNames net_row.
  destruct (writeEvents_layout eventNames (calculateBalances eventNames transactions)
              sheet0 taxNames grantNames initialBank finalBank initialPaypal
              finalPaypal (fun e => calculateEvent e transactions)
              (calculateBalances_lookup eventNames transactions))
    as (sheet' & Hrun & Hlayout).
  exists sheet'. split; [exact Hrun|].
  unfold summary_layout in Hlayout. cbv zeta in Hlayout.
  destruct Hlayout as (_ & _ & _ & _ & _ & _ & H7).
  rewrite !sumOver_sections in H7.
  rewrite !sumCounted_once in H7 by exact Hdisjoint.
  unfold eventNames in H7.
  rewrite sumOver_caixa, sumOver_paypal, sumOver_total in H7.
  rewrite !sumAmounts_sumZ in H7. exact H7.
Qed.

(** [net_total_is_ledger_total] on the small ledger, with Subsidy a grant
    and IVA a tax: the ledger adds up to 274,00. *)
Lemma net_total_is_ledger_total_witness :
  exists sheet',
    writeEvents demo_eventNames demo_balances ∅ ["IVA"%string] ["Subsidy"%string]
      0 0 0 0 = Ok sheet' /\
    sheet' !! "D15"%string = Some "274,00 €"%string.
Proof.
  destruct (net_total_is_ledger_total demo_transactions ∅
              ["IVA"%string] ["Subsidy"%string] 0 0 0 0)
    as (sheet' & Hrun & _ & _ & _ & HD).
  - intros e _ [Hg Ht].
    apply list_elem_of_singleton in Hg. apply list_elem_of_singleton in Ht.
    congruence.
  - exists sheet'. split; [exact Hrun|exact HD].
Defined.

Section Liquidity.

Variables (eventNames : list string) (balances : gmap string EventAggregate)
          (sheet0 : gmap string string) (taxNames grantNames : list string)
          (initialBank finalBank initialPaypal finalPaypal : Z)
          (agg : string -> EventAggregate).

Hypothesis balances_agg : forall e, e ∈ eventNames -> balances !! e = Some (agg e).

(** The running totals when the 'Net Total' row is written. *)
Lemma writeEventsTotals_totals :
  exists st,
    writeEventsTotals eventNames balances sheet0 taxNames grantNames = Ok st /\
    totalCaixa st = sumCounted taxNames grantNames caixaBalance agg eventNames /\
    totalPaypal st = sumCounted taxNames grantNames paypalBalance agg eventNames /\
    total st = sumCounted taxNames grantNames totalGrossBalance agg eventNames.
Proof.
  unfold writeEventsTotals.
  match goal with |- context [writeSection _ _ _ ?s] => set (st0 := s) end.
  destruct (writeSection_spec balances agg (isOrdinary taxNames grantNames)
              eventNames st0 (fun e He _ => balances_agg e He))
    as (st1 & Hrun1 & _ & Hc1 & Hp1 & Ht1 & _).
  rewrite Hrun1. cbn [mbind result_bind].
  match goal with |- context [writeSection _ _ _ ?s] => set (st1' := s) end.
  destruct (writeSection_spec balances agg (isGrant grantNames)
              eventNames st1' (fun e He _ => balances_agg e He))
    as (st2 & Hrun2 & _ & Hc2 & Hp2 & Ht2 & _).
  rewrite Hrun2. cbn [mbind result_bind].
  match goal with |- context [writeSection _ _ _ ?s] => set (st2' := s) end.
  destruct (writeSection_spec balances agg (isTax taxNames)
              eventNames st2' (fun e He _ => balances_agg e He))
    as (st3 & Hrun3 & _ & Hc3 & Hp3 & Ht3 & _).
  rewrite Hrun3. cbn [mbind result_bind].
  eexists. split; [reflexivity|].
  subst st0 st1' st2'.
  cbn [i sheet totalCaixa totalPaypal total setCell skipRows writeTotals] in *.
  rewrite <- !sumOver_sections.
  unfold ordinaryEvents, grantEvents, taxEvents.
  rewrite Hc3, Hp3, Ht3, Hc2, Hp2, Ht2, Hc1, Hp1, Ht1. lia.
Qed.

End Liquidity.

(** X11. The liquidity block. Below the 'Net Total' row, four rows
    further down, [writeEvents] writes a header and four rows: the initial
    and the final liquidity as they were entered, the theoretical
    difference, final minus initial for either channel and for both, and
    the real difference, which repeats the figures of the 'Net Total'
    row. *)
Theorem liquidity_block
    (eventNames : list string) (balances : gmap string EventAggregate)
    (sheet0 : gmap string string) (taxNames grantNames : list string)
    (initialBank finalBank initialPaypal finalPaypal : Z)
    (agg : string -> EventAggregate) :
  (forall e, e ∈ eventNames -> balances !! e = Some (agg e)) ->
  let net_row :=
    12 + Z.of_nat (length (ordinaryEvents taxNames grantNames eventNames))
    + Z.of_nat (length (grantEvents grantNames eventNames))
    + Z.of_nat (length (taxEvents taxNames eventNames)) in
  let caixa := sumCounted taxNames grantNames caixaBalance agg eventNames in
  let paypal := sumCounted taxNames grantNames paypalBalance agg eventNames in
  let all := sumCounted taxNames grantNames totalGrossBalance agg eventNames in
  exists sheet',
    writeEvents eventNames balances sheet0 taxNames grantNames
      initialBank finalBank initialPaypal finalPaypal = Ok sheet' /\
    totals_row sheet' net_row "Net Total" caixa paypal all /\
    (sheet' !! cell "B" (net_row + 4) = Some "Caixa"%string /\
     sheet' !! cell "C" (net_row + 4) = Some "Paypal"%string /\
     sheet' !! cell "D" (net_row + 4) = Some "Total"%string) /\
    totals_row sheet' (net_row + 5) "Initial liquidity"
      initialBank initialPaypal (initialPaypal + initialBank) /\
    totals_row sheet' (net_row + 6) "Final liquidity"
      finalBank finalPaypal (finalPaypal + finalBank) /\
    totals_row sheet' (net_row + 7) "Theoretical difference"
      (finalBank - initialBank) (finalPaypal - initialPaypal)
      (finalPaypal + finalBank - initialBank - initialPaypal) /\
    totals_row sheet' (net_row + 8) "Real difference" caixa paypal all.
Proof.
  intros Hb net_row caixa paypal all.
  destruct (writeEventsTotals_layout eventNames balances sheet0 taxNames grantNames
              agg Hb) as (st & Hrun & Hi & Hlayout).
  destruct (writeEventsTotals_totals eventNames balances sheet0 taxNames grantNames
              agg Hb) as (st' & Hrun' & Hc & Hp & Ht).
  assert (st' = st) as -> by congruence.
  unfold writeEvents. rewrite Hrun. cbn [mbind result_bind].
  eexists. split; [reflexivity|].
  unfold summary_layout in Hlayout. cbv zeta in Hlayout.
  destruct Hlayout as (_ & _ & _ & _ & _ & _ & H7).
  rewrite !sumOver_sections in H7. fold net_row caixa paypal all in H7, Hi.
  fold caixa in Hc. fold paypal in Hp. fold all in Ht.
  split.
  { eapply totals_row_frame; [|exact H7].
    intros c. apply writeLiquidity_frame. lia. }
  unfold totals_row, writeLiquidity.
  cbn [i sheet totalCaixa totalPaypal total setCell skipRows writeTotals].
  rewrite Hc, Hp, Ht.
  replace (i st + 4 + 1 + 1 + 1 + 1) with (net_row + 8) by lia.
  replace (i st + 4 + 1 + 1 + 1) with (net_row + 7) by lia.
  replace (i st + 4 + 1 + 1) with (net_row + 6) by lia.
  replace (i st + 4 + 1) with (net_row + 5) by lia.
  replace (i st + 4) with (net_row + 4) by lia.
  repeat match goal with |- _ /\ _ => split end; by read_cell.
Qed.

(** [liquidity_block] on the small ledger, with a bank balance that went
    from 100,00 to 374,00. *)
Lemma liquidity_block_witness :
  exists sheet',
    writeEvents demo_eventNames demo_balances ∅ ["IVA"%string] ["Subsidy"%string]
      10000 37400 0 0 = Ok sheet' /\
    sheet' !! "A22"%string = Some "Theoretical difference"%string /\
    sheet' !! "D22"%string = Some "274,00 €"%string /\
    sheet' !! "A23"%string = Some "Real difference"%string /\
    sheet' !! "D23"%string = Some "274,00 €"%string.
Proof.
  destruct (liquidity_block demo_eventNames demo_balances ∅
              ["IVA"%string] ["Subsidy"%string] 10000 37400 0 0 demo_agg
              demo_balances_agg)
    as (sheet' & Hrun & _ & _ & _ & _ & (HtA & _ & _ & HtD) & (HrA & _ & _ & HrD)).
  exists sheet'. split; [exact Hrun|].
  split; [exact HtA|]. split; [exact HtD|]. split; [exact HrA|exact HrD].
Defined.

(** ** The loss and profit sheet *)

Section LossProfitLoops.

Variables (balances : gmap string EventAggregate) (agg : string -> EventAggregate).

(** The two ways a loop of [writeLossProfit] adds a figure to the running
    totals: [wp] times to the profit and [wl] times to the loss, with
    weights 1 and 0 or 0 and 1. *)
Variables (add : Z -> LossProfit.t -> LossProfit.t) (wp wl : Z).

Hypothesis add_sheet : forall x st, LossProfit.sheet (add x st) = LossProfit.sheet st.
Hypothesis add_i : forall x st, LossProfit.i (add x st) = LossProfit.i st.
Hypothesis add_profit : forall x st,
  LossProfit.totalProfit (add x st) = LossProfit.totalProfit st + wp * x.
Hypothesis add_loss : forall x st,
  LossProfit.totalLoss (add x st) = LossProfit.totalLoss st + wl * x.

Lemma writeFigureRow_ok (figure : EventAggregate -> Z) (st : LossProfit.t)
    (e : string) :
  balances !! e = Some (agg e) ->
  LossProfit.writeFigureRow figure add balances st e
  = Ok (LossProfit.skipRows 1
          (add (figure (agg e))
             (LossProfit.setCell (cell "B" (LossProfit.i st))
                (formatAmount (figure (agg e)))
                (LossProfit.setCell (cell "A" (LossProfit.i st)) e st)))).
Proof.
  intros Hb. unfold LossProfit.writeFigureRow, getBalance. cbn. rewrite Hb. reflexivity.
Qed.

(** One loop of [writeLossProfit]: the rows of the names that pass the
    test, one below the other from the current row on, their figures added
    to a running total, the rows above left alone. *)
Lemma writeFigures_spec (keep : string -> bool) (figure : EventAggregate -> Z)
    (names : list string) (st : LossProfit.t) :
  (forall e, e ∈ names -> keep e = true -> balances !! e = Some (agg e)) ->
  let rows := filter (fun e => keep e = true) names in
  exists st',
    LossProfit.writeFigures keep figure add balances names st = Ok st' /\
    LossProfit.i st' = LossProfit.i st + Z.of_nat (length rows) /\
    LossProfit.totalProfit st'
    = LossProfit.totalProfit st + wp * sumOver figure agg rows /\
    LossProfit.totalLoss st'
    = LossProfit.totalLoss st + wl * sumOver figure agg rows /\
    (forall c r, r < LossProfit.i st ->
       LossProfit.sheet st' !! cell (String c "") r
       = LossProfit.sheet st !! cell (String c "") r) /\
    (forall k e, rows !! k = Some e ->
       figure_row (LossProfit.sheet st') (LossProfit.i st + Z.of_nat k) e
         (figure (agg e))).
Proof.
  revert st. induction names as [|e names IH]; intros st Hb rows; subst rows.
  - exists st. cbn. unfold sumOver, sumZ; cbn.
    repeat split; try lia; done.
  - unfold LossProfit.writeFigures in *. cbn [for_each].
    assert (Hb' : forall e', e' ∈ names -> keep e' = true -> balances !! e' = Some (agg e'))
      by (intros e' He'; apply Hb, elem_of_cons; by right).
    destruct (keep e) eqn:Hk.
    + rewrite writeFigureRow_ok by (apply Hb; [apply elem_of_cons; by left|done]).
      cbn [mbind result_bind].
      match goal with |- context [for_each _ names ?s] => set (st1 := s) end.
      destruct (IH st1 Hb') as (st' & Hrun & Hi & Hp & Hl & Hframe & Hrows).
      exists st'. rewrite filter_cons_True by done.
      split; [exact Hrun|]. unfold sumOver, sumZ in *. cbn [length fmap list_fmap foldr].
      rewrite Hi, Hp, Hl. subst st1.
      cbn [LossProfit.skipRows LossProfit.i LossProfit.totalProfit
             LossProfit.totalLoss LossProfit.sheet] in *.
      rewrite ?add_i, ?add_profit, ?add_loss, ?add_sheet in *.
      cbn [LossProfit.setCell LossProfit.i LossProfit.totalProfit
             LossProfit.totalLoss LossProfit.sheet] in *.
      split; [lia|]. split; [lia|]. split; [lia|]. split.
      * intros c r Hr. rewrite Hframe by lia. by read_cell.
      * intros k e' Hk'. destruct k as [|k]; cbn in Hk'.
        -- injection Hk' as <-. rewrite Z.add_0_r.
           split; rewrite Hframe by lia; by read_cell.
        -- replace (LossProfit.i st + Z.of_nat (S k))
             with (LossProfit.i st + 1 + Z.of_nat k) by lia.
           by apply Hrows.
    + cbn [mbind result_bind].
      destruct (IH st Hb') as (st' & Hrun & Hrest).
      exists st'. rewrite filter_cons_False by (by rewrite Hk).
      split; [exact Hrun|exact Hrest].
Qed.

End LossProfitLoops.

Section LossProfitTotals.

Variables (balances : gmap string EventAggregate) (agg : string -> EventAggregate).

(** A loop that adds to the profit leaves the loss as it is. *)
Lemma writeProfits_spec (keep : string -> bool) (figure : EventAggregate -> Z)
    (names : list string) (st : LossProfit.t) :
  (forall e, e ∈ names -> balances !! e = Some (agg e)) ->
  let rows := filter (fun e => keep e = true) names in
  exists st',
    LossProfit.writeFigures keep figure LossProfit.addProfit balances names st = Ok st' /\
    LossProfit.i st' = LossProfit.i st + Z.of_nat (length rows) /\
    LossProfit.totalProfit st' = LossProfit.totalProfit st + sumOver figure agg rows /\
    LossProfit.totalLoss st' = LossProfit.totalLoss st /\
    (forall c r, r < LossProfit.i st ->
       LossProfit.sheet st' !! cell (String c "") r
       = LossProfit.sheet st !! cell (String c "") r) /\
    (forall k e, rows !! k = Some e ->
       figure_row (LossProfit.sheet st') (LossProfit.i st + Z.of_nat k) e
         (figure (agg e))).
Proof.
  intros Hb rows.
  destruct (writeFigures_spec balances agg LossProfit.addProfit 1 0) with
    (keep := keep) (figure := figure) (names := names) (st := st)
    as (st' & Hrun & Hi & Hp & Hl & Hrest);
    try (intros; cbn; lia); try reflexivity; [by auto|].
  exists st'. fold rows in Hi, Hp, Hl, Hrest.
  split; [exact Hrun|]. split; [exact Hi|]. split; [lia|]. split; [lia|exact Hrest].
Qed.

(** A loop that adds to the loss leaves the profit as it is. *)
Lemma writeLosses_spec (keep : string -> bool) (figure : EventAggregate -> Z)
    (names : list string) (st : LossProfit.t) :
  (forall e, e ∈ names -> balances !! e = Some (agg e)) ->
  let rows := filter (fun e => keep e = true) names in
  exists st',
    LossProfit.writeFigures keep figure LossProfit.addLoss balances names st = Ok st' /\
    LossProfit.i st' = LossProfit.i st + Z.of_nat (length rows) /\
    LossProfit.totalProfit st' = LossProfit.totalProfit st /\
    LossProfit.totalLoss st' = LossProfit.totalLoss st + sumOver figure agg rows /\
    (forall c r, r < LossProfit.i st ->
       LossProfit.sheet st' !! cell (String c "") r
       = LossProfit.sheet st !! cell (String c "") r) /\
    (forall k e, rows !! k = Some e ->
       figure_row (LossProfit.sheet st') (LossProfit.i st + Z.of_nat k) e
         (figure (agg e))).
Proof.
  intros Hb rows.
  destruct (writeFigures_spec balances agg LossProfit.addLoss 0 1) with
    (keep := keep) (figure := figure) (names := names) (st := st)
    as (st' & Hrun & Hi & Hp & Hl & Hrest);
    try (intros; cbn; lia); try reflexivity; [by auto|].
  exists st'. fold rows in Hi, Hp, Hl, Hrest.
  split; [exact Hrun|]. split; [exact Hi|]. split; [lia|]. split; [lia|exact Hrest].
Qed.

End LossProfitTotals.

Section LossProfitSheet.

Lemma lookup_cell_here (m : gmap string string) (c : string) (r r' : Z) (v : string) :
  r = r' -> <[cell c r := v]> m !! cell c r' = Some v.
Proof. intros ->. apply lookup_insert_eq. Qed.

(** Reads a cell through the writes that came after it. *)
Ltac read_sheet :=
  repeat first [ rewrite lookup_cell_here by lia
               | rewrite lookup_insert_ne by cell_ne ].

(** Closes a goal about a cell with a fact about the same cell, the row
    written in another way. *)
Ltac same_cell :=
  match goal with
  | H : ?m !! cell ?c ?r = Some ?v |- ?m !! cell ?c ?r' = Some ?v =>
      replace r' with r by lia; exact H
  end.

Variables (eventNames : list string) (balances : gmap string EventAggregate)
          (sheet0 : gmap string string) (taxNames grantNames : list string)
          (agg : string -> EventAggregate).

Hypothesis balances_agg : forall e, e ∈ eventNames -> balances !! e = Some (agg e).

Let ordinary := ordinaryEvents taxNames grantNames eventNames.
Let grants := grantEvents grantNames eventNames.
Let taxes := taxEvents taxNames eventNames.
Let n_o := Z.of_nat (length ordinary).
Let n_g := Z.of_nat (length grants).
Let n_t := Z.of_nat (length taxes).

(** [writeLossProfit] returns, and its sheet has the layout of the loss
    and profit sheet. *)
Lemma writeLossProfit_layout :
  exists sh,
    writeLossProfit eventNames balances sheet0 taxNames grantNames = Ok sh /\
    loss_profit_layout taxNames grantNames eventNames agg sh.
Proof.
  unfold writeLossProfit.
  match goal with |- context [LossProfit.writeFigures _ _ _ _ _ ?s] => set (st0 := s) end.
  destruct (writeProfits_spec balances agg (isOrdinary taxNames grantNames)
              totalGrossProfit eventNames st0 balances_agg)
    as (st1 & Hrun1 & Hi1 & Hp1 & Hl1 & Hf1 & Hrows1).
  rewrite Hrun1. cbn [mbind result_bind].
  match goal with |- context [LossProfit.writeFigures _ _ _ _ _ ?s] => set (st1' := s) end.
  destruct (writeProfits_spec balances agg (isGrant grantNames)
              totalGrossProfit eventNames st1' balances_agg)
    as (st2 & Hrun2 & Hi2 & Hp2 & Hl2 & Hf2 & Hrows2).
  rewrite Hrun2. cbn [mbind result_bind].
  match goal with |- context [LossProfit.writeFigures _ _ _ _ _ ?s] => set (st2' := s) end.
  destruct (writeLosses_spec balances agg (isOrdinary taxNames grantNames)
              totalGrossLoss eventNames st2' balances_agg)
    as (st3 & Hrun3 & Hi3 & Hp3 & Hl3 & Hf3 & Hrows3).
  rewrite Hrun3. cbn [mbind result_bind].
  match goal with |- context [LossProfit.writeFigures _ _ _ _ _ ?s] => set (st3' := s) end.
  destruct (writeLosses_spec balances agg (isTax taxNames)
              totalGrossBalance eventNames st3' balances_agg)
    as (st4 & Hrun4 & Hi4 & Hp4 & Hl4 & Hf4 & Hrows4).
  rewrite Hrun4. cbn [mbind result_bind].
  fold (ordinaryEvents taxNames grantNames eventNames) in Hi1, Hp1, Hrows1, Hi3, Hl3, Hrows3.
  fold (grantEvents grantNames eventNames) in Hi2, Hp2, Hrows2.
  fold (taxEvents taxNames eventNames) in Hi4, Hl4, Hrows4.
  fold ordinary in Hi1, Hp1, Hrows1, Hi3, Hl3, Hrows3.
  fold grants in Hi2, Hp2, Hrows2.
  fold taxes in Hi4, Hl4, Hrows4.
  fold n_o in Hi1, Hi3. fold n_g in Hi2. fold n_t in Hi4.
  subst st0 st1' st2' st3'.
  cbn [LossProfit.i LossProfit.sheet LossProfit.totalProfit LossProfit.totalLoss
         LossProfit.setCell LossProfit.skipRows LossProfit.writeRow] in *.
  eexists. split; [reflexivity|].
  assert (Hlen : forall (l : list string) k e, l !! k = Some e ->
                   (Z.of_nat k < Z.of_nat (length l)))
    by (intros l k e Hk; apply lookup_lt_Some in Hk; lia).
  assert (Hn_o : 0 <= n_o) by (unfold n_o; lia).
  assert (Hn_g : 0 <= n_g) by (unfold n_g; lia).
  assert (Hn_t : 0 <= n_t) by (unfold n_t; lia).
  unfold loss_profit_layout, figure_row.
  fold ordinary grants taxes. fold n_o n_g n_t.
  unfold figure_row in Hrows1, Hrows2, Hrows3, Hrows4.
  repeat match goal with |- _ /\ _ => split end;
    try (intros k e Hk; pose proof (Hlen _ _ _ Hk) as Hlt;
         fold n_o n_g n_t in Hlt;
         try destruct (Hrows1 k e Hk) as [HA1 HB1];
         try destruct (Hrows2 k e Hk) as [HA2 HB2];
         try destruct (Hrows3 k e Hk) as [HA3 HB3];
         try destruct (Hrows4 k e Hk) as [HA4 HB4];
         split);
    read_sheet; try (rewrite Hf4 by lia; read_sheet);
    try (rewrite Hf3 by lia; read_sheet);
    try (rewrite Hf2 by lia; read_sheet);
    try (rewrite Hf1 by lia; read_sheet);
    try reflexivity; try same_amount; same_cell.
Qed.

End LossProfitSheet.

Section LossProfitErrors.

Variable balances : gmap string EventAggregate.

(** A loop of [writeLossProfit] either finds the aggregate of every name
    it takes, or raises KeyError. *)
Lemma writeFigures_cases (keep : string -> bool) (figure : EventAggregate -> Z)
    (add : Z -> LossProfit.t -> LossProfit.t) (names : list string)
    (st : LossProfit.t) :
  (exists st', LossProfit.writeFigures keep figure add balances names st = Ok st' /\
               forall n, n ∈ names -> keep n = true -> is_Some (balances !! n))
  \/ LossProfit.writeFigures keep figure add balances names st = Raise KeyError.
Proof.
  revert st. induction names as [|e names IH]; intros st.
  - left. exists st. split; [reflexivity|]. intros n Hn. by apply elem_of_nil in Hn.
  - unfold LossProfit.writeFigures in *. cbn [for_each].
    destruct (keep e) eqn:Hk.
    + destruct (balances !! e) as [b|] eqn:Hb.
      * rewrite (writeFigureRow_ok balances (fun _ => b) add figure st e Hb).
        cbn [mbind result_bind].
        match goal with |- context [for_each _ names ?s] =>
          destruct (IH s) as [(st' & Hrun & Hall)|Hraise]; [left|by right]
        end.
        exists st'. split; [exact Hrun|].
        intros n [->|Hn]%elem_of_cons Hkeep; [by rewrite Hb|by apply Hall].
      * right. unfold LossProfit.writeFigureRow, getBalance. cbn. by rewrite Hb.
    + cbn [mbind result_bind].
      destruct (IH st) as [(st' & Hrun & Hall)|Hraise]; [left|by right].
      exists st'. split; [exact Hrun|].
      intros n [->|Hn]%elem_of_cons Hkeep; [congruence|by apply Hall].
Qed.

End LossProfitErrors.

Section TwoSheets.

Variables (eventNames : list string) (transactions : list Transaction).

Let agg := fun e => calculateEvent e transactions.

(** Over aggregates of [calculateEvent], the gross balances add up to the
    gross profits plus the gross losses. *)
Lemma sumOver_balance (names : list string) :
  sumOver totalGrossBalance agg names
  = sumOver totalGrossProfit agg names + sumOver totalGrossLoss agg names.
Proof.
  unfold sumOver. rewrite <- sumZ_fmap_add. f_equal.
  apply list_fmap_ext. intros k e He. apply calculateEvent_totalGrossBalance.
Qed.

(** The gross losses of a list of events are no gain. *)
Lemma sumOver_loss_nonpos (names : list string) :
  sumOver totalGrossLoss agg names <= 0.
Proof.
  unfold sumOver, sumZ. induction names as [|e names IH]; cbn; [lia|].
  assert (totalGrossLoss (agg e) <= 0); [|lia].
  unfold agg. rewrite calculateEvent_totalGrossLoss.
  unfold calulcateGross; cbn [grossLoss].
  assert (Hneg : forall o,
            sumAmounts (filter (fun t => origin t = o)
                          (filter (fun t => amount t < 0)
                             (filter (fun t => event t = e) transactions))) <= 0).
  { intros o. apply sumAmounts_nonpos, Forall_forall. intros t Ht.
    apply list_elem_of_filter in Ht as [_ Ht].
    by apply list_elem_of_filter in Ht as [? _]. }
  pose proof (Hneg "CAIXA"%string). pose proof (Hneg "PAYPAL"%string). lia.
Qed.

End TwoSheets.

(** X12. When every event name has its aggregate in [balances],
    [writeLossProfit] returns a sheet with the layout of the loss and
    profit sheet: the gross profits of the ordinary events and of the
    grants, and 'Income Total' with their sum; the gross losses of the
    ordinary events, and 'Loss Total' with their sum; 'Result before tax
    [325]' with income plus loss; the gross balances of the taxes, and
    'Account Result' with the result before tax plus these balances. The
    gross losses of the grants are in no row and in no total. *)
Theorem loss_profit_sheet
    (eventNames : list string) (balances : gmap string EventAggregate)
    (sheet0 : gmap string string) (taxNames grantNames : list string)
    (agg : string -> EventAggregate) :
  (forall e, e ∈ eventNames -> balances !! e = Some (agg e)) ->
  exists sheet',
    writeLossProfit eventNames balances sheet0 taxNames grantNames = Ok sheet' /\
    loss_profit_layout taxNames grantNames eventNames agg sheet'.
Proof. apply writeLossProfit_layout. Qed.

(** [loss_profit_sheet] on the small ledger, with Subsidy a grant and IVA
    a tax: an income of 305,00, a loss of 10,00, a result before tax of
    295,00 and, the tax of 21,00 taken off, an account result of 274,00. *)
Lemma loss_profit_sheet_witness :
  exists sheet',
    writeLossProfit demo_eventNames demo_balances ∅ ["IVA"%string] ["Subsidy"%string]
    = Ok sheet' /\
    (sheet' !! "A7"%string = Some "Income Total"%string /\
     sheet' !! "B7"%string = Some "305,00 €"%string) /\
    (sheet' !! "A13"%string = Some "Loss Total"%string /\
     sheet' !! "B13"%string = Some "-10,00 €"%string) /\
    (sheet' !! "A15"%string = Some "Result before tax [325]"%string /\
     sheet' !! "B15"%string = Some "295,00 €"%string) /\
    (sheet' !! "A21"%string = Some "Account Result"%string /\
     sheet' !! "B21"%string = Some "274,00 €"%string).
Proof.
  destruct (loss_profit_sheet demo_eventNames demo_balances ∅
              ["IVA"%string] ["Subsidy"%string] demo_agg demo_balances_agg)
    as (sheet' & Hrun & _ & _ & _ & Hincome & _ & _ & Hloss & Hresult & _ & _ & Haccount).
  exists sheet'. split; [exact Hrun|].
  split; [exact Hincome|]. split; [exact Hloss|]. split; [exact Hresult|exact Haccount].
Defined.

(** X13. The two closing sheets of the main block against each other.
    With the balances of the main block both [writeEvents] and
    [writeLossProfit] return a sheet, and the 'Account Result' of the loss
    and profit sheet is the total of the 'Net Total' row of the summary
    less the gross losses of the grants, which [writeLossProfit] leaves
    out; these losses being no gain, the account result is never below the
    net total. *)
Theorem account_result_against_net_total
    (eventNames : list string) (transactions : list Transaction)
    (sheet0 sheet1 : gmap string string) (taxNames grantNames : list string)
    (initialBank finalBank initialPaypal finalPaypal : Z) :
  let balances := calculateBalances eventNames transactions in
  let grant_losses :=
    sumOver totalGrossLoss (fun e => calculateEvent e transactions)
      (grantEvents grantNames eventNames) in
  exists summary lossProfit net,
    writeEvents eventNames balances sheet0 taxNames grantNames
      initialBank finalBank initialPaypal finalPaypal = Ok summary /\
    writeLossProfit eventNames balances sheet1 taxNames grantNames = Ok lossProfit /\
    summary !! cell "D" (net_total_row taxNames grantNames eventNames)
    = Some (formatAmount net) /\
    lossProfit !! cell "B" (account_result_row taxNames grantNames eventNames)
    = Some (formatAmount (net - grant_losses)) /\
    grant_losses <= 0.
Proof.
  intros balances grant_losses.
  pose (agg := fun e => calculateEvent e transactions).
  destruct (writeEvents_layout eventNames balances sheet0 taxNames grantNames
              initialBank finalBank initialPaypal finalPaypal agg
              (calculateBalances_lookup eventNames transactions))
    as (summary & Hrun & Hlayout).
  destruct (writeLossProfit_layout eventNames balances sheet1 taxNames grantNames agg
              (calculateBalances_lookup eventNames transactions))
    as (lossProfit & Hrun' & Hlayout').
  unfold summary_layout in Hlayout. cbv zeta in Hlayout.
  destruct Hlayout as (_ & _ & _ & _ & _ & _ & (_ & _ & _ & HD)).
  unfold loss_profit_layout in Hlayout'. cbv zeta in Hlayout'.
  destruct Hlayout' as (_ & _ & _ & _ & _ & _ & _ & _ & _ & _ & (_ & HB)).
  eexists summary, lossProfit, _.
  split; [exact Hrun|]. split; [exact Hrun'|].
  split; [exact HD|]. split; [|apply sumOver_loss_nonpos].
  unfold account_result_row. rewrite HB. f_equal. f_equal.
  fold agg in grant_losses. subst grant_losses.
  rewrite !(sumOver_balance transactions). fold agg. lia.
Qed.

(** X14. [writeLossProfit] looks up every event name in [balances]: when
    one of the names has no aggregate there, it raises KeyError and returns
    no sheet. *)
Theorem writeLossProfit_missing_key
    (eventNames : list string) (balances : gmap string EventAggregate)
    (sheet0 : gmap string string) (taxNames grantNames : list string) (e : string) :
  e ∈ eventNames -> balances !! e = None ->
  writeLossProfit eventNames balances sheet0 taxNames grantNames = Raise KeyError.
Proof.
  intros He Hb. unfold writeLossProfit.
  assert (Hnot : forall keep, keep e = true ->
            ~ (forall n, n ∈ eventNames -> keep n = true -> is_Some (balances !! n))).
  { intros keep Hk Hall. destruct (Hall e He Hk) as [b Hsome]. congruence. }
  match goal with |- context [LossProfit.writeFigures ?k ?f ?a _ _ ?s] =>
    destruct (writeFigures_cases balances k f a eventNames s) as [(st1 & -> & H1)| ->]
  end; [|reflexivity].
  cbn [mbind result_bind].
  match goal with |- context [LossProfit.writeFigures ?k ?f ?a _ _ ?s] =>
    destruct (writeFigures_cases balances k f a eventNames s) as [(st2 & -> & H2)| ->]
  end; [|reflexivity].
  cbn [mbind result_bind].
  match goal with |- context [LossProfit.writeFigures ?k ?f ?a _ _ ?s] =>
    destruct (writeFigures_cases balances k f a eventNames s) as [(st3 & -> & H3)| ->]
  end; [|reflexivity].
  cbn [mbind result_bind].
  match goal with |- context [LossProfit.writeFigures ?k ?f ?a _ _ ?s] =>
    destruct (writeFigures_cases balances k f a eventNames s) as [(st4 & -> & H4)| ->]
  end; [|reflexivity].
  exfalso.
  destruct (isTax taxNames e) eqn:Ht; [by apply (Hnot _ Ht H4)|].
  destruct (isGrant grantNames e) eqn:Hg; [by apply (Hnot _ Hg H2)|].
  apply (Hnot (isOrdinary taxNames grantNames)); [|exact H1].
  unfold isOrdinary, isTax, isGrant in *.
  apply bool_decide_eq_false in Ht, Hg.
  by rewrite !bool_decide_eq_true_2.
Qed.

(** [writeLossProfit_missing_key] on the small ledger, with a name "Fair"
    that has no aggregate. *)
Lemma writeLossProfit_missing_key_witness :
  writeLossProfit (demo_eventNames ++ ["Fair"%string]) demo_balances ∅
    ["IVA"%string] ["Subsidy"%string] = Raise KeyError.
Proof.
  apply (writeLossProfit_missing_key _ _ _ _ _ "Fair"%string).
  - apply elem_of_app. right. apply elem_of_cons. by left.
  - reflexivity.
Defined.

(** ** The net-loss block of an event sheet *)

Section NetLossRows.

Variable amountOf : string -> Z.

Let entry (c : string) : Concept.t :=
  {| Concept.name := c; Concept.amount := amountOf c |}.

(** The loop over 'netLossConcepts': the concepts with an amount other
    than 0 get the rows from the current row on, in their order; the rows
    above are left alone. *)
Lemma writeConceptRows_spec (names : list string) (sheet0 : gmap string string)
    (i0 : Z) :
  let shown := filter (fun c => amountOf c <> 0) names in
  exists sheet',
    fold_left writeConceptRow (entry <$> names) (sheet0, i0)
    = (sheet', i0 + Z.of_nat (length shown)) /\
    (forall c r, r < i0 ->
       sheet' !! cell (String c "") r = sheet0 !! cell (String c "") r) /\
    (forall k c, shown !! k = Some c ->
       sheet' !! cell "L" (i0 + Z.of_nat k) = Some c /\
       sheet' !! cell "M" (i0 + Z.of_nat k) = Some (formatAmount (amountOf c))).
Proof.
  revert sheet0 i0. induction names as [|c names IH]; intros sheet0 i0 shown; subst shown.
  - exists sheet0. cbn. rewrite Z.add_0_r. repeat split; done.
  - cbn [fmap list_fmap fold_left]. unfold writeConceptRow at 2.
    cbn [entry Concept.amount Concept.name].
    destruct (decide (amountOf c <> 0)) as [Hne|Heq].
    + rewrite filter_cons_True by done.
      match goal with |- context [fold_left _ _ (?s, _)] =>
        destruct (IH s (i0 + 1)) as (sheet' & Hrun & Hframe & Hrows)
      end.
      exists sheet'. split.
      { change (list_fmap _ _ entry names) with (entry <$> names).
        rewrite Hrun. f_equal. cbn [length]. lia. }
      split.
      * intros a r Hr. rewrite Hframe by lia. by read_cell.
      * intros k c' Hk. destruct k as [|k]; cbn in Hk.
        -- injection Hk as <-. rewrite Z.add_0_r.
           split; rewrite Hframe by lia; by read_cell.
        -- replace (i0 + Z.of_nat (S k)) with (i0 + 1 + Z.of_nat k) by lia.
           by apply Hrows.
    + rewrite filter_cons_False by done. apply IH.
Qed.

(** Leaving out the concepts with amount 0 does not change the sum. *)
Lemma sumZ_nonzero (names : list string) :
  sumZ (amountOf <$> filter (fun c => amountOf c <> 0) names)
  = sumZ (amountOf <$> names).
Proof.
  unfold sumZ. induction names as [|c names IH]; [reflexivity|].
  rewrite filter_cons. destruct (decide (amountOf c <> 0)) as [Hne|Heq]; cbn; lia.
Qed.

End NetLossRows.

Section OwnLoss.

Variable loss : list Transaction.

Hypothesis loss_negative : Forall (fun t => amount t < 0) loss.

(** A concept has a loss of its own exactly when one of its loss
    transactions is not an advance, and then the loss is below 0. *)
Lemma ownLoss_nonzero (c : string) :
  ownLoss loss c <> 0
  <-> Exists (fun t => concept t = c /\ advance t = false) loss.
Proof.
  unfold ownLoss. rewrite <- sumAmounts_sumZ.
  induction loss_negative as [|t l Ht Hl IH].
  - cbn. split; [done|]. intros H. by apply Exists_nil in H.
  - rewrite sumAmounts_filter_cons, Exists_cons.
    assert (Hrest : sumAmounts (filter (fun t => concept t = c /\ advance t = false) l)
                    <= 0).
    { apply sumAmounts_nonpos, Forall_forall. intros u Hu.
      apply list_elem_of_filter in Hu as [_ Hu].
      by apply (proj1 (Forall_forall _ _) Hl). }
    destruct (decide (concept t = c /\ advance t = false)) as [Hc|Hc].
    + split; [by left|]. intros _. lia.
    + rewrite Z.add_0_l, IH by exact Hl. tauto.
Qed.

Lemma ownLoss_nonpos (c : string) : ownLoss loss c <= 0.
Proof.
  unfold ownLoss. rewrite <- sumAmounts_sumZ.
  apply sumAmounts_nonpos, Forall_forall. intros u Hu.
  apply list_elem_of_filter in Hu as [_ Hu].
  by apply (proj1 (Forall_forall _ _) loss_negative).
Qed.

Lemma ownConcepts_nonzero :
  ownConcepts loss
  = filter (fun c => ownLoss loss c <> 0) (first_occurrences (concept <$> loss)).
Proof.
  unfold ownConcepts. apply list_filter_iff. intros c. by rewrite ownLoss_nonzero.
Qed.

End OwnLoss.

(** The net-loss breakdown of an event, by the concepts of its loss
    transactions in the ledger. *)
Lemma calculateEvent_netLossConcepts (eventName : string)
    (transactions : list Transaction) :
  let agg := calculateEvent eventName transactions in
  let loss := filter (fun t => event t = eventName /\ amount t < 0) transactions in
  let names := first_occurrences (concept <$> loss) in
  netLossConcepts agg
  = (fun c => {| Concept.name := c; Concept.amount := ownLoss loss c |}) <$> names /\
  netLossTotal agg = sumZ (ownLoss loss <$> names) /\
  Forall (fun t => amount t < 0) loss.
Proof.
  intros agg loss names; subst agg names.
  pose proof (calculateEvent_netLoss eventName transactions) as Hnet.
  assert (Hloss : filter (fun t => amount t < 0)
                    (filter (fun t => event t = eventName) transactions) = loss).
  { rewrite list_filter_filter. apply list_filter_iff. tauto. }
  rewrite Hloss in Hnet.
  rewrite calculateEventLossConcepts_spec in Hnet.
  injection Hnet as Hconcepts Htotal.
  rewrite Hconcepts, Htotal, getEventConceptNames_first_occurrences.
  split; [|split].
  - apply list_fmap_ext. intros _ c _. unfold ownLoss. by rewrite sumAmounts_sumZ.
  - f_equal. apply list_fmap_ext. intros _ c _. unfold ownLoss. by rewrite sumAmounts_sumZ.
  - apply Forall_forall. intros t Ht. apply list_elem_of_filter in Ht as [[_ ?] _]. lia.
Qed.

(** X15. The net-loss block of an event sheet. With the loss
    transactions of an event taken from the ledger (its transactions of
    negative amount, in the order of the ledger), the main block writes
    from row 8 on one row for each concept that has a loss transaction
    which is not an advance, in the order of their first occurrence, with
    the sum of the amounts of these transactions, which is below 0; a
    concept whose losses are all advances has no row. The 'Total' row
    stands right below and holds the net loss of the event, which is the
    sum of the rows above it. *)
Theorem net_loss_rows (eventName : string) (transactions : list Transaction)
    (sheet0 : gmap string string) :
  let agg := calculateEvent eventName transactions in
  let loss := filter (fun t => event t = eventName /\ amount t < 0) transactions in
  let shown := ownConcepts loss in
  let sheet' := writeNetLoss agg sheet0 in
  let total_row := 8 + Z.of_nat (length shown) in
  (forall k c, shown !! k = Some c ->
     sheet' !! cell "L" (8 + Z.of_nat k) = Some c /\
     sheet' !! cell "M" (8 + Z.of_nat k) = Some (formatAmount (ownLoss loss c)) /\
     ownLoss loss c < 0) /\
  sheet' !! cell "L" total_row = Some "Total"%string /\
  sheet' !! cell "M" total_row = Some (formatAmount (sumZ (ownLoss loss <$> shown))) /\
  netLossTotal agg = sumZ (ownLoss loss <$> shown).
Proof.
  intros agg loss shown sheet' total_row.
  destruct (calculateEvent_netLossConcepts eventName transactions)
    as (Hconcepts & Htotal & Hneg).
  fold agg in Hconcepts, Htotal. fold loss in Hconcepts, Htotal, Hneg.
  assert (Hshown : shown = filter (fun c => ownLoss loss c <> 0)
                             (first_occurrences (concept <$> loss)))
    by (apply ownConcepts_nonzero; exact Hneg).
  destruct (writeConceptRows_spec (ownLoss loss)
              (first_occurrences (concept <$> loss)) sheet0 8)
    as (sh & Hrun & Hframe & Hrows).
  rewrite <- Hshown in Hrun, Hrows. fold total_row in Hrun.
  assert (Hsum : netLossTotal agg = sumZ (ownLoss loss <$> shown)).
  { rewrite Htotal, Hshown. symmetry. apply sumZ_nonzero. }
  assert (Hsheet : sheet' = <[cell "M" total_row := formatAmount (netLossTotal agg)]>
                              (<[cell "L" total_row := "Total"%string]> sh)).
  { unfold sheet', writeNetLoss. rewrite Hconcepts, Hrun. reflexivity. }
  rewrite Hsheet, <- Hsum.
  split; [|split; [by read_cell|split; [by read_cell|reflexivity]]].
  intros k c Hk.
  assert (Z.of_nat k < Z.of_nat (length shown))
    by (apply lookup_lt_Some in Hk; lia).
  destruct (Hrows k c Hk) as [HL HM].
  split; [unfold total_row; by read_cell|].
  split; [unfold total_row; by read_cell|].
  assert (Hc : c ∈ shown) by (by eapply list_elem_of_lookup_2).
  rewrite Hshown in Hc. apply list_elem_of_filter in Hc as [Hne _].
  pose proof (ownLoss_nonpos loss Hneg c). lia.
Qed.

(** ** The transaction rows of an event sheet *)

Section SortByDate.

Lemma insert_by_date_Permutation (t : Transaction) (l : list Transaction) :
  insert_by_date t l ≡ₚ t :: l.
Proof.
  induction l as [|u r IH]; cbn; [done|].
  destruct (date t <=? date u); [done|].
  rewrite IH. apply Permutation_swap.
Qed.

Lemma sort_by_date_Permutation (l : list Transaction) : sort_by_date l ≡ₚ l.
Proof.
  induction l as [|t l IH]; cbn; [done|].
  fold (sort_by_date l). by rewrite insert_by_date_Permutation, IH.
Qed.

Lemma insert_by_date_ordered (t : Transaction) (l : list Transaction) :
  by_date l -> by_date (insert_by_date t l).
Proof.
  induction l as [|u r IH]; intros Hl; cbn.
  - split; [constructor|exact I].
  - destruct Hl as [Hu Hr].
    destruct (date t <=? date u) eqn:Hle.
    + apply Z.leb_le in Hle. cbn. repeat split; [|exact Hu|exact Hr].
      constructor; [exact Hle|].
      eapply Forall_impl; [exact Hu|]. cbn. intros v Hv. lia.
    + apply Z.leb_gt in Hle. cbn. split; [|by apply IH].
      rewrite insert_by_date_Permutation. constructor; [lia|exact Hu].
Qed.

Lemma sort_by_date_ordered (l : list Transaction) : by_date (sort_by_date l).
Proof.
  induction l as [|t l IH]; cbn; [exact I|].
  by apply insert_by_date_ordered.
Qed.

(** A transaction is put in front of the ones with its own date. *)
Lemma insert_by_date_same_date (t : Transaction) (l : list Transaction) (d : Z) :
  filter (fun u => date u = d) (insert_by_date t l)
  = filter (fun u => date u = d) (t :: l).
Proof.
  induction l as [|u r IH]; cbn; [done|].
  destruct (date t <=? date u) eqn:Hle; [done|].
  apply Z.leb_gt in Hle.
  rewrite (filter_cons _ u (insert_by_date t r)), IH, !filter_cons.
  destruct (decide (date u = d)), (decide (date t = d)); try done. lia.
Qed.

Lemma sort_by_date_stable (l : list Transaction) (d : Z) :
  filter (fun u => date u = d) (sort_by_date l) = filter (fun u => date u = d) l.
Proof.
  induction l as [|t l IH]; cbn; [done|].
  fold (sort_by_date l). rewrite insert_by_date_same_date, !filter_cons, IH. done.
Qed.

End SortByDate.

Section PrintRows.

Variables (formatDate : Z -> result string) (text : Z -> string).

Lemma printRow_ok (cols : PrintColumns) (sheet0 : gmap string string) (i0 : Z)
    (t : Transaction) :
  formatDate (date t) = Ok (text (date t)) ->
  printRow formatDate cols (sheet0, i0) t
  = Ok (<[cell (c5 cols) i0 := comment t]>
          (<[cell (c4 cols) i0 := formatAmount (amount t)]>
             (<[cell (c3 cols) i0 := text (date t)]>
                (<[cell (c2 cols) i0 := concept t]>
                   (<[cell (c1 cols) i0 := name t]> sheet0)))),
        i0 + 1).
Proof. intros Hfmt. unfold printRow. rewrite Hfmt. reflexivity. Qed.

(** The loop of [printTrans]: one row for each transaction, one below the
    other from the current row on; the rows above are left alone. *)
Lemma printRows_spec (col : string) (l : list Transaction)
    (sheet0 : gmap string string) (i0 : Z) :
  (forall t, t ∈ l -> formatDate (date t) = Ok (text (date t))) ->
  exists sheet',
    for_each (printRow formatDate (printColumns col)) l (sheet0, i0)
    = Ok (sheet', i0 + Z.of_nat (length l)) /\
    (forall c r, r < i0 ->
       sheet' !! cell (String c "") r = sheet0 !! cell (String c "") r) /\
    (forall k t, l !! k = Some t ->
       transaction_row sheet' (printColumns col) (i0 + Z.of_nat k) t (text (date t))).
Proof.
  unfold printColumns, transaction_row.
  destruct (decide (col = "A"%string)) as [_|_];
    cbn [c1 c2 c3 c4 c5];
    (revert sheet0 i0; induction l as [|t r IH]; intros sheet0 i0 Hfmt;
     [ exists sheet0; cbn; rewrite Z.add_0_r; repeat split; done
     | cbn [for_each];
       rewrite printRow_ok by (apply Hfmt, elem_of_cons; by left);
       cbn [mbind result_bind c1 c2 c3 c4 c5];
       match goal with |- context [for_each _ r (?s, _)] =>
         destruct (IH s (i0 + 1)) as (sheet' & Hrun & Hframe & Hrows);
         [intros u Hu; apply Hfmt, elem_of_cons; by right|]
       end;
       exists sheet'; split;
       [ rewrite Hrun; do 2 f_equal; cbn [length]; lia
       | split;
         [ intros c q Hq; rewrite Hframe by lia; by read_cell
         | intros k u Hk; destruct k as [|k]; cbn in Hk;
           [ injection Hk as <-; rewrite Z.add_0_r;
             repeat split; rewrite Hframe by lia; by read_cell
           | replace (i0 + Z.of_nat (S k)) with (i0 + 1 + Z.of_nat k) by lia;
             by apply Hrows ] ] ] ]).
Qed.

End PrintRows.

(** X16. The transaction rows of an event sheet. When the date of every
    transaction can be formatted, [printTrans] returns: it leaves to its
    caller the same transactions in the order of their dates, those of one
    date in the order they had, and writes them in this order from row 3
    on, one row each with the name, the concept, the date, the amount and
    the comment, in the columns A to E when [col] is 'A' and in the columns
    F to J for any other [col]; the two rows above are left as they
    were. *)
Theorem printTrans_rows (formatDate : Z -> result string) (text : Z -> string)
    (transactions : list Transaction) (col : string) (sheet0 : gmap string string) :
  (forall t, t ∈ transactions -> formatDate (date t) = Ok (text (date t))) ->
  let sorted := sort_by_date transactions in
  exists sheet',
    printTrans formatDate transactions col sheet0 = Ok (sorted, sheet') /\
    sorted ≡ₚ transactions /\
    by_date sorted /\
    (forall d, filter (fun t => date t = d) sorted
               = filter (fun t => date t = d) transactions) /\
    (forall k t, sorted !! k = Some t ->
       transaction_row sheet' (printColumns col) (3 + Z.of_nat k) t (text (date t))) /\
    (forall c r, r < 3 ->
       sheet' !! cell (String c "") r = sheet0 !! cell (String c "") r) /\
    (c1 (printColumns col) = "A"%string <-> col = "A"%string) /\
    (c1 (printColumns col) = "F"%string <-> col <> "A"%string).
Proof.
  intros Hfmt sorted.
  destruct (printRows_spec formatDate text col sorted sheet0 3)
    as (sheet' & Hrun & Hframe & Hrows).
  { intros t Ht. apply Hfmt. unfold sorted in Ht.
    by rewrite sort_by_date_Permutation in Ht. }
  exists sheet'. unfold printTrans. fold sorted. rewrite Hrun.
  split; [reflexivity|].
  split; [apply sort_by_date_Permutation|].
  split; [apply sort_by_date_ordered|].
  split; [intros d; apply sort_by_date_stable|].
  split; [exact Hrows|]. split; [exact Hframe|].
  unfold printColumns. destruct (decide (col = "A"%string)); cbn; split; split; done.
Qed.

(** [printTrans_rows] on three loss transactions, of 2 January, 1 January
    and 2 January 2023: the one of 1 January comes first, the two others
    follow in the order they had. *)
Lemma printTrans_rows_witness :
  exists sheet',
    printTrans formatDate_utc demo_dated_transactions "A" ∅
    = Ok (sort_by_date demo_dated_transactions, sheet') /\
    name <$> sort_by_date demo_dated_transactions = ["Bob"; "Ann"; "Cid"]%string /\
    (sheet' !! "A3"%string = Some "Bob"%string /\
     sheet' !! "C3"%string = Some "01/01/2023"%string) /\
    (sheet' !! "A4"%string = Some "Ann"%string /\
     sheet' !! "C4"%string = Some "02/01/2023"%string) /\
    (sheet' !! "A5"%string = Some "Cid"%string /\
     sheet' !! "D5"%string = Some ",-5 €"%string).
Proof.
  destruct (printTrans_rows formatDate_utc
              (fun d => match formatDate_utc d with Ok s => s | Raise _ => ""%string end)
              demo_dated_transactions "A" ∅)
    as (sheet' & Hrun & _ & _ & _ & Hrows & _).
  - intros t _. unfold formatDate_utc.
    destruct (civil_from_days (date t / 86400000)) as [[y m] d]. reflexivity.
  - exists sheet'. split; [exact Hrun|]. split; [reflexivity|].
    destruct (Hrows 0%nat _ eq_refl) as (HA3 & _ & HC3 & _).
    destruct (Hrows 1%nat _ eq_refl) as (HA4 & _ & HC4 & _).
    destruct (Hrows 2%nat _ eq_refl) as (HA5 & _ & _ & HD5 & _).
    split; [split; [exact HA3|exact HC3]|].
    split; [split; [exact HA4|exact HC4]|].
    split; [exact HA5|exact HD5].
Defined.
